(** * BOT_V9.5: pool-genesis decoder and price-triggered watcher

    A shallow embedding of [newRaydiumLpService.js] (the decode pipeline,
    [processRaydiumLpTransaction]), of [sniper.js] (the [Sniper] class:
    buy, vault subscription, sell) and of [swapCreator.js] (the trade
    executor, [swapTokens]), followed by the properties of the
    specification that concern them and by further properties of the code.

    JavaScript numbers are IEEE-754 doubles and are modelled by Rocq's
    primitive floats; BigInt values are modelled by [N]; strings by
    [string]; buffers by lists of bytes; [null]/[undefined] by [None]. *)

From Stdlib Require Import ZArith NArith List String Ascii Bool Lia.
From Stdlib Require Import Floats DecimalString DecimalN.
Import ListNotations.


(** ** Exceptions and results *)

(** The exceptions the embedded code can raise. [ErrorMsg] is
    [new Error(msg)]; [Rejected] is the rejection of a promise returned by an
    external collaborator (ledger RPC, record store, trade executor). *)
Inductive Error : Type :=
| TypeError
| RangeError
| SyntaxError
| ErrorMsg (msg : string)
| Rejected (why : string).

Inductive Result (A : Type) : Type :=
| Ok (a : A)
| Err (e : Error).
Arguments Ok {A} a.
Arguments Err {A} e.

Definition is_ok {A} (r : Result A) : bool :=
  match r with Ok _ => true | Err _ => false end.

(** ** JavaScript primitives used by the code *)
Module JS.

(** [BigInt.prototype.toString()]: the decimal digits of the value. *)
Definition toString (n : N) : string :=
  NilEmpty.string_of_uint (N.to_uint n).

(** [BigInt(s)] on a string of decimal digits; any other string is a
    [SyntaxError].  (Signs, radix prefixes and blanks, which [BigInt] also
    reads, never occur in a string produced by [toString].) *)
Definition BigInt (s : string) : Result N :=
  match NilEmpty.uint_of_string s with
  | Some d => Ok (N.of_uint d)
  | None => Err SyntaxError
  end.

(** The double nearest to a natural number (round to nearest, ties to
    even): what [Number] yields on a BigInt, on a BN object and on a string
    of decimal digits. *)
Definition Number_of_N (n : N) : float :=
  SF2Prim (binary_normalize 53 1024 (Z.of_N n) 0 false).

(** [Number(s)] for a string of decimal digits, which is what the pipeline
    stores ([BigInt.prototype.toString()]) and what the ledger reports as a
    balance.  [Number] also reads signs, fractions, exponents, radix prefixes
    and surrounding blanks; on such strings, which the code never produces,
    this definition does not follow it and yields [NaN]. *)
Definition Number_of_string (s : string) : float :=
  match NilEmpty.uint_of_string s with
  | Some d => Number_of_N (N.of_uint d)
  | None => nan
  end.

(** Whether a string consists of decimal digits only: the strings on which
    [Number_of_string] is [Number]. *)
Definition isDecimal (s : string) : bool :=
  match NilEmpty.uint_of_string s with
  | Some _ => true
  | None => false
  end.

(** [Number(x)] for a layout field holding a BN object, [NaN] when the field
    is [undefined]. *)
Definition Number_of_field (x : option N) : float :=
  match x with
  | Some n => Number_of_N n
  | None => nan
  end.

Definition isNaN (x : float) : bool := negb (PrimFloat.eqb x x).

(** ToBoolean on a number: [0], [-0] and [NaN] are falsy. *)
Definition truthy (x : float) : bool :=
  negb (PrimFloat.eqb x 0 || isNaN x).

(** [x || d] on numbers. *)
Definition or_default (x d : float) : float :=
  if truthy x then x else d.

(** [10 ** n] for a natural exponent [n <= 22]: every power of ten up to
    [10 ** 22] is a double, and the operator returns it.  Above 22 the
    operator is only an approximation that depends on the engine (V8 gives
    [10 ** 26 = 9.999999999999999e+25]), and this definition, which takes
    the nearest double, need not agree with it: a statement about a value
    computed with [pow10] bounds the exponent by [MAX_EXACT_POW10]. *)
Definition MAX_EXACT_POW10 : N := 22.

Definition pow10 (n : N) : float := Number_of_N (10 ^ n).

(** [x >= y] on numbers. *)
Definition geb (x y : float) : bool := PrimFloat.leb y x.

(** [Math.floor(x)]: a double with a non-negative exponent is integral;
    otherwise the mantissa is shifted down, and a negative value with a
    fractional part goes one further from zero. *)
Definition floor (x : float) : float :=
  match Prim2SF x with
  | S754_finite s m e =>
      if (0 <=? e)%Z then x
      else
        let q := Z.shiftr (Z.pos m) (- e) in
        let exact := (Z.land (Z.pos m) (Z.ones (- e)) =? 0)%Z in
        if s
        then SF2Prim (binary_normalize 53 1024
                        (- (if exact then q else q + 1)) 0 true)
        else SF2Prim (binary_normalize 53 1024 q 0 false)
  | _ => x
  end.

(** ** Buffers *)

Definition Buffer := list Byte.byte.

(** [buf[i]]: the byte as a number, [undefined] outside the buffer. *)
Definition at_ (buf : Buffer) (i : nat) : option N :=
  option_map Byte.to_N (nth_error buf i).

Definition byte_or0 (buf : Buffer) (i : nat) : N :=
  match at_ buf i with Some b => b | None => 0 end.

(** [buf.readBigUInt64LE(offset)] as Node.js implements it: a [RangeError]
    unless [buf[offset]] and [buf[offset + 7]] both exist; otherwise the
    low and the high 32-bit halves are assembled and joined. *)
Definition readBigUInt64LE (buf : Buffer) (offset : nat) : Result N :=
  match at_ buf offset, at_ buf (offset + 7) with
  | Some first, Some last =>
      let lo := (first
                 + byte_or0 buf (offset + 1) * 2 ^ 8
                 + byte_or0 buf (offset + 2) * 2 ^ 16
                 + byte_or0 buf (offset + 3) * 2 ^ 24)%N in
      let hi := (byte_or0 buf (offset + 4)
                 + byte_or0 buf (offset + 5) * 2 ^ 8
                 + byte_or0 buf (offset + 6) * 2 ^ 16
                 + last * 2 ^ 24)%N in
      Ok (lo + N.shiftl hi 32)%N
  | _, _ => Err RangeError
  end.

(** [buf.subarray(a, b)] for [a <= b]. *)
Definition subarray (buf : Buffer) (a b : nat) : Buffer :=
  firstn (b - a) (skipn a buf).

End JS.

(** ** The error monad of synchronous code, and a store threaded through it *)

Definition bindR {A B} (r : Result A) (f : A -> Result B) : Result B :=
  match r with
  | Ok a => f a
  | Err e => Err e
  end.

(** [M S A]: a computation over a store of type [S] that returns a value or
    raises, and leaves the store as it is at that point. *)
Definition M (S A : Type) : Type := S -> Result A * S.

Definition ret {S A} (a : A) : M S A := fun s => (Ok a, s).
Definition throw {S A} (e : Error) : M S A := fun s => (Err e, s).
Definition bind {S A B} (m : M S A) (f : A -> M S B) : M S B :=
  fun s => match m s with
           | (Ok a, s') => f a s'
           | (Err e, s') => (Err e, s')
           end.
Definition lift {S A} (r : Result A) : M S A := fun s => (r, s).

(** [try { body } catch (error) { handler }]. *)
Definition try_catch {S A} (body : M S A) (handler : Error -> M S A) : M S A :=
  fun s => match body s with
           | (Ok a, s') => (Ok a, s')
           | (Err e, s') => handler e s'
           end.

Declare Scope js_scope.
Delimit Scope js_scope with js.
Notation "x <- m ;; k" := (bind m (fun x => k))
  (at level 61, m at next level, right associativity) : js_scope.
Notation "m ;;; k" := (bind m (fun _ => k))
  (at level 61, right associativity) : js_scope.

(** ** newRaydiumLpService.js: the pool-genesis decoder *)
Module LpService.
Import JS.
Local Open Scope string_scope.
Local Open Scope js_scope.

Definition WSOL_MINT : string := "So11111111111111111111111111111111111111112".
Definition TOKEN_PROGRAM_ID : string :=
  "TokenkegQfeZyiNwAJbNbGKPFXCWuBvf9Ss623VQ5DA".
Definition ASSOCIATED_TOKEN_PROGRAM_ID : string :=
  "ATokenGPvbdGVxr1b2hvZbsiqW5xWH25efTNsLJA8knL".
Definition SYSVAR_CLOCK : string :=
  "SysvarC1ock11111111111111111111111111111111".

(** A value that is a string or [undefined], such as [accounts[i]]. *)
Definition JsString := option string.

(** [x === s] for a string constant [s]. *)
Definition strict_eq (x : JsString) (s : string) : bool :=
  match x with
  | Some t => String.eqb t s
  | None => false
  end.

(** [!x] on a string or [undefined]: [undefined] and [""] are falsy. *)
Definition falsy (x : JsString) : bool :=
  match x with
  | None => true
  | Some t => String.eqb t ""
  end.

(** *** parseInit2 *)
Module Params.
Record t : Type := mk { initPcAmount : string; initCoinAmount : string }.
End Params.

Definition parseInit2 (buf : Buffer) : Result Params.t :=
  bindR (readBigUInt64LE buf 10) (fun pc =>
  bindR (readBigUInt64LE buf 18) (fun coin =>
  Ok (Params.mk (toString pc) (toString coin)))).

(** *** The pair fields and the flip *)
Module Pair.
Record t : Type := mk {
  baseMint : JsString;
  quoteMint : JsString;
  baseVault : JsString;
  quoteVault : JsString;
  initBase : string;
  initQuote : string
}.
End Pair.

(** [accounts[idx[k]]]; [undefined] when either index is out of range. *)
Definition account (accounts : list string) (idx : list nat) (k : nat)
  : JsString :=
  match nth_error idx k with
  | Some i => nth_error accounts i
  | None => None
  end.

(** "pair fields": the raw orientation, coin side as base. *)
Definition pairFields (accounts : list string) (idx : list nat)
           (params : Params.t) : Pair.t :=
  Pair.mk (account accounts idx 8) (account accounts idx 9)
          (account accounts idx 10) (account accounts idx 11)
          (Params.initCoinAmount params)   (* coin side *)
          (Params.initPcAmount params).    (* pc side *)

(** The three destructuring swaps in the body of the [if]. *)
Definition flip (p : Pair.t) : Pair.t :=
  Pair.mk (Pair.quoteMint p) (Pair.baseMint p)
          (Pair.quoteVault p) (Pair.baseVault p)
          (Pair.initQuote p) (Pair.initBase p).

(** [if (baseMint === WSOL_MINT) { ... }]: flip if WSOL was coin side. *)
Definition canonicalize (p : Pair.t) : Pair.t :=
  if strict_eq (Pair.baseMint p) WSOL_MINT then flip p else p.

(** *** Transactions *)
Record Instruction : Type := {
  programIdIndex : nat;
  (** [ix.accounts || ix.accountKeyIndexes] *)
  accountIndexes : list nat;
  (** the bytes of [Buffer.from(ix.data, 'base64')] *)
  data : Buffer
}.

Record Transaction : Type := {
  (** [(msg.staticAccountKeys ?? msg.accountKeys).map(k => k.toString())] *)
  accountKeys : list string;
  (** [msg.compiledInstructions || msg.instructions] *)
  instructions : list Instruction
}.

(** *** The decoded pool account
    The fields of [liquidityStateV4Layout.decode(...)] that the service
    reads.  A numeric field is a BN object, or [undefined] when the layout
    has no field of that name. *)
Module Layout.
Record t : Type := {
  withdrawQueue : JsString;
  lpVault : JsString;
  lpDecimals : option N;
  nonce : option N;
  poolOpenTime : option N;
  openTime : option N;
  swapFeeNumerator : option N;
  swapFeeDenominator : option N;
  ownerTradeFeeNumerator : option N;
  ownerTradeFeeDenominator : option N;
  ownerWithdrawFeeNumerator : option N;
  ownerWithdrawFeeDenominator : option N;
  status : option N;
  state : option N;
  resetFlag : option N;
  minSize : option N;
  volMaxCutRatio : option N;
  pnlNumerator : option N;
  pnlDenominator : option N;
  depth : option N;
  coinDeposited : option N;
  pcDeposited : option N;
  systemDecimalsValue : option N
}.
End Layout.

(** *** The record that is persisted *)
Record PoolStateFields : Type := {
  swapFeeNumerator : float;
  swapFeeDenominator : float;
  ownerTradeFeeNumerator : float;
  ownerTradeFeeDenominator : float;
  ownerWithdrawFeeNumerator : float;
  ownerWithdrawFeeDenominator : float;
  status : float;
  state : float;
  resetFlag : float;
  minSize : string;
  volMaxCutRatio : string;
  pnlNumerator : string;
  pnlDenominator : string;
  depth : string;
  coinDeposited : string;
  pcDeposited : string;
  systemDecimalsValue : float;
  poolOpenTime : string
}.

(** The object [td].  The launch price [V] is kept as the double itself;
    the code stores its decimal rendering, which [Number] reads back to the
    same double. *)
Record LpRecord : Type := {
  programId : string;
  ammId : JsString;
  lpMint : JsString;
  ammAuthority : JsString;
  ammOpenOrders : JsString;
  baseMint : JsString;
  quoteMint : JsString;
  baseVault : JsString;
  quoteVault : JsString;
  targetOrders : JsString;
  marketProgramId : JsString;
  marketId : JsString;
  marketBaseVault : JsString;
  marketQuoteVault : JsString;
  marketAuthority : JsString;
  initPcAmount : string;
  initCoinAmount : string;
  fee : string;
  version : string;
  marketVersion : string;
  withdrawQueue : string;
  lpVault : string;
  lpDecimals : float;
  nonce : float;
  openTime : JsString;
  marketEventQueue : string;
  marketBids : string;
  marketAsks : string;
  baseDecimals : N;
  quoteDecimals : N;
  K : string;
  V : float;
  isWSOLSwap : bool;
  wrappedSOLAmount : JsString;
  tokenProgramId : string;
  vaultOwner : string;
  userBaseTokenAccount : string;
  userQuoteTokenAccount : string;
  userSolAddress : string;
  poolState : PoolStateFields;
  lookupTableAccount : string;
  routeType : string;
  sdkVersion : string;
  ammVersion : N;
  createdAt : string;
  signature : string
}.

(** What [processRaydiumLpTransaction] resolves to when it resolves to an
    object: [{ ...td, tokenId: insertedId }]. *)
Record TokenData : Type := { tokenId : N; td : LpRecord }.

(** The collection [raydium_lp_transactionsV3]: the documents in insertion
    order; the id of a document is its position. *)
Definition Db := list LpRecord.

(** *** The environment of the service
    The ledger accessor [conn], the process environment, the clock, and the
    library functions the service calls. *)
Record Env : Type := {
  (** [process.env.USER_SOLANA_ADDRESS] *)
  USER_SOLANA_ADDRESS : JsString;
  (** [RAYDIUM_AMM.toString()] *)
  RAYDIUM_AMM : string;
  (** whether [new PublicKey(s)] accepts the string [s] *)
  isPublicKey : string -> bool;
  (** [new PublicKey(bytes).toString()] on a 32-byte slice *)
  base58 : Buffer -> string;
  (** [PublicKey.findProgramAddressSync(seeds, programId)[0].toString()] *)
  findProgramAddressSync : list string -> string -> Result string;
  (** [liquidityStateV4Layout.decode] *)
  decode : Buffer -> Result Layout.t;
  getTransaction : string -> Result (option Transaction);
  (** [conn.getAccountInfo(key)]: the account's [data], or [null] *)
  getAccountInfo : string -> Result (option Buffer);
  (** [conn.getTokenSupply(mint)]: its [value.decimals] *)
  getTokenSupply : string -> Result N;
  (** [Math.floor(Date.now() / 1000)] and [new Date().toISOString()] *)
  nowSeconds : N;
  nowISO : string;
  (** whether [connectDB()] and [insertOne] succeed *)
  storeUp : bool
}.

Section Service.
Variable env : Env.

(** [new PublicKey(v)] for a string or [undefined]; the key is identified
    with its base58 text.  On [undefined] the constructor raises a
    [TypeError], since it reads a property of its argument; a string that is
    no key is refused with an [Error], whose message the model does not
    distinguish by the reason of the refusal. *)
Definition newPublicKey (v : JsString) : Result string :=
  match v with
  | Some s => if isPublicKey env s then Ok s
              else Err (ErrorMsg "Invalid public key input")
  | None => Err TypeError
  end.

Definition getAssociatedTokenAddress (owner mint : string)
  : Result string :=
  findProgramAddressSync env [owner; TOKEN_PROGRAM_ID; mint]
                         ASSOCIATED_TOKEN_PROGRAM_ID.

(** [insertOne(td)] on the collection, after [connectDB()]. *)
Definition insertOne (doc : LpRecord) : M Db N :=
  fun db => if storeUp env
            then (Ok (N.of_nat (List.length db)), (db ++ [doc])%list)
            else (Err (Rejected "mongodb"), db).

(** [x ? x.toString() : d] on a BN field: an object is truthy whatever
    its value, so only [undefined] takes the default. *)
Definition str_or (x : option N) (d : string) : string :=
  match x with
  | Some n => toString n
  | None => d
  end.

(** The body of the [try] block: the descriptive pool-state fields. *)
Definition extractPoolState (poolData : Layout.t)
           (initBase initQuote : string) : PoolStateFields :=
  {| swapFeeNumerator :=
       or_default (Number_of_field (Layout.swapFeeNumerator poolData)) 25;
     swapFeeDenominator :=
       or_default (Number_of_field (Layout.swapFeeDenominator poolData))
                  10000;
     ownerTradeFeeNumerator :=
       or_default (Number_of_field (Layout.ownerTradeFeeNumerator poolData))
                  5;
     ownerTradeFeeDenominator :=
       or_default
         (Number_of_field (Layout.ownerTradeFeeDenominator poolData)) 10000;
     ownerWithdrawFeeNumerator :=
       or_default
         (Number_of_field (Layout.ownerWithdrawFeeNumerator poolData)) 0;
     ownerWithdrawFeeDenominator :=
       or_default
         (Number_of_field (Layout.ownerWithdrawFeeDenominator poolData))
         10000;
     status := or_default (Number_of_field (Layout.status poolData)) 6;
     state := or_default (Number_of_field (Layout.state poolData)) 1;
     resetFlag :=
       or_default (Number_of_field (Layout.resetFlag poolData)) 0;
     minSize := str_or (Layout.minSize poolData) "1";
     volMaxCutRatio := str_or (Layout.volMaxCutRatio poolData) "0";
     pnlNumerator := str_or (Layout.pnlNumerator poolData) "0";
     pnlDenominator := str_or (Layout.pnlDenominator poolData) "1";
     depth := str_or (Layout.depth poolData) "0";
     coinDeposited := str_or (Layout.coinDeposited poolData) initBase;
     pcDeposited := str_or (Layout.pcDeposited poolData) initQuote;
     systemDecimalsValue :=
       or_default (Number_of_field (Layout.systemDecimalsValue poolData))
                  6;
     poolOpenTime :=
       str_or (Layout.poolOpenTime poolData) (toString (nowSeconds env))
  |}.

(** The assignments of the [catch] block. *)
Definition defaultPoolState (initBase initQuote : string)
  : PoolStateFields :=
  {| swapFeeNumerator := 25;
     swapFeeDenominator := 10000;
     ownerTradeFeeNumerator := 5;
     ownerTradeFeeDenominator := 10000;
     ownerWithdrawFeeNumerator := 0;
     ownerWithdrawFeeDenominator := 10000;
     status := 6;
     state := 1;
     resetFlag := 0;
     minSize := "1";
     volMaxCutRatio := "0";
     pnlNumerator := "0";
     pnlDenominator := "1";
     depth := "0";
     coinDeposited := initBase;
     pcDeposited := initQuote;
     systemDecimalsValue := 6;
     poolOpenTime := toString (nowSeconds env)
  |}.

(** [BigInt(initQuote) * BigInt(initBase) / 10n ** BigInt(qd + bd)];
    BigInt division truncates. *)
Definition Khuman (initQuote initBase : string) (quoteDec baseDec : N)
  : Result N :=
  bindR (BigInt initQuote) (fun q =>
  bindR (BigInt initBase) (fun b =>
  Ok ((q * b) / 10 ^ (quoteDec + baseDec))%N)).

(** The launch price, in doubles. *)
Definition launchPrice (initQuote initBase : string) (quoteDec baseDec : N)
  : float :=
  ((Number_of_string initQuote / pow10 quoteDec)
   / (Number_of_string initBase / pow10 baseDec))%float.

(** *** The stages of the loop body *)

(** "pool account fields": the pool account is fetched and decoded, the
    LP mint's supply is fetched, and the address-bearing and numeric
    fields of the [Object.assign] are read.  [None] is the early
    [return null] for an absent pool account. *)
Record PoolAccountFields : Type := {
  poolData : Layout.t;
  pa_withdrawQueue : string;
  pa_lpVault : string;
  pa_lpDecimals : float;
  pa_nonce : float;
  pa_openTime : JsString
}.

Definition poolAccountFields (ammId lpMint : JsString)
  : Result (option PoolAccountFields) :=
  bindR (newPublicKey ammId) (fun ammKey =>
  bindR (getAccountInfo env ammKey) (fun poolAcc =>
  match poolAcc with
  | None => Ok None
  | Some bytes =>
      bindR (decode env bytes) (fun pd =>
      bindR (newPublicKey lpMint) (fun lpKey =>
      bindR (getTokenSupply env lpKey) (fun lpTokenSupply =>
      bindR (newPublicKey (Layout.withdrawQueue pd)) (fun wq =>
      bindR (newPublicKey (Layout.lpVault pd)) (fun lv =>
      Ok (Some
            {| poolData := pd;
               pa_withdrawQueue := wq;
               pa_lpVault := lv;
               pa_lpDecimals :=
                 match Layout.lpDecimals pd with
                 | Some n => Number_of_N n
                 | None => Number_of_N lpTokenSupply
                 end;
               pa_nonce := Number_of_field (Layout.nonce pd);
               pa_openTime :=
                 match Layout.poolOpenTime pd with
                 | Some t => Some (toString t)
                 | None => option_map toString (Layout.openTime pd)
                 end |}))))))
  end)).

(** "serum side-accounts": the market account is fetched; [None] is the
    early [return null] of
    [if (!mAcc || mAcc.data.length < 341) return null]. *)
Record MarketSide : Type := {
  ms_eventQueue : string;
  ms_bids : string;
  ms_asks : string
}.

Definition serumSideAccounts (marketId : JsString)
  : Result (option MarketSide) :=
  bindR (newPublicKey marketId) (fun marketKey =>
  bindR (getAccountInfo env marketKey) (fun mAcc =>
  match mAcc with
  | None => Ok None
  | Some d =>
      if (List.length d <? 341)%nat then Ok None
      else Ok (Some {| ms_eventQueue := base58 env (subarray d 245 277);
                       ms_bids := base58 env (subarray d 277 309);
                       ms_asks := base58 env (subarray d 309 341) |})
  end)).

(** "Market authority - if not already computed, derive it". *)
Definition resolveMarketAuthority
           (marketAuthority marketId marketProgramId : JsString)
           (vaultOwner : string) : JsString :=
  if falsy marketAuthority || strict_eq marketAuthority "undefined"
  then
    match bindR (newPublicKey marketId) (fun mk =>
          bindR (newPublicKey marketProgramId) (fun mp =>
          findProgramAddressSync env [mk] mp)) with
    | Ok derived => Some derived
    | Err _ => Some vaultOwner
    end
  else marketAuthority.

(** The body of the [for] loop for an instruction whose program is the
    AMM: every path through it returns. *)
Definition processInstruction (USER_ADDRESS sig : string)
           (accounts : list string) (ix : Instruction)
  : M Db (option TokenData) :=
  let idx := accountIndexes ix in
  params <- lift (parseInit2 (data ix)) ;;
  (* variant-aware account mapping *)
  let ammId := account accounts idx 4 in
  let lpMint := account accounts idx 7 in
  let clock := strict_eq (account accounts idx 5) SYSVAR_CLOCK in
  let authority :=
    if clock then account accounts idx 6 else account accounts idx 5 in
  let openOrders :=
    if clock then account accounts idx 7 else account accounts idx 6 in
  (* pair fields, flipped if WSOL was coin side *)
  let p := canonicalize (pairFields accounts idx params) in
  let marketProgramId := account accounts idx 15 in
  let marketId := account accounts idx 16 in
  (* pool account fields *)
  pa <- lift (poolAccountFields ammId lpMint) ;;
  match pa with
  | None => ret None
  | Some pa =>
  (* serum side-accounts *)
  ms <- lift (serumSideAccounts marketId) ;;
  match ms with
  | None => ret None
  | Some ms =>
  (* true decimals *)
  baseKey <- lift (newPublicKey (Pair.baseMint p)) ;;
  quoteKey <- lift (newPublicKey (Pair.quoteMint p)) ;;
  baseDec <- lift (getTokenSupply env baseKey) ;;
  quoteDec <- lift (getTokenSupply env quoteKey) ;;
  (* human-unit constant product *)
  k <- lift (Khuman (Pair.initQuote p) (Pair.initBase p) quoteDec baseDec) ;;
  let isWSOL := strict_eq (Pair.quoteMint p) WSOL_MINT in
  (* vault owner PDA and user token accounts *)
  marketKey <- lift (newPublicKey marketId) ;;
  marketProgramKey <- lift (newPublicKey marketProgramId) ;;
  vaultOwner' <- lift (findProgramAddressSync env [marketKey]
                                              marketProgramKey) ;;
  userBase <- lift (getAssociatedTokenAddress USER_ADDRESS baseKey) ;;
  userQuote <- lift (getAssociatedTokenAddress USER_ADDRESS quoteKey) ;;
  (* pool state fields, with the defaults of the catch block *)
  fields <- try_catch
              (ret (extractPoolState (poolData pa)
                                     (Pair.initBase p) (Pair.initQuote p)))
              (fun _ => ret (defaultPoolState (Pair.initBase p)
                                              (Pair.initQuote p))) ;;
  let doc :=
    {| programId := RAYDIUM_AMM env;
       ammId := ammId;
       lpMint := lpMint;
       ammAuthority := authority;
       ammOpenOrders := openOrders;
       baseMint := Pair.baseMint p;
       quoteMint := Pair.quoteMint p;
       baseVault := Pair.baseVault p;
       quoteVault := Pair.quoteVault p;
       targetOrders := account accounts idx 13;
       marketProgramId := marketProgramId;
       marketId := marketId;
       marketBaseVault := account accounts idx 18;
       marketQuoteVault := account accounts idx 19;
       marketAuthority :=
         resolveMarketAuthority (account accounts idx 20) marketId
                                marketProgramId vaultOwner';
       initPcAmount := Pair.initQuote p;
       initCoinAmount := Pair.initBase p;
       fee := "0.003";
       version := "V2";
       marketVersion := "V2";
       withdrawQueue := pa_withdrawQueue pa;
       lpVault := pa_lpVault pa;
       lpDecimals := pa_lpDecimals pa;
       nonce := pa_nonce pa;
       openTime := pa_openTime pa;
       marketEventQueue := ms_eventQueue ms;
       marketBids := ms_bids ms;
       marketAsks := ms_asks ms;
       baseDecimals := baseDec;
       quoteDecimals := quoteDec;
       K := toString k;
       V := launchPrice (Pair.initQuote p) (Pair.initBase p)
                        quoteDec baseDec;
       isWSOLSwap := isWSOL;
       wrappedSOLAmount := if isWSOL then Some (Pair.initQuote p) else None;
       tokenProgramId := TOKEN_PROGRAM_ID;
       vaultOwner := vaultOwner';
       userBaseTokenAccount := userBase;
       userQuoteTokenAccount := userQuote;
       userSolAddress := USER_ADDRESS;
       poolState := fields;
       lookupTableAccount := "11111111111111111111111111111111";
       routeType := "amm";
       sdkVersion := "2";
       ammVersion := 4;
       createdAt := nowISO env;
       signature := sig |} in
  insertedId <- insertOne doc ;;
  ret (Some {| tokenId := insertedId; td := doc |})
  end
  end.

(** [accounts[ix.programIdIndex] !== RAYDIUM_AMM.toString()] is false. *)
Definition isAmmInstruction (accounts : list string) (ix : Instruction)
  : bool :=
  strict_eq (nth_error accounts (programIdIndex ix)) (RAYDIUM_AMM env).

(** [for (const ix of ixs) { ... } return null]. *)
Fixpoint scanInstructions (USER_ADDRESS sig : string)
         (accounts : list string) (ixs : list Instruction)
  : M Db (option TokenData) :=
  match ixs with
  | [] => ret None
  | ix :: rest =>
      if isAmmInstruction accounts ix
      then processInstruction USER_ADDRESS sig accounts ix
      else scanInstructions USER_ADDRESS sig accounts rest
  end.

Definition processRaydiumLpTransaction (sig : string)
  : M Db (option TokenData) :=
  if falsy (USER_SOLANA_ADDRESS env)
  then throw (ErrorMsg "USER_SOLANA_ADDRESS not found in .env")
  else
    USER_ADDRESS <- lift (newPublicKey (USER_SOLANA_ADDRESS env)) ;;
    tx <- lift (getTransaction env sig) ;;
    match tx with
    | None => ret None
    | Some tx =>
        scanInstructions USER_ADDRESS sig (accountKeys tx)
                         (instructions tx)
    end.

End Service.
End LpService.

(** ** sniper.js: the price-triggered watcher *)
Module Sniper.
Import JS.
Local Open Scope string_scope.
Local Open Scope list_scope.

Definition WSOL_MINT : string := LpService.WSOL_MINT.
Definition JsString := LpService.JsString.
Definition LpRecord := LpService.LpRecord.

(** *** The object [this] *)
Record Sniper : Type := {
  (* Object.assign(this, cfg): the properties of cfg that the class reads *)
  tokenId : N;
  K : string;
  V : float;
  sellTargetPrice : float;
  quoteDecimals : N;
  baseDecimals : N;
  baseMint : JsString;
  quoteVault : JsString;
  (* computed by the constructor.  It also assigns [decimalFactor],
     [10 ** (quoteDecimals - baseDecimals)], which no method reads and which
     is left out: for a negative exponent the operator's value is the
     engine's approximation. *)
  buyAmount : float;
  targetMultiplier : float;
  calculatedSell : float;
  (* the public key of the trading identity *)
  owner : string;
  (* phase flags *)
  fullLpData : option LpRecord;
  (** [null], or the number [onAccountChange] returned *)
  vaultSubId : option N;
  (** [null], or the database handle (there is one database) *)
  db : option unit
}.

(** The configuration object [cfg]. *)
Record Config : Type := {
  cfg_tokenId : N;
  cfg_K : string;
  cfg_V : float;
  cfg_sellTargetPrice : float;
  cfg_quoteDecimals : N;
  cfg_baseDecimals : N;
  cfg_baseMint : JsString;
  cfg_quoteVault : JsString;
  cfg_buyAmount : float
}.

(** [new Sniper(cfg, fullLpData)]; [ownerKey] is the public key of the
    keypair loaded from the environment. *)
Definition constructor (ownerKey : string) (cfg : Config)
           (fullLpData0 : option LpRecord) : Sniper :=
  let targetMultiplier0 := (1 + cfg_sellTargetPrice cfg / 100)%float in
  {| tokenId := cfg_tokenId cfg;
     K := cfg_K cfg;
     V := cfg_V cfg;
     sellTargetPrice := cfg_sellTargetPrice cfg;
     quoteDecimals := cfg_quoteDecimals cfg;
     baseDecimals := cfg_baseDecimals cfg;
     baseMint := cfg_baseMint cfg;
     quoteVault := cfg_quoteVault cfg;
     buyAmount := cfg_buyAmount cfg;
     targetMultiplier := targetMultiplier0;
     calculatedSell := (cfg_V cfg * targetMultiplier0)%float;
     owner := ownerKey;
     fullLpData := fullLpData0;
     vaultSubId := None;
     db := None |}.

(** Assignments to the properties of [this] that the methods make. *)
Inductive Update : Type :=
| SetFullLpData (v : option LpRecord)
| SetVaultSubId (v : option N)
| SetDb (v : option unit).

Definition apply (u : Update) (s : Sniper) : Sniper :=
  match u with
  | SetFullLpData v =>
      {| tokenId := tokenId s; K := K s; V := V s;
         sellTargetPrice := sellTargetPrice s;
         quoteDecimals := quoteDecimals s; baseDecimals := baseDecimals s;
         baseMint := baseMint s; quoteVault := quoteVault s;
         buyAmount := buyAmount s; targetMultiplier := targetMultiplier s;
         calculatedSell := calculatedSell s; owner := owner s;
         fullLpData := v; vaultSubId := vaultSubId s; db := db s |}
  | SetVaultSubId v =>
      {| tokenId := tokenId s; K := K s; V := V s;
         sellTargetPrice := sellTargetPrice s;
         quoteDecimals := quoteDecimals s; baseDecimals := baseDecimals s;
         baseMint := baseMint s; quoteVault := quoteVault s;
         buyAmount := buyAmount s; targetMultiplier := targetMultiplier s;
         calculatedSell := calculatedSell s; owner := owner s;
         fullLpData := fullLpData s; vaultSubId := v; db := db s |}
  | SetDb v =>
      {| tokenId := tokenId s; K := K s; V := V s;
         sellTargetPrice := sellTargetPrice s;
         quoteDecimals := quoteDecimals s; baseDecimals := baseDecimals s;
         baseMint := baseMint s; quoteVault := quoteVault s;
         buyAmount := buyAmount s; targetMultiplier := targetMultiplier s;
         calculatedSell := calculatedSell s; owner := owner s;
         fullLpData := fullLpData s; vaultSubId := vaultSubId s; db := v |}
  end.

(** *** Calls that leave the class *)

(** [amountSpecified]: a number ([toLamports], or the literal [0]) or the
    string [bal.value.amount]. *)
Inductive Amount : Type :=
| Num (x : float)
| Str (s : string).

(** The argument object of [swapCreator.swapTokens].  sniper.js passes the
    record under the key [lpData]; the later copy of the file passes it
    under [tokenData] and adds [source] on the buy. *)
Record SwapArgs : Type := {
  lpData : option LpRecord;
  tokenData : option LpRecord;
  amountSpecified : Amount;
  swapBaseIn : bool;
  swapOwner : string;
  isInputSOL : bool;
  isOutputSOL : bool;
  source : JsString
}.

(** The external operations, indexed by what they return (or, for the
    promise-returning ones, resolve to). *)
Inductive Ext : Type -> Type :=
| SwapTokens (args : SwapArgs) : Ext string
| MongoConnect : Ext unit
| FindOne (id : N) : Ext (option LpRecord)
| GetTokenAccountsByOwner (ownerKey mint : string) : Ext (list string)
| GetTokenAccountBalance (pubkey : string) : Ext string
| OnAccountChange (vault : string) : Ext N
| RemoveAccountChangeListener (id : N) : Ext unit.

(** *** Asynchronous methods
    A method is a tree: it reads and writes [this], calls out, and at an
    [Await] it is suspended until the promise settles; the continuation
    receives the settlement, so that [try]/[finally] can see a rejection.
    [Invoke] is a call that returns synchronously.  An [await] on one of the
    class's own [async] methods is sequential composition: only the calls
    that leave the process let another notification in. *)
Inductive Async (A : Type) : Type :=
| Ret (a : A)
| Throw (e : Error)
| Read (k : Sniper -> Async A)
| Write (u : Update) (k : Async A)
| Invoke {X : Type} (c : Ext X) (k : Result X -> Async A)
| Await {X : Type} (c : Ext X) (k : Result X -> Async A).
Arguments Ret {A} a.
Arguments Throw {A} e.
Arguments Read {A} k.
Arguments Write {A} u k.
Arguments Invoke {A X} c k.
Arguments Await {A X} c k.

Fixpoint bind {A B} (m : Async A) (f : A -> Async B) : Async B :=
  match m with
  | Ret a => f a
  | Throw e => Throw e
  | Read k => Read (fun s => bind (k s) f)
  | Write u k => Write u (bind k f)
  | Invoke c k => Invoke c (fun r => bind (k r) f)
  | Await c k => Await c (fun r => bind (k r) f)
  end.

(** [try { body } finally { fin }]: [fin] runs on both exits; if it raises,
    its exception replaces the outcome of [body]. *)
Fixpoint try_finally {A} (body : Async A) (fin : Async unit) : Async A :=
  match body with
  | Ret a => bind fin (fun _ => Ret a)
  | Throw e => bind fin (fun _ => Throw e)
  | Read k => Read (fun s => try_finally (k s) fin)
  | Write u k => Write u (try_finally k fin)
  | Invoke c k => Invoke c (fun r => try_finally (k r) fin)
  | Await c k => Await c (fun r => try_finally (k r) fin)
  end.

Definition settle {X} (r : Result X) : Async X :=
  match r with
  | Ok x => Ret x
  | Err e => Throw e
  end.

(** [await c]: the value, or the rejection raised at the [await]. *)
Definition await {X} (c : Ext X) : Async X := Await c settle.
Definition invoke {X} (c : Ext X) : Async X := Invoke c settle.
Definition read : Async Sniper := Read Ret.
Definition write (u : Update) : Async unit := Write u (Ret tt).
Definition liftR {A} (r : Result A) : Async A := settle r.

Declare Scope async_scope.
Delimit Scope async_scope with async.
Notation "x <- m ;; k" := (bind m (fun x => k))
  (at level 61, m at next level, right associativity) : async_scope.
Notation "m ;;; k" := (bind m (fun _ => k))
  (at level 61, right associativity) : async_scope.
Local Open Scope async_scope.

Section Methods.
(** whether [new PublicKey(s)] accepts the string [s] *)
Variable isPublicKey : string -> bool.

Definition newPublicKey (v : JsString) : Result string :=
  match v with
  | Some s => if isPublicKey s then Ok s
              else Err (ErrorMsg "Invalid public key input")
  | None => Err TypeError
  end.

Definition toLamports (x : float) (dec : N) : float :=
  floor (x * pow10 dec)%float.

(** [executeBuy] of sniper.js. *)
Definition executeBuy : Async unit :=
  this <- read ;;
  match fullLpData this with
  | None => Throw (ErrorMsg "LP data missing for buy phase")
  | Some lp =>
      await (SwapTokens
               {| lpData := Some lp;
                  tokenData := None;
                  amountSpecified :=
                    Num (toLamports (buyAmount this) (quoteDecimals this));
                  swapBaseIn := false;
                  swapOwner := owner this;
                  isInputSOL :=
                    LpService.strict_eq (LpService.quoteMint lp) WSOL_MINT;
                  isOutputSOL :=
                    LpService.strict_eq (LpService.baseMint lp) WSOL_MINT;
                  source := None |}) ;;;
      (* Free memory *)
      write (SetFullLpData None)
  end.

Definition fetchFromMongo : Async (option LpRecord) :=
  this <- read ;;
  (match db this with
   | None => await MongoConnect ;;; write (SetDb (Some tt))
   | Some _ => Ret tt
   end) ;;;
  await (FindOne (tokenId this)).

Definition getTokenBalance : Async Amount :=
  this <- read ;;
  mint <- liftR (newPublicKey (baseMint this)) ;;
  res <- await (GetTokenAccountsByOwner (owner this) mint) ;;
  match res with
  | [] => Ret (Num 0)
  | pubkey :: _ =>
      bal <- await (GetTokenAccountBalance pubkey) ;;
      Ret (Str bal)
  end.

(** [executeSell] of sniper.js.  The properties of the argument object
    are evaluated in order: the balance is awaited before
    [lpData.baseMint] is read, which raises a [TypeError] on [null]. *)
Definition executeSell : Async unit :=
  doc <- fetchFromMongo ;;
  amount <- getTokenBalance ;;
  this <- read ;;
  match doc with
  | None => Throw TypeError
  | Some lp =>
      await (SwapTokens
               {| lpData := Some lp;
                  tokenData := None;
                  amountSpecified := amount;
                  swapBaseIn := true;
                  swapOwner := owner this;
                  isInputSOL :=
                    LpService.strict_eq (LpService.baseMint lp) WSOL_MINT;
                  isOutputSOL :=
                    LpService.strict_eq (LpService.quoteMint lp) WSOL_MINT;
                  source := None |}) ;;;
      Ret tt
  end.

(** [if (this.vaultSubId)]: [null] and the number [0] are falsy. *)
Definition subscribed (v : option N) : bool :=
  match v with
  | Some id => negb (id =? 0)%N
  | None => false
  end.

Definition unsubscribe : Async unit :=
  this <- read ;;
  match vaultSubId this with
  | Some id =>
      if subscribed (Some id)
      then await (RemoveAccountChangeListener id) ;;;
           write (SetVaultSubId None)
      else Ret tt
  | None => Ret tt
  end.

(** The price the callback computes from a notification. *)
Definition priceNow (this : Sniper) (lamports : float) : float :=
  let quoteHuman := (lamports / pow10 (quoteDecimals this))%float in
  (Number_of_string (K this) / quoteHuman)%float.

(** The callback registered by [subscribeToVault], as a function of the
    [executeSell] it calls. *)
Definition onChange (sell : Async unit) (lamports : float) : Async unit :=
  this <- read ;;
  if geb (priceNow this lamports) (calculatedSell this)
  then sell ;;; unsubscribe
  else Ret tt.

Definition onAccountChange_callback : float -> Async unit :=
  onChange executeSell.

Definition subscribeToVault : Async unit :=
  this <- read ;;
  vault <- liftR (newPublicKey (quoteVault this)) ;;
  id <- invoke (OnAccountChange vault) ;;
  write (SetVaultSubId (Some id)).

End Methods.

(** *** What a run leaves behind *)

(** The calls made, their settlements and the writes to [this], in order. *)
Inductive Event : Type :=
| Called {X : Type} (c : Ext X)
| Settled {X : Type} (c : Ext X) (r : Result X)
| Wrote (u : Update).

(** The collaborators: what a call returns or settles to, given everything
    that happened before. *)
Definition Oracle : Type := list Event -> forall X : Type, Ext X -> Result X.

(** A method run on its own, every promise settling before anything else
    happens: the outcome, the final [this] and the events, oldest first. *)
Fixpoint exec {A} (o : Oracle) (p : Async A) (s : Sniper) (tr : list Event)
  : Result A * Sniper * list Event :=
  match p with
  | Ret a => (Ok a, s, tr)
  | Throw e => (Err e, s, tr)
  | Read k => exec o (k s) s tr
  | Write u k => exec o k (apply u s) (tr ++ [Wrote u])
  | Invoke c k | Await c k =>
      let r := o (tr ++ [Called c]) _ c in
      exec o (k r) s (tr ++ [Called c; Settled c r])
  end.

Definition outcome {A} (x : Result A * Sniper * list Event) : Result A :=
  fst (fst x).
Definition final {A} (x : Result A * Sniper * list Event) : Sniper :=
  snd (fst x).
Definition events {A} (x : Result A * Sniper * list Event) : list Event :=
  snd x.

(** Classifiers of events. *)
Definition is_swap {X} (c : Ext X) : bool :=
  match c with SwapTokens _ => true | _ => false end.

(** A sell is a call of the trade executor with [swapBaseIn: true]. *)
Definition is_sell {X} (c : Ext X) : bool :=
  match c with SwapTokens a => swapBaseIn a | _ => false end.

Definition is_remove {X} (c : Ext X) : bool :=
  match c with RemoveAccountChangeListener _ => true | _ => false end.

Definition sell_called (e : Event) : bool :=
  match e with Called c => is_sell c | _ => false end.

Definition sell_settled (e : Event) : bool :=
  match e with Settled c _ => is_sell c | _ => false end.

Definition swap_called (e : Event) : bool :=
  match e with Called c => is_swap c | _ => false end.

Definition remove_called (e : Event) : bool :=
  match e with Called c => is_remove c | _ => false end.

(** The assignment [this.fullLpData = null]. *)
Definition released (e : Event) : bool :=
  match e with Wrote (SetFullLpData None) => true | _ => false end.

Definition count (f : Event -> bool) (tr : list Event) : nat :=
  List.length (filter f tr).

(** The amount of a call of the trade executor. *)
Definition swap_amount {X} (c : Ext X) : option Amount :=
  match c with SwapTokens a => Some (amountSpecified a) | _ => None end.

(** The amounts of the sells called, oldest first. *)
Fixpoint sell_amounts (tr : list Event) : list Amount :=
  match tr with
  | [] => []
  | Called c :: tr' =>
      if is_sell c
      then match swap_amount c with
           | Some a => a :: sell_amounts tr'
           | None => sell_amounts tr'
           end
      else sell_amounts tr'
  | _ :: tr' => sell_amounts tr'
  end.

(** *** Notifications interleaved with suspended callbacks *)

(** An invocation of the callback: suspended at an [await] whose call has
    been made, or finished. *)
Inductive Task : Type :=
| Suspended {X : Type} (c : Ext X) (k : Result X -> Async unit)
| Finished (r : Result unit).

Definition finished (t : Task) : bool :=
  match t with Finished _ => true | Suspended _ _ => false end.

(** The session: [this], the invocations of the callback in order of
    delivery, the events so far, and the connection's side of the
    subscription (the id under which the callback is registered). *)
Record Sys : Type := {
  this : Sniper;
  tasks : list Task;
  trace : list Event;
  listener : option N
}.

(** The effect of a settled call on the connection's registry. *)
Definition registry {X} (c : Ext X) : Result X -> option N -> option N :=
  match c in Ext X return Result X -> option N -> option N with
  | OnAccountChange _ =>
      fun r l => match r with Ok id => Some id | Err _ => l end
  | RemoveAccountChangeListener id =>
      fun r l => match r, l with
                 | Ok _, Some id' => if (id =? id')%N then None else l
                 | _, _ => l
                 end
  | _ => fun _ l => l
  end.

(** Run a method up to its next [await]. *)
Fixpoint advance (o : Oracle) (p : Async unit) (s : Sniper)
         (tr : list Event) (l : option N)
  : Task * Sniper * list Event * option N :=
  match p with
  | Ret a => (Finished (Ok a), s, tr, l)
  | Throw e => (Finished (Err e), s, tr, l)
  | Read k => advance o (k s) s tr l
  | Write u k => advance o k (apply u s) (tr ++ [Wrote u]) l
  | Invoke c k =>
      let r := o (tr ++ [Called c]) _ c in
      advance o (k r) s (tr ++ [Called c; Settled c r]) (registry c r l)
  | Await c k => (Suspended c k, s, tr ++ [Called c], l)
  end.

Fixpoint set_nth {A} (i : nat) (x : A) (l : list A) : list A :=
  match l, i with
  | [], _ => []
  | _ :: l', O => x :: l'
  | y :: l', S i' => y :: set_nth i' x l'
  end.

(** What the scheduler can do next: deliver a notification, which invokes
    the callback, or settle the promise a suspended invocation awaits. *)
Inductive Step : Type :=
| Notify (lamports : float)
| Resume (i : nat).

Section Interleaving.
Variable o : Oracle.
Variable callback : float -> Async unit.

Definition step (sys : Sys) (st : Step) : option Sys :=
  match st with
  | Notify lamports =>
      match listener sys with
      | None => None
      | Some _ =>
          let '(t, s, tr, l) :=
            advance o (callback lamports) (this sys) (trace sys)
                    (listener sys) in
          Some {| this := s; tasks := tasks sys ++ [t];
                  trace := tr; listener := l |}
      end
  | Resume i =>
      match nth_error (tasks sys) i with
      | Some (Suspended c k) =>
          let r := o (trace sys) _ c in
          let '(t, s, tr, l) :=
            advance o (k r) (this sys) (trace sys ++ [Settled c r])
                    (registry c r (listener sys)) in
          Some {| this := s; tasks := set_nth i t (tasks sys);
                  trace := tr; listener := l |}
      | _ => None
      end
  end.

Fixpoint run (sys : Sys) (sched : list Step) : option Sys :=
  match sched with
  | [] => Some sys
  | st :: rest =>
      match step sys st with
      | Some sys' => run sys' rest
      | None => None
      end
  end.

End Interleaving.

(** *** Bounds and orderings read off a method and off a run *)

(** [sells_at_most n p]: whatever [this] holds and whatever the calls
    return, no path through [p] calls more than [n] sells. *)
Fixpoint sells_at_most {A} (n : nat) (p : Async A) : Prop :=
  match p with
  | Ret _ | Throw _ => True
  | Read k => forall s, sells_at_most n (k s)
  | Write _ k => sells_at_most n k
  | Invoke c k | Await c k =>
      if is_sell c
      then match n with
           | O => False
           | S n' => forall r, sells_at_most n' (k r)
           end
      else forall r, sells_at_most n (k r)
  end.

(** The sells an invocation may still call once its pending call settles. *)
Definition task_sells_at_most (n : nat) (t : Task) : Prop :=
  match t with
  | Finished _ => True
  | Suspended _ k => forall r, sells_at_most n (k r)
  end.

(** Whether a notification is at or above the target of the session. *)
Definition triggering (s : Sniper) (lamports : float) : bool :=
  geb (priceNow s lamports) (calculatedSell s).

(** The notifications of a schedule that are at or above the target. *)
Fixpoint triggers (s : Sniper) (sched : list Step) : nat :=
  match sched with
  | [] => 0
  | Notify lamports :: rest =>
      (if triggering s lamports then 1 else 0) + triggers s rest
  | Resume _ :: rest => triggers s rest
  end.

(** The rejections of the sells that have settled, oldest first. *)
Definition rejection {X} (r : Result X) : option Error :=
  match r with Ok _ => None | Err e => Some e end.

Fixpoint sell_rejections (tr : list Event) : list Error :=
  match tr with
  | [] => []
  | Settled c r :: tr' =>
      match (if is_sell c then rejection r else None) with
      | Some e => e :: sell_rejections tr'
      | None => sell_rejections tr'
      end
  | _ :: tr' => sell_rejections tr'
  end.

(** A sell that settled with a value. *)
Definition sell_resolved (e : Event) : bool :=
  match e with
  | Settled c r => is_sell c && is_ok r
  | _ => false
  end.

(** [unsubscribes_after_sell sold tr]: every call that removes the listener
    comes after a sell that resolved ([sold]: one has been seen already). *)
Fixpoint unsubscribes_after_sell (sold : bool) (tr : list Event) : bool :=
  match tr with
  | [] => true
  | e :: tr' =>
      (if remove_called e then sold else true)
      && unsubscribes_after_sell (sold || sell_resolved e) tr'
  end.

(** The calls that change the connection's registry. *)
Definition touches_listener {X} (c : Ext X) : bool :=
  match c with
  | OnAccountChange _ | RemoveAccountChangeListener _ => true
  | _ => false
  end.

(** A settlement under which the trade executor and the removal of the
    listener do not fail. *)
Definition allowed {X} (c : Ext X) (r : Result X) : Prop :=
  is_swap c || is_remove c = true -> is_ok r = true.

(** [after_sell p s l]: from [this = s] and the registry [l], with allowed
    settlements, [p] calls no sell and ends with the listener removed. *)
Fixpoint after_sell (p : Async unit) (s : Sniper) (l : option N) : Prop :=
  match p with
  | Ret _ | Throw _ => l = None
  | Read k => after_sell (k s) s l
  | Write u k => after_sell k (apply u s) l
  | Invoke c k | Await c k =>
      is_sell c = false /\
      forall r, allowed c r -> after_sell (k r) s (registry c r l)
  end.

(** [before_sell id p s]: from [this = s], [p] either ends without a sell
    and with [vaultSubId] still [id], never touching the listener, or calls
    one sell and then continues as [after_sell] says. *)
Fixpoint before_sell (id : N) (p : Async unit) (s : Sniper) : Prop :=
  match p with
  | Ret _ | Throw _ => vaultSubId s = Some id
  | Read k => before_sell id (k s) s
  | Write u k => before_sell id k (apply u s)
  | Invoke c k => False
  | Await c k =>
      if is_sell c
      then forall r, allowed c r -> after_sell (k r) s (Some id)
      else touches_listener c = false /\ forall r, before_sell id (k r) s
  end.

(** [guarded p]: no path through [p] touches the connection's registry,
    except after a sell of its own that resolved. *)
Fixpoint guarded (p : Async unit) : Prop :=
  match p with
  | Ret _ | Throw _ => True
  | Read k => forall s, guarded (k s)
  | Write _ k => guarded k
  | Invoke c k | Await c k =>
      touches_listener c = false /\
      forall r, is_sell c && is_ok r = false -> guarded (k r)
  end.

Definition task_guarded (t : Task) : Prop :=
  match t with
  | Finished _ => True
  | Suspended c k =>
      touches_listener c = false /\
      forall r, is_sell c && is_ok r = false -> guarded (k r)
  end.

(** A schedule is serial when it delivers a notification only once every
    earlier invocation of the callback has finished. *)
Fixpoint serial (o : Oracle) (callback : float -> Async unit)
         (sys : Sys) (sched : list Step) : bool :=
  match sched with
  | [] => true
  | st :: rest =>
      match st with
      | Notify _ => forallb finished (tasks sys)
      | Resume _ => true
      end
      && match step o callback sys st with
         | Some sys' => serial o callback sys' rest
         | None => true
         end
  end.

(** *** Invariants of a session *)

(** The assignments the methods make leave the price parameters alone. *)
Definition same_target (s s' : Sniper) : Prop :=
  K s' = K s /\ quoteDecimals s' = quoteDecimals s /\
  calculatedSell s' = calculatedSell s.

(** The invariant of a session under any interleaving.
    Against a budget [B] of notifications at or above the target: the sells
    called so far, plus those the invocations in flight may still call, do
    not exceed [B]. *)
Definition within_budget (s0 : Sniper) (B : nat) (sys : Sys) : Prop :=
  same_target s0 (this sys) /\
  exists bs : list nat,
    Forall2 task_sells_at_most bs (tasks sys) /\
    (count sell_called (trace sys) + list_sum bs <= B)%nat.

(** Until a sell has resolved, the listener is registered under the id the
    session subscribed with, and the invocations in flight are guarded. *)
Definition listening (id : N) (sys : Sys) : Prop :=
  (1 <= count sell_resolved (trace sys))%nat \/
  (listener sys = Some id /\ Forall task_guarded (tasks sys)).

(** The phases of a session under serial delivery. *)
Inductive phase (id : N) (sys : Sys) : Prop :=
| Armed :
    forallb finished (tasks sys) = true ->
    count sell_called (trace sys) = 0%nat ->
    listener sys = Some id ->
    vaultSubId (this sys) = Some id ->
    phase id sys
| Closed :
    forallb finished (tasks sys) = true ->
    (count sell_called (trace sys) <= 1)%nat ->
    listener sys = None ->
    phase id sys
| Fetching (pre : list Task) {X} (c : Ext X) k :
    tasks sys = pre ++ [Suspended c k] ->
    forallb finished pre = true ->
    count sell_called (trace sys) = 0%nat ->
    listener sys = Some id ->
    is_sell c = false ->
    touches_listener c = false ->
    (forall r, before_sell id (k r) (this sys)) ->
    phase id sys
| Selling (pre : list Task) {X} (c : Ext X) k :
    tasks sys = pre ++ [Suspended c k] ->
    forallb finished pre = true ->
    count sell_called (trace sys) = 1%nat ->
    (forall r, allowed c r ->
               after_sell (k r) (this sys) (registry c r (listener sys))) ->
    phase id sys.

(** The session once [subscribeToVault] has returned the id [id]. *)
Definition watching (s : Sniper) (id : N) : Sys :=
  {| this := apply (SetVaultSubId (Some id)) s;
     tasks := [];
     trace := [];
     listener := Some id |}.

(** *** Further classifiers, and serial delivery *)

Definition is_connect {X} (c : Ext X) : bool :=
  match c with MongoConnect => true | _ => false end.

Definition connect_called (e : Event) : bool :=
  match e with Called c => is_connect c | _ => false end.

(** A call of the ledger connection made by [getTokenBalance]. *)
Definition is_balance_query {X} (c : Ext X) : bool :=
  match c with
  | GetTokenAccountsByOwner _ _ | GetTokenAccountBalance _ => true
  | _ => false
  end.

Definition balance_queried (e : Event) : bool :=
  match e with Called c => is_balance_query c | _ => false end.

(** Notifications delivered one after the other, each invocation of the
    callback running to its end before the next one starts, whether it
    returns or raises: the final [this] and the events. *)
Fixpoint deliver (o : Oracle) (callback : float -> Async unit)
         (s : Sniper) (tr : list Event) (notifications : list float)
  : Sniper * list Event :=
  match notifications with
  | [] => (s, tr)
  | lamports :: rest =>
      let r := exec o (callback lamports) s tr in
      deliver o callback (final r) (events r) rest
  end.

End Sniper.

(** ** The second copy of sniper.js
    The repository holds a later copy of the class.  It differs from
    sniper.js in [executeBuy], which clears the cached record in a [finally]
    block, and in [executeSell], which rejects a missing record before it
    reads the balance; both pass the record under the key [tokenData]. *)
Module Sniper2.
Import JS Sniper.
Local Open Scope string_scope.
Local Open Scope async_scope.

Section Methods.
Variable isPublicKey : string -> bool.

Definition executeBuy : Async unit :=
  this <- read ;;
  match fullLpData this with
  | None => Throw (ErrorMsg "LP data missing for buy phase")
  | Some lp =>
      try_finally
        (await (SwapTokens
                  {| lpData := None;
                     tokenData := Some lp;
                     amountSpecified :=
                       Num (toLamports (buyAmount this) (quoteDecimals this));
                     swapBaseIn := false;
                     swapOwner := owner this;
                     isInputSOL :=
                       LpService.strict_eq (LpService.quoteMint lp) WSOL_MINT;
                     isOutputSOL :=
                       LpService.strict_eq (LpService.baseMint lp) WSOL_MINT;
                     source := Some "executeBuy" |}) ;;;
         Ret tt)
        (* Free memory even if swap fails *)
        (write (SetFullLpData None))
  end.

Definition executeSell : Async unit :=
  doc <- fetchFromMongo ;;
  match doc with
  | None => Throw (ErrorMsg "Failed to fetch LP data from MongoDB")
  | Some lp =>
      amount <- getTokenBalance isPublicKey ;;
      this <- read ;;
      await (SwapTokens
               {| lpData := None;
                  tokenData := Some lp;
                  amountSpecified := amount;
                  swapBaseIn := true;
                  swapOwner := owner this;
                  isInputSOL :=
                    LpService.strict_eq (LpService.baseMint lp) WSOL_MINT;
                  isOutputSOL :=
                    LpService.strict_eq (LpService.quoteMint lp) WSOL_MINT;
                  source := None |}) ;;;
      Ret tt
  end.

Definition onAccountChange_callback : float -> Async unit :=
  onChange executeSell.

End Methods.
End Sniper2.

(** ** swapCreator.js: the trade executor
    The repository holds two copies of the file.  The later one rejects a
    missing [tokenData] before anything else, checks four required fields
    when it builds the pool keys, and replaces any other missing address by
    the default key; the earlier one does none of this.  Everything else is
    common to both. *)
Module SwapCreator.
Import JS.
Local Open Scope string_scope.
Local Open Scope list_scope.

Definition JsString := LpService.JsString.
Definition LpRecord := LpService.LpRecord.

Definition BASE_SLIPPAGE_BPS : N := 50.
Definition VOLATILE_SLIPPAGE_BPS : N := 200.

(** [PublicKey.default.toString()] *)
Definition DEFAULT_KEY : string := "11111111111111111111111111111111".

(** *** Values *)

(** [amountSpecified] as a caller may pass it: a string, a number or a BN
    object. *)
Inductive AmountSpecified : Type :=
| AString (s : string)
| ANumber (x : float)
| ABN (n : N).

(** [amount], after the conversion of a string: a BN object or a number. *)
Inductive Amt : Type :=
| BN (n : N)
| Number (x : float).

(** The argument object of [swapTokens], destructured as
    [{ tokenData, amountSpecified, swapBaseIn, owner }]; a keypair is
    identified with its public key. *)
Record Request : Type := {
  tokenData : option LpRecord;
  amountSpecified : AmountSpecified;
  swapBaseIn : bool;
  owner : string
}.

Module PoolKeys.
Record t : Type := mk {
  id : string;
  baseMint : string;
  quoteMint : string;
  baseVault : string;
  quoteVault : string;
  authority : string;
  openOrders : string;
  targetOrders : string;
  marketId : string;
  programId : string;
  marketProgramId : string;
  marketBids : string;
  marketAsks : string;
  marketEventQueue : string;
  marketBaseVault : string;
  marketQuoteVault : string;
  marketAuthority : string;
  vaultOwner : string
}.
End PoolKeys.

(** The instructions a transaction is made of.  [SdkInstruction] is an
    instruction returned by [directSwap], identified by a number. *)
Inductive Instr : Type :=
| SetComputeUnitLimit (units : N)
| SetComputeUnitPrice (microLamports : float)
| CreateAssociatedTokenAccount (payer ata ataOwner mint : string)
| Transfer (fromPubkey toPubkey : string) (lamports : float)
| SyncNative (account : string)
| SdkInstruction (n : N)
| CloseAccount (account destination authority : string).

(** The argument object of [raydium.trade.directSwap]; [slippage] is the
    numerator and the denominator of the [Percent]. *)
Record DirectSwapArgs : Type := {
  poolKeys : PoolKeys.t;
  amountIn : option Amt;
  amountOut : option Amt;
  fixedSide : string;
  swapper : string;
  slippage : N * N
}.

(** *** Calls that leave the class *)
Inductive Call : Type -> Type :=
| RaydiumLoad (ownerKey : string) : Call unit
| RefreshPools (ids : list string) : Call unit
| GetPool (poolId : string) : Call (option unit)
| GetAssociatedAuthority (program : string) : Call string
| GetAccountInfo (key : string) : Call (option unit)
| DirectSwap (args : DirectSwapArgs) : Call (list Instr * list string)
| SendAndConfirmTransaction (tx : list Instr) (signers : list string)
  : Call string.

(** *** Methods
    As in the watcher, a method is a tree.  The only property of [this]
    that changes is [this.raydium]: [Loaded] reads whether it is set and
    [SetRaydium] sets it.  [Fire] is a call whose promise the method does
    not wait for. *)
Inductive Prog (A : Type) : Type :=
| Ret (a : A)
| Throw (e : Error)
| Loaded (k : bool -> Prog A)
| SetRaydium (k : Prog A)
| Invoke {X : Type} (c : Call X) (k : Result X -> Prog A)
| Await {X : Type} (c : Call X) (k : Result X -> Prog A)
| Fire {X : Type} (c : Call X) (k : Prog A).
Arguments Ret {A} a.
Arguments Throw {A} e.
Arguments Loaded {A} k.
Arguments SetRaydium {A} k.
Arguments Invoke {A X} c k.
Arguments Await {A X} c k.
Arguments Fire {A X} c k.

Fixpoint bind {A B} (m : Prog A) (f : A -> Prog B) : Prog B :=
  match m with
  | Ret a => f a
  | Throw e => Throw e
  | Loaded k => Loaded (fun b => bind (k b) f)
  | SetRaydium k => SetRaydium (bind k f)
  | Invoke c k => Invoke c (fun r => bind (k r) f)
  | Await c k => Await c (fun r => bind (k r) f)
  | Fire c k => Fire c (bind k f)
  end.

(** [try { body } catch (error) { handler }]. *)
Fixpoint try_catch {A} (body : Prog A) (handler : Error -> Prog A) : Prog A :=
  match body with
  | Ret a => Ret a
  | Throw e => handler e
  | Loaded k => Loaded (fun b => try_catch (k b) handler)
  | SetRaydium k => SetRaydium (try_catch k handler)
  | Invoke c k => Invoke c (fun r => try_catch (k r) handler)
  | Await c k => Await c (fun r => try_catch (k r) handler)
  | Fire c k => Fire c (try_catch k handler)
  end.

(** A call of an [async] method whose promise is dropped: the method runs
    up to its first [await], whose call is made; what it would do after
    that, and an exception it raises, never reach the caller. *)
Fixpoint start {A} (p : Prog A) : Prog unit :=
  match p with
  | Ret _ => Ret tt
  | Throw _ => Ret tt
  | Loaded k => Loaded (fun b => start (k b))
  | SetRaydium k => SetRaydium (start k)
  | Invoke c k => Invoke c (fun r => start (k r))
  | Await c _ => Fire c (Ret tt)
  | Fire c k => Fire c (start k)
  end.

Definition settle {X} (r : Result X) : Prog X :=
  match r with
  | Ok x => Ret x
  | Err e => Throw e
  end.

Definition await {X} (c : Call X) : Prog X := Await c settle.
Definition invoke {X} (c : Call X) : Prog X := Invoke c settle.
Definition liftR {A} (r : Result A) : Prog A := settle r.

Declare Scope prog_scope.
Delimit Scope prog_scope with prog.
Notation "x <- m ;; k" := (bind m (fun x => k))
  (at level 61, m at next level, right associativity) : prog_scope.
Notation "m ;;; k" := (bind m (fun _ => k))
  (at level 61, right associativity) : prog_scope.
Local Open Scope prog_scope.

(** The process environment and the library functions the class calls. *)
Record Env : Type := {
  (** whether [new PublicKey(s)] accepts the string [s] *)
  isPublicKey : string -> bool;
  (** [new BN(s)] *)
  newBN : string -> Result N;
  (** [Number(process.env.PRIORITY_FEE_MULTIPLIER)] *)
  priorityFeeEnv : float
}.

Section Methods.
Variable env : Env.

(** [Number(process.env.PRIORITY_FEE_MULTIPLIER) || 1.5] *)
Definition PRIORITY_FEE_MULTIPLIER : float :=
  or_default (priorityFeeEnv env) 1.5.

Definition newPublicKey (v : JsString) : Result string :=
  match v with
  | Some s => if isPublicKey env s then Ok s
              else Err (ErrorMsg "Invalid public key input")
  | None => Err TypeError
  end.

(** [new PublicKey(v || PublicKey.default)]: a falsy [v] gives the default
    key, which the constructor takes as it is. *)
Definition keyOrDefault (v : JsString) : Result string :=
  if LpService.falsy v then Ok DEFAULT_KEY else newPublicKey v.

(** [amount.toNumber()]: bn.js refuses a value of more than 53 bits; a
    JavaScript number has no such method. *)
Definition toNumber (amount : Amt) : Result float :=
  match amount with
  | BN n =>
      if (n <? 2 ^ 53)%N then Ok (Number_of_N n)
      else Err (ErrorMsg "Number can only safely store up to 53 bits")
  | Number _ => Err TypeError
  end.

(** [typeof amountSpecified === 'string' ? new BN(amountSpecified)
    : amountSpecified] *)
Definition toAmount (a : AmountSpecified) : Result Amt :=
  match a with
  | AString s => bindR (newBN env s) (fun n => Ok (BN n))
  | ANumber x => Ok (Number x)
  | ABN n => Ok (BN n)
  end.

Definition initializeRaydium (ownerKey : string) : Prog unit :=
  Loaded (fun loaded =>
    if loaded then Ret tt
    else await (RaydiumLoad ownerKey) ;;; SetRaydium (Ret tt)).

(** The loop over [requiredFields]. *)
Definition requiredFields (td : LpRecord) : list (string * JsString) :=
  [ ("ammId", LpService.ammId td);
    ("baseMint", LpService.baseMint td);
    ("quoteMint", LpService.quoteMint td);
    ("userBaseTokenAccount", Some (LpService.userBaseTokenAccount td)) ].

Fixpoint checkRequired (fields : list (string * JsString)) : Result unit :=
  match fields with
  | [] => Ok tt
  | (field, v) :: rest =>
      if LpService.falsy v
      then Err (ErrorMsg (String.append "Missing required field: " field))
      else checkRequired rest
  end.

(** The object literal [poolKeys], its properties evaluated in order;
    [key] is what is applied to each field of [tokenData]. *)
Definition poolKeysWith (key : JsString -> Result string) (td : LpRecord)
  : Result PoolKeys.t :=
  bindR (key (LpService.ammId td)) (fun id =>
  bindR (key (LpService.baseMint td)) (fun baseMint =>
  bindR (key (LpService.quoteMint td)) (fun quoteMint =>
  bindR (key (LpService.baseVault td)) (fun baseVault =>
  bindR (key (LpService.quoteVault td)) (fun quoteVault =>
  bindR (key (LpService.ammAuthority td)) (fun authority =>
  bindR (key (LpService.ammOpenOrders td)) (fun openOrders =>
  bindR (key (LpService.targetOrders td)) (fun targetOrders =>
  bindR (key (LpService.marketId td)) (fun marketId =>
  bindR (key (Some (LpService.programId td))) (fun programId =>
  bindR (key (LpService.marketProgramId td)) (fun marketProgramId =>
  bindR (key (Some (LpService.marketBids td))) (fun marketBids =>
  bindR (key (Some (LpService.marketAsks td))) (fun marketAsks =>
  bindR (key (Some (LpService.marketEventQueue td))) (fun marketEventQueue =>
  bindR (key (LpService.marketBaseVault td)) (fun marketBaseVault =>
  bindR (key (LpService.marketQuoteVault td)) (fun marketQuoteVault =>
  bindR (key (LpService.marketAuthority td)) (fun marketAuthority =>
  bindR (key (Some (LpService.vaultOwner td))) (fun vaultOwner =>
  Ok (PoolKeys.mk id baseMint quoteMint baseVault quoteVault authority
                  openOrders targetOrders marketId programId marketProgramId
                  marketBids marketAsks marketEventQueue marketBaseVault
                  marketQuoteVault marketAuthority vaultOwner)
  )))))))))))))))))).

(** "Debug: Verify derived addresses match static data": the derivation is
    called inside a [try] whose [catch] only logs, and its result is only
    compared and logged. *)
Definition verifyAuthority (keys : PoolKeys.t) : Prog PoolKeys.t :=
  Invoke (GetAssociatedAuthority (PoolKeys.programId keys))
         (fun _ => Ret keys).

(** [createPoolKeysFromTokenData] of the later copy. *)
Definition createPoolKeysFromTokenData (tokenData : option LpRecord)
  : Prog PoolKeys.t :=
  match tokenData with
  | None => Throw (ErrorMsg "tokenData must be an object(sc)")
  | Some td =>
      liftR (checkRequired (requiredFields td)) ;;;
      keys <- liftR (poolKeysWith keyOrDefault td) ;;
      verifyAuthority keys
  end.

(** The elements of the array literal are evaluated in order: the key of
    the transfer, then [amount.toNumber()], then the key of the sync. *)
Definition createWrapSOLInstructions (ownerKey wsolAccount : string)
           (amount : Amt) : Result (list Instr) :=
  bindR (newPublicKey (Some wsolAccount)) (fun toPubkey =>
  bindR (toNumber amount) (fun lamports =>
  bindR (newPublicKey (Some wsolAccount)) (fun account =>
  Ok [Transfer ownerKey toPubkey lamports; SyncNative account]))).

Definition createTokenAccountInstructions (ownerKey : string)
           (td : LpRecord) (swapBaseIn : bool) : Prog (list Instr) :=
  let outputToken :=
    if swapBaseIn then LpService.quoteMint td else LpService.baseMint td in
  let outputTokenAccount :=
    if swapBaseIn then LpService.userQuoteTokenAccount td
    else LpService.userBaseTokenAccount td in
  try_catch
    (key <- liftR (newPublicKey (Some outputTokenAccount)) ;;
     accountInfo <- await (GetAccountInfo key) ;;
     match accountInfo with
     | Some _ => Ret []
     | None =>
         outputMint <- liftR (newPublicKey outputToken) ;;
         ata <- liftR (newPublicKey (Some outputTokenAccount)) ;;
         Ret [CreateAssociatedTokenAccount ownerKey ata ownerKey outputMint]
     end)
    (fun _ => Ret []).

(** [debugTokenAccountState]: three look-ups whose results are logged; the
    [catch] swallows whatever is raised, a [TypeError] on an undefined
    [tokenData] included. *)
Definition debugTokenAccountState (tokenData : option LpRecord)
           (ownerKey : string) : Prog unit :=
  try_catch
    (match tokenData with
     | None => Throw TypeError
     | Some td =>
         base <- liftR (newPublicKey
                          (Some (LpService.userBaseTokenAccount td))) ;;
         await (GetAccountInfo base) ;;;
         quote <- liftR (newPublicKey
                           (Some (LpService.userQuoteTokenAccount td))) ;;
         await (GetAccountInfo quote) ;;;
         vault <- liftR (newPublicKey (LpService.baseVault td)) ;;
         await (GetAccountInfo vault) ;;;
         Ret tt
     end)
    (fun _ => Ret tt).

(** [tokenData.poolAgeMinutes]: no code of the repository writes the
    property, so the read yields [undefined], which [<] turns into NaN. *)
Definition poolAgeMinutes (td : LpRecord) : float := nan.

Definition slippageBps (td : LpRecord) : N :=
  if PrimFloat.ltb (poolAgeMinutes td) 5
  then VOLATILE_SLIPPAGE_BPS else BASE_SLIPPAGE_BPS.

(** "1. Priority fee" *)
Definition priorityFee : list Instr :=
  [ SetComputeUnitLimit 300000;
    SetComputeUnitPrice (floor (50000 * PRIORITY_FEE_MULTIPLIER)%float) ].

(** [transaction.add(...items)]: the items are appended; web3.js refuses an
    empty list of items. *)
Definition add (transaction items : list Instr) : Result (list Instr) :=
  match items with
  | [] => Err (ErrorMsg "No instructions")
  | _ :: _ => Ok (transaction ++ items)
  end.

(** The [try] statement of [swapTokens], which the two copies share but for
    the [createPoolKeysFromTokenData] they call.  In the [catch] block
    [debugTokenAccountState] is called and not awaited. *)
Definition trySwap (createPoolKeys : option LpRecord -> Prog PoolKeys.t)
           (req : Request) : Prog string :=
  try_catch
    (initializeRaydium (owner req) ;;;
     amount <- liftR (toAmount (amountSpecified req)) ;;
     keys <- createPoolKeys (tokenData req) ;;
     await (RefreshPools [PoolKeys.id keys]) ;;;
     poolState <- invoke (GetPool (PoolKeys.id keys)) ;;
     match poolState with
     | None => Throw (ErrorMsg "Pool state not found")
     | Some _ =>
     match tokenData req with
     | None => Throw TypeError
     | Some td =>
         let isInputSOL :=
           if swapBaseIn req then false else LpService.isWSOLSwap td in
         let isOutputSOL :=
           if swapBaseIn req then LpService.isWSOLSwap td else false in
         (* 1. Priority fee *)
         transaction <- liftR (add [] priorityFee) ;;
         (* 2. Token account creation *)
         tokenAccountInstructions <-
           createTokenAccountInstructions (owner req) td (swapBaseIn req) ;;
         transaction <- liftR (add transaction tokenAccountInstructions) ;;
         (* 3. WSOL wrapping for input *)
         transaction <-
           (if isInputSOL
            then
              wrapInstructions <-
                liftR (createWrapSOLInstructions
                         (owner req) (LpService.userBaseTokenAccount td)
                         amount) ;;
              liftR (add transaction wrapInstructions)
            else Ret transaction) ;;
         (* 4. Swap instruction *)
         swap <- await (DirectSwap
                   {| poolKeys := keys;
                      amountIn := if swapBaseIn req then Some amount
                                  else None;
                      amountOut := if swapBaseIn req then None
                                   else Some amount;
                      fixedSide := if swapBaseIn req then "in" else "out";
                      swapper := owner req;
                      slippage := (slippageBps td, 10000%N) |}) ;;
         transaction <- liftR (add transaction (fst swap)) ;;
         (* 5. WSOL unwrapping for output *)
         transaction <-
           (if isOutputSOL
            then
              let outputTokenAccount :=
                if swapBaseIn req then LpService.userQuoteTokenAccount td
                else LpService.userBaseTokenAccount td in
              account <- liftR (newPublicKey (Some outputTokenAccount)) ;;
              liftR (add transaction
                         [CloseAccount account (owner req) (owner req)])
            else Ret transaction) ;;
         await (SendAndConfirmTransaction transaction
                                          (owner req :: snd swap))
     end
     end)
    (fun error =>
       start (debugTokenAccountState (tokenData req) (owner req)) ;;;
       Throw error).

(** [swapTokens] of the later copy. *)
Definition swapTokens (req : Request) : Prog string :=
  match tokenData req with
  | None => Throw (ErrorMsg "tokenData is undefined(swapcreator)")
  | Some _ => trySwap createPoolKeysFromTokenData req
  end.

End Methods.

(** *** What a run leaves behind *)
Inductive Event : Type :=
| Called {X : Type} (c : Call X)
| Settled {X : Type} (c : Call X) (r : Result X).

Definition Oracle : Type := list Event -> forall X : Type, Call X -> Result X.

(** A method run on its own: the outcome, whether [this.raydium] is set at
    the end, and the events, oldest first.  A call that is not awaited
    leaves no settlement. *)
Fixpoint exec {A} (o : Oracle) (p : Prog A) (loaded : bool)
         (tr : list Event) : Result A * bool * list Event :=
  match p with
  | Ret a => (Ok a, loaded, tr)
  | Throw e => (Err e, loaded, tr)
  | Loaded k => exec o (k loaded) loaded tr
  | SetRaydium k => exec o k true tr
  | Invoke c k | Await c k =>
      let r := o (tr ++ [Called c]) _ c in
      exec o (k r) loaded (tr ++ [Called c; Settled c r])
  | Fire c k => exec o k loaded (tr ++ [Called c])
  end.

Definition outcome {A} (x : Result A * bool * list Event) : Result A :=
  fst (fst x).
Definition sdkLoaded {A} (x : Result A * bool * list Event) : bool :=
  snd (fst x).
Definition events {A} (x : Result A * bool * list Event) : list Event :=
  snd x.

Definition is_load {X} (c : Call X) : bool :=
  match c with RaydiumLoad _ => true | _ => false end.
Definition is_directSwap {X} (c : Call X) : bool :=
  match c with DirectSwap _ => true | _ => false end.
Definition is_send {X} (c : Call X) : bool :=
  match c with SendAndConfirmTransaction _ _ => true | _ => false end.

Definition is_getPool {X} (c : Call X) : bool :=
  match c with GetPool _ => true | _ => false end.

Definition load_called (e : Event) : bool :=
  match e with Called c => is_load c | _ => false end.
Definition directSwap_called (e : Event) : bool :=
  match e with Called c => is_directSwap c | _ => false end.
Definition send_called (e : Event) : bool :=
  match e with Called c => is_send c | _ => false end.
Definition getPool_called (e : Event) : bool :=
  match e with Called c => is_getPool c | _ => false end.

Definition count (f : Event -> bool) (tr : list Event) : nat :=
  List.length (filter f tr).

(** The transactions handed to [sendAndConfirmTransaction], with their
    signers, oldest first. *)
Fixpoint sent (tr : list Event) : list (list Instr * list string) :=
  match tr with
  | [] => []
  | Called c :: tr' =>
      match c with
      | SendAndConfirmTransaction tx signers => (tx, signers) :: sent tr'
      | _ => sent tr'
      end
  | _ :: tr' => sent tr'
  end.

(** *** Bounds read off a method *)

(** An event that is a call selected by [P]. *)
Definition called (P : forall X : Type, Call X -> bool) (e : Event) : bool :=
  match e with Called c => P _ c | _ => false end.

(** Every path through [p] makes at most [n] calls that [P] selects;
    [loaded] is whether [this.raydium] is set on entry. *)
Fixpoint at_most {A} (P : forall X : Type, Call X -> bool) (n : nat)
         (loaded : bool) (p : Prog A) : Prop :=
  match p with
  | Ret _ | Throw _ => True
  | Loaded k => at_most P n loaded (k loaded)
  | SetRaydium k => at_most P n true k
  | Invoke c k | Await c k =>
      if P _ c
      then match n with
           | O => False
           | S m => forall r, at_most P m loaded (k r)
           end
      else forall r, at_most P n loaded (k r)
  | Fire c k =>
      if P _ c
      then match n with
           | O => False
           | S m => at_most P m loaded k
           end
      else at_most P n loaded k
  end.

(** No path through [p] returns a value. *)
Fixpoint fails {A} (p : Prog A) : Prop :=
  match p with
  | Ret _ => False
  | Throw _ => True
  | Loaded k => forall b, fails (k b)
  | SetRaydium k => fails k
  | Invoke c k | Await c k => forall r, fails (k r)
  | Fire c k => fails k
  end.

(** *** The watcher's calls, as the executor receives them
    The destructuring of the argument object keeps [tokenData],
    [amountSpecified], [swapBaseIn] and [owner]; what the watcher passes
    under any other key is dropped. *)
Definition request (a : Sniper.SwapArgs) : Request :=
  {| tokenData := Sniper.tokenData a;
     amountSpecified :=
       match Sniper.amountSpecified a with
       | Sniper.Num x => ANumber x
       | Sniper.Str s => AString s
       end;
     swapBaseIn := Sniper.swapBaseIn a;
     owner := Sniper.swapOwner a |}.

(** The argument objects of the calls of the trade executor in a run of
    the watcher, oldest first. *)
Fixpoint requests (tr : list Sniper.Event) : list Request :=
  match tr with
  | [] => []
  | Sniper.Called c :: tr' =>
      match c with
      | Sniper.SwapTokens a => request a :: requests tr'
      | _ => requests tr'
      end
  | _ :: tr' => requests tr'
  end.

End SwapCreator.

(** ** The earlier copy of swapCreator.js *)
Module SwapCreator0.
Import JS SwapCreator.
Local Open Scope string_scope.
Local Open Scope prog_scope.

Section Methods.
Variable env : Env.

(** Every field goes through [new PublicKey] as it is; reading a property
    of an undefined [tokenData] raises a [TypeError]. *)
Definition createPoolKeysFromTokenData (tokenData : option LpRecord)
  : Prog PoolKeys.t :=
  match tokenData with
  | None => Throw TypeError
  | Some td =>
      keys <- liftR (poolKeysWith (newPublicKey env) td) ;;
      verifyAuthority keys
  end.

Definition swapTokens (req : Request) : Prog string :=
  trySwap env createPoolKeysFromTokenData req.

End Methods.
End SwapCreator0.

(** ** Reference definitions, in the words of the specification *)
Module Spec.
Import JS.

(** The unsigned integer a list of bytes denotes, least significant first. *)
Fixpoint le_value (bs : list Byte.byte) : N :=
  match bs with
  | [] => 0
  | b :: rest => Byte.to_N b + 256 * le_value rest
  end.

(** "the little-endian unsigned 64-bit integer at byte offsets
    [off, off + 8)". *)
Definition u64_le_at (buf : Buffer) (off : nat) : N :=
  le_value (subarray buf off (off + 8)).

(** An encoder: the [n] low bytes of a number, least significant first. *)
Fixpoint le_bytes (n : nat) (v : N) : list Byte.byte :=
  match n with
  | O => []
  | S n' =>
      match Byte.of_N (v mod 256) with
      | Some b => b :: le_bytes n' (v / 256)
      | None => Byte.x00 :: le_bytes n' (v / 256)
      end
  end.

End Spec.

(** ** Concrete data on which the statements below are exercised *)
Module Fixture.
Import JS.
Local Open Scope string_scope.
Local Open Scope list_scope.

(** A genesis payload: tag, nonce and open time in the first ten bytes, then
    50_000_000_000 and 1_000_000_000. *)
Definition payload : Buffer :=
  repeat Byte.x00 10 ++ Spec.le_bytes 8 50000000000 ++ Spec.le_bytes 8 1000000000.

(** A payload whose two amounts are 1 and 2. *)
Definition payload12 : Buffer :=
  repeat Byte.x00 10 ++ Spec.le_bytes 8 1 ++ Spec.le_bytes 8 2.

Definition accounts : list string :=
  [ "RaydiumAmm"; "Token"; "AToken"; "System"; "Rent"; "AmmId"; "Authority";
    "OpenOrders"; "LpMint"; "BaseMint"; LpService.WSOL_MINT; "BaseVault";
    "QuoteVault"; "Extra12"; "TargetOrders"; "Extra14"; "MarketProgram";
    "MarketId"; "Extra17"; "MarketBaseVault"; "MarketQuoteVault";
    "MarketAuthority" ].

(** The genesis instruction: [idx[k]] is the account in slot [k + 1]. *)
Definition genesis : LpService.Instruction :=
  {| LpService.programIdIndex := 0;
     LpService.accountIndexes :=
       [1; 2; 3; 4; 5; 6; 7; 8; 9; 10; 11; 12; 13; 14; 15; 16; 17; 18; 19;
        20; 21]%nat;
     LpService.data := payload |}.

Definition transaction : LpService.Transaction :=
  {| LpService.accountKeys := accounts;
     LpService.instructions :=
       [ {| LpService.programIdIndex := 3;
            LpService.accountIndexes := [];
            LpService.data := [] |};
         genesis ] |}.

(** A decoded pool account whose fee numerators, status and state are 0. *)
Definition pool : LpService.Layout.t :=
  {| LpService.Layout.withdrawQueue := Some "WithdrawQueue";
     LpService.Layout.lpVault := Some "LpVault";
     LpService.Layout.lpDecimals := None;
     LpService.Layout.nonce := Some 254%N;
     LpService.Layout.poolOpenTime := Some 1700000000%N;
     LpService.Layout.openTime := None;
     LpService.Layout.swapFeeNumerator := Some 0%N;
     LpService.Layout.swapFeeDenominator := Some 10000%N;
     LpService.Layout.ownerTradeFeeNumerator := Some 0%N;
     LpService.Layout.ownerTradeFeeDenominator := Some 10000%N;
     LpService.Layout.ownerWithdrawFeeNumerator := Some 0%N;
     LpService.Layout.ownerWithdrawFeeDenominator := Some 10000%N;
     LpService.Layout.status := Some 0%N;
     LpService.Layout.state := Some 0%N;
     LpService.Layout.resetFlag := Some 0%N;
     LpService.Layout.minSize := Some 0%N;
     LpService.Layout.volMaxCutRatio := None;
     LpService.Layout.pnlNumerator := None;
     LpService.Layout.pnlDenominator := None;
     LpService.Layout.depth := Some 3%N;
     LpService.Layout.coinDeposited := None;
     LpService.Layout.pcDeposited := None;
     LpService.Layout.systemDecimalsValue := None |}.

(** A ledger that knows the transaction ["sig"], the pool account and,
    under the market id, the account data [market]. *)
Definition env (market : option Buffer) : LpService.Env :=
  {| LpService.USER_SOLANA_ADDRESS := Some "User";
     LpService.RAYDIUM_AMM := "RaydiumAmm";
     LpService.isPublicKey := fun s => negb (String.eqb s "");
     LpService.base58 :=
       fun b => String.append "key" (toString (N.of_nat (List.length b)));
     LpService.findProgramAddressSync :=
       fun seeds prog => Ok (String.concat "/" (prog :: seeds));
     LpService.decode := fun _ => Ok pool;
     LpService.getTransaction :=
       fun sig => if String.eqb sig "sig" then Ok (Some transaction)
                  else Ok None;
     LpService.getAccountInfo :=
       fun key => if String.eqb key "AmmId" then Ok (Some [Byte.x01])
                  else if String.eqb key "MarketId" then Ok market
                  else Ok None;
     LpService.getTokenSupply := fun _ => Ok 9%N;
     LpService.nowSeconds := 1767225600;
     LpService.nowISO := "2026-01-01T00:00:00.000Z";
     LpService.storeUp := true |}.

Definition liveMarket : option Buffer := Some (repeat Byte.x07 341).
Definition shortMarket : option Buffer := Some (repeat Byte.x07 340).

(** The record the pipeline persists on this ledger, if any. *)
Definition record : option LpService.LpRecord :=
  match fst (LpService.processRaydiumLpTransaction (env liveMarket) "sig" [])
  with
  | Ok (Some t) => Some (LpService.td t)
  | _ => None
  end.

(** A session armed with that record: launch price 50, sell target 20 %. *)
Definition cfg : Sniper.Config :=
  {| Sniper.cfg_tokenId := 0;
     Sniper.cfg_K := "3000";
     Sniper.cfg_V := 50%float;
     Sniper.cfg_sellTargetPrice := 20%float;
     Sniper.cfg_quoteDecimals := 9;
     Sniper.cfg_baseDecimals := 9;
     Sniper.cfg_baseMint := Some "BaseMint";
     Sniper.cfg_quoteVault := Some "QuoteVault";
     Sniper.cfg_buyAmount := 0.5%float |}.

Definition session : Sniper.Sniper := Sniper.constructor "Owner" cfg record.

Definition isPublicKey (s : string) : bool := negb (String.eqb s "").

(** The session after the buy, watching the vault under subscription 7. *)
Definition bought : Sniper.Sniper :=
  Sniper.apply (Sniper.SetFullLpData None) session.

Definition watchingSession : Sniper.Sys := Sniper.watching bought 7.

(** Two notifications at the target price, delivered back to back; then the
    first callback is resumed up to its call of the trade executor, and then
    the second. *)
Definition backToBack : list Sniper.Step :=
  [ Sniper.Notify 50000000000; Sniper.Notify 50000000000;
    Sniper.Resume 0; Sniper.Resume 0; Sniper.Resume 0;
    Sniper.Resume 1; Sniper.Resume 1; Sniper.Resume 1 ].

(** One notification at the target price, its callback resumed up to its
    call of the trade executor. *)
Definition sellInFlight : list Sniper.Step :=
  [ Sniper.Notify 50000000000;
    Sniper.Resume 0; Sniper.Resume 0; Sniper.Resume 0 ].

(** The same callback resumed to its end. *)
Definition sellSettled : list Sniper.Step :=
  sellInFlight ++ [ Sniper.Resume 0; Sniper.Resume 0 ].

(** Collaborators that answer every call at once: the trade executor
    succeeds or fails as [swapOk] says, the owner holds the token accounts
    [held], the store has the record, and the subscription id is 7. *)
Definition oracle (swapOk : bool) (held : list string) : Sniper.Oracle :=
  fun _ X c =>
    match c in Sniper.Ext X return Result X with
    | Sniper.SwapTokens _ =>
        if swapOk then Ok "signature" else Err (Rejected "swap failed")
    | Sniper.MongoConnect => Ok tt
    | Sniper.FindOne _ => Ok record
    | Sniper.GetTokenAccountsByOwner _ _ => Ok held
    | Sniper.GetTokenAccountBalance _ => Ok "1000"
    | Sniper.OnAccountChange _ => Ok 7%N
    | Sniper.RemoveAccountChangeListener _ => Ok tt
    end.

End Fixture.

(** ** Further data: other ledgers, and the collaborators of the executor *)
Module Fixture2.
Import JS.
Local Open Scope string_scope.
Local Open Scope list_scope.

(** A ledger that knows the transaction [tx] under ["sig"], with the pool
    account [pool] and the market account [market]. *)
Definition ledger (tx : LpService.Transaction) (pool market : option Buffer)
  : LpService.Env :=
  {| LpService.USER_SOLANA_ADDRESS := Some "User";
     LpService.RAYDIUM_AMM := "RaydiumAmm";
     LpService.isPublicKey := fun s => negb (String.eqb s "");
     LpService.base58 :=
       fun b => String.append "key" (toString (N.of_nat (List.length b)));
     LpService.findProgramAddressSync :=
       fun seeds prog => Ok (String.concat "/" (prog :: seeds));
     LpService.decode := fun _ => Ok Fixture.pool;
     LpService.getTransaction :=
       fun sig => if String.eqb sig "sig" then Ok (Some tx) else Ok None;
     LpService.getAccountInfo :=
       fun key => if String.eqb key "AmmId" then Ok pool
                  else if String.eqb key "MarketId" then Ok market
                  else Ok None;
     LpService.getTokenSupply := fun _ => Ok 9%N;
     LpService.nowSeconds := 1767225600;
     LpService.nowISO := "2026-01-01T00:00:00.000Z";
     LpService.storeUp := true |}.

(** The genesis transaction of the other variant: the clock sysvar sits in
    the slot of the authority, and the accounts after it move up by one. *)
Definition clockAccounts : list string :=
  [ "RaydiumAmm"; "Token"; "AToken"; "System"; "Rent"; "AmmId";
    LpService.SYSVAR_CLOCK; "Authority"; "LpMint"; "BaseMint";
    LpService.WSOL_MINT; "BaseVault"; "QuoteVault"; "Extra12";
    "TargetOrders"; "Extra14"; "MarketProgram"; "MarketId"; "Extra17";
    "MarketBaseVault"; "MarketQuoteVault"; "MarketAuthority" ].

Definition clockTransaction : LpService.Transaction :=
  {| LpService.accountKeys := clockAccounts;
     LpService.instructions := [ Fixture.genesis ] |}.

(** A transaction with two instructions of the AMM program: the first has
    an empty payload, the second is the genesis instruction. *)
Definition twoAmmInstructions : LpService.Transaction :=
  {| LpService.accountKeys := Fixture.accounts;
     LpService.instructions :=
       [ {| LpService.programIdIndex := 0;
            LpService.accountIndexes := [];
            LpService.data := [] |};
         Fixture.genesis ] |}.

(** The executor's environment: no fee multiplier is configured, and
    [new BN] reads decimal digits. *)
Definition swapEnv : SwapCreator.Env :=
  {| SwapCreator.isPublicKey := Fixture.isPublicKey;
     SwapCreator.newBN := BigInt;
     SwapCreator.priorityFeeEnv := nan |}.

(** Collaborators of the executor that answer every call at once; no token
    account exists yet. *)
Definition exchange : SwapCreator.Oracle :=
  fun _ X c =>
    match c in SwapCreator.Call X return Result X with
    | SwapCreator.RaydiumLoad _ => Ok tt
    | SwapCreator.RefreshPools _ => Ok tt
    | SwapCreator.GetPool _ => Ok (Some tt)
    | SwapCreator.GetAssociatedAuthority _ => Ok "Authority"
    | SwapCreator.GetAccountInfo _ => Ok None
    | SwapCreator.DirectSwap _ => Ok ([SwapCreator.SdkInstruction 0], [])
    | SwapCreator.SendAndConfirmTransaction _ _ => Ok "signature"
    end.

(** The same exchange on a chain where every token account exists. *)
Definition exchangeWithAccounts : SwapCreator.Oracle :=
  fun tr X c =>
    match c in SwapCreator.Call X return Result X with
    | SwapCreator.GetAccountInfo _ => Ok (Some tt)
    | c => exchange tr _ c
    end.

(** A sell of 1000 base units and a buy for half a SOL, on the record of
    the first fixture. *)
Definition sell : SwapCreator.Request :=
  {| SwapCreator.tokenData := Fixture.record;
     SwapCreator.amountSpecified := SwapCreator.AString "1000";
     SwapCreator.swapBaseIn := true;
     SwapCreator.owner := "Owner" |}.

Definition buy : SwapCreator.Request :=
  {| SwapCreator.tokenData := Fixture.record;
     SwapCreator.amountSpecified := SwapCreator.ANumber 500000000;
     SwapCreator.swapBaseIn := false;
     SwapCreator.owner := "Owner" |}.

(** The watcher's collaborators when the store holds no record for the
    token: every other call is answered as in the first fixture. *)
Definition emptyStore : Sniper.Oracle :=
  fun tr X c =>
    match c in Sniper.Ext X return Result X with
    | Sniper.FindOne _ => Ok None
    | c' => Fixture.oracle true [] tr _ c'
    end.

(** The executor's collaborators when the SDK has no state for the pool:
    every other call is answered as by [exchange]. *)
Definition noPoolState : SwapCreator.Oracle :=
  fun tr X c =>
    match c in SwapCreator.Call X return Result X with
    | SwapCreator.GetPool _ => Ok None
    | c' => exchange tr _ c'
    end.

End Fixture2.

(** * Properties *)

(** Evaluate the left-hand side of an equation and compare. *)
Ltac run_lhs :=
  match goal with
  | |- ?l = _ => let v := eval vm_compute in l in change l with v; reflexivity
  end.

(** ** Decimal strings *)
Module JSFacts.
Import JS.

Lemma BigInt_toString (n : N) : BigInt (toString n) = Ok n.
Proof.
  unfold BigInt, toString.
  rewrite NilEmpty.usu.
  now rewrite DecimalN.Unsigned.of_to.
Qed.

Lemma toString_inj (a b : N) : toString a = toString b -> a = b.
Proof.
  intros H.
  assert (E : BigInt (toString a) = BigInt (toString b)) by now rewrite H.
  rewrite !BigInt_toString in E.
  now inversion E.
Qed.

Lemma at_cons (b : Byte.byte) (buf : Buffer) (i : nat) :
  at_ (b :: buf) (S i) = at_ buf i.
Proof. reflexivity. Qed.

Lemma byte_or0_cons (b : Byte.byte) (buf : Buffer) (i : nat) :
  byte_or0 (b :: buf) (S i) = byte_or0 buf i.
Proof. reflexivity. Qed.

Lemma readBigUInt64LE_cons (b : Byte.byte) (buf : Buffer) (off : nat) :
  readBigUInt64LE (b :: buf) (S off) = readBigUInt64LE buf off.
Proof. reflexivity. Qed.

Lemma u64_le_at_cons (b : Byte.byte) (buf : Buffer) (off : nat) :
  Spec.u64_le_at (b :: buf) (S off) = Spec.u64_le_at buf off.
Proof.
  unfold Spec.u64_le_at, subarray.
  replace (S off + 8 - S off)%nat with 8%nat by lia.
  replace (off + 8 - off)%nat with 8%nat by lia.
  reflexivity.
Qed.

(** At offset 0 the two halves assembled by [readBigUInt64LE] add up to the
    little-endian value of the first eight bytes. *)
Lemma readBigUInt64LE_head (buf : Buffer) :
  (8 <= List.length buf)%nat ->
  readBigUInt64LE buf 0 = Ok (Spec.u64_le_at buf 0).
Proof.
  intros H.
  do 8 (destruct buf as [|? buf]; [simpl in H; lia|]).
  unfold readBigUInt64LE, Spec.u64_le_at, subarray, byte_or0, at_.
  cbn [nth_error option_map Nat.add Nat.sub firstn skipn Spec.le_value].
  f_equal.
  rewrite N.shiftl_mul_pow2.
  change (2 ^ 8)%N with 256%N.
  change (2 ^ 16)%N with 65536%N.
  change (2 ^ 24)%N with 16777216%N.
  change (2 ^ 32)%N with 4294967296%N.
  lia.
Qed.

(** [readBigUInt64LE] reads the little-endian value of the eight bytes at
    [off], whenever the buffer has them. *)
Lemma readBigUInt64LE_spec (off : nat) :
  forall buf : Buffer,
    (off + 8 <= List.length buf)%nat ->
    readBigUInt64LE buf off = Ok (Spec.u64_le_at buf off).
Proof.
  induction off as [|off IH]; intros buf H.
  - now apply readBigUInt64LE_head.
  - destruct buf as [|b buf]; [simpl in H; lia|].
    rewrite readBigUInt64LE_cons, u64_le_at_cons.
    apply IH. simpl in H. lia.
Qed.

(** Outside the buffer the read raises. *)
Lemma readBigUInt64LE_short (off : nat) :
  forall buf : Buffer,
    (List.length buf < off + 8)%nat ->
    readBigUInt64LE buf off = Err RangeError.
Proof.
  intros buf H. unfold readBigUInt64LE, at_.
  destruct (nth_error buf off) eqn:E1; [|reflexivity]. cbn [option_map].
  destruct (nth_error buf (off + 7)) eqn:E2; [|reflexivity].
  assert (nth_error buf (off + 7) <> None) as Hn by congruence.
  apply nth_error_Some in Hn. lia.
Qed.

End JSFacts.

(** ** The genesis instruction decoder *)
Module DecoderFacts.
Import JS LpService JSFacts.

(** C3, as the code has it: for every payload of at least 26 bytes the decoder
    returns [initPcAmount] equal to the little-endian unsigned 64-bit integer
    at byte offsets [10,18) and [initCoinAmount] equal to the one at
    [18,26), each as its decimal string. *)
Theorem parseInit2_pc_at_10_coin_at_18 (buf : Buffer) :
  (26 <= List.length buf)%nat ->
  parseInit2 buf =
    Ok (Params.mk (toString (Spec.u64_le_at buf 10))
                  (toString (Spec.u64_le_at buf 18))).
Proof.
  intros H. unfold parseInit2.
  rewrite (readBigUInt64LE_spec 10) by lia.
  rewrite (readBigUInt64LE_spec 18) by lia.
  reflexivity.
Qed.

Lemma parseInit2_pc_at_10_coin_at_18_witness :
  (26 <= List.length Fixture.payload)%nat /\
  parseInit2 Fixture.payload =
    Ok (Params.mk (toString (Spec.u64_le_at Fixture.payload 10))
                  (toString (Spec.u64_le_at Fixture.payload 18))).
Proof.
  split.
  - vm_compute. lia.
  - apply (parseInit2_pc_at_10_coin_at_18 Fixture.payload).
    vm_compute. lia.
Defined.

(** C3 as stated fails: on a payload that holds 1 at offset 10 and 2 at
    offset 18 the decoder's [initCoinAmount] is not the integer at [10,18)
    and its [initPcAmount] is not the integer at [18,26). *)
Lemma parseInit2_coin_is_not_at_10 :
  (26 <= List.length Fixture.payload12)%nat /\
  exists p : Params.t,
    parseInit2 Fixture.payload12 = Ok p /\
    Params.initCoinAmount p
      <> toString (Spec.u64_le_at Fixture.payload12 10) /\
    Params.initPcAmount p
      <> toString (Spec.u64_le_at Fixture.payload12 18).
Proof.
  split.
  - vm_compute. lia.
  - exists (Params.mk "1" "2").
    split; [vm_compute; reflexivity|].
    split; vm_compute; intros E; discriminate E.
Qed.

(** A payload shorter than 26 bytes makes the decoder raise. *)
Lemma parseInit2_short (buf : Buffer) :
  (List.length buf < 26)%nat -> parseInit2 buf = Err RangeError.
Proof.
  intros H. unfold parseInit2.
  destruct (Nat.lt_ge_cases (List.length buf) 18) as [Hs|Hl].
  - rewrite (readBigUInt64LE_short 10) by lia. reflexivity.
  - rewrite (readBigUInt64LE_spec 10) by lia. cbn [bindR].
    rewrite (readBigUInt64LE_short 18) by lia. reflexivity.
Qed.

(** The decoder inverts an encoder that writes the two amounts after a
    ten-byte prefix. *)
Lemma le_value_le_bytes (n : nat) :
  forall v : N, (v < 256 ^ N.of_nat n)%N -> Spec.le_value (Spec.le_bytes n v) = v.
Proof.
  induction n as [|n IH]; intros v Hv.
  - simpl in *. lia.
  - cbn [Spec.le_bytes].
    assert (Hm : (v mod 256 < 256)%N) by (apply N.mod_lt; lia).
    destruct (Byte.of_N (v mod 256)) as [b|] eqn:E.
    + cbn [Spec.le_value].
      apply Byte.to_of_N in E. rewrite E.
      rewrite IH.
      * pose proof (N.div_mod v 256). lia.
      * rewrite Nat2N.inj_succ, N.pow_succ_r' in Hv.
        apply N.Div0.div_lt_upper_bound. lia.
    + exfalso.
      pose proof (Byte.to_of_N_option_map (v mod 256)) as Hb.
      rewrite E in Hb. cbn [option_map] in Hb.
      destruct (N.leb_spec (v mod 256) 255); [discriminate|lia].
Qed.

End DecoderFacts.

(** ** The decode pipeline *)
Module PipelineFacts.
Import JS LpService JSFacts.
Local Open Scope list_scope.

(** The loop handles the first instruction of the AMM program and nothing
    after it. *)
Lemma scanInstructions_find env user sig accs ixs :
  scanInstructions env user sig accs ixs =
    match find (isAmmInstruction env accs) ixs with
    | Some ix => processInstruction env user sig accs ix
    | None => ret None
    end.
Proof.
  induction ixs as [|ix ixs IH]; [reflexivity|].
  cbn [scanInstructions find].
  destruct (isAmmInstruction env accs ix); [reflexivity|exact IH].
Qed.

Ltac case_result H x :=
  let E := fresh "E" in
  destruct x eqn:E; try discriminate H.

(** What a returned record tells about the run that produced it. *)
Lemma processInstruction_record env user sig accs ix db t db' :
  processInstruction env user sig accs ix db = (Ok (Some t), db') ->
  exists params pa ms k,
    let idx := accountIndexes ix in
    let p := canonicalize (pairFields accs idx params) in
    parseInit2 (data ix) = Ok params /\
    poolAccountFields env (account accs idx 4) (account accs idx 7)
      = Ok (Some pa) /\
    serumSideAccounts env (account accs idx 16) = Ok (Some ms) /\
    Khuman (Pair.initQuote p) (Pair.initBase p)
           (quoteDecimals (td t)) (baseDecimals (td t)) = Ok k /\
    K (td t) = toString k /\
    ammId (td t) = account accs idx 4 /\
    marketId (td t) = account accs idx 16 /\
    baseMint (td t) = Pair.baseMint p /\
    quoteMint (td t) = Pair.quoteMint p /\
    baseVault (td t) = Pair.baseVault p /\
    quoteVault (td t) = Pair.quoteVault p /\
    initCoinAmount (td t) = Pair.initBase p /\
    initPcAmount (td t) = Pair.initQuote p /\
    marketEventQueue (td t) = ms_eventQueue ms /\
    marketBids (td t) = ms_bids ms /\
    marketAsks (td t) = ms_asks ms /\
    poolState (td t) =
      extractPoolState env (poolData pa) (Pair.initBase p) (Pair.initQuote p) /\
    tokenId t = N.of_nat (List.length db) /\
    db' = db ++ [td t].
Proof.
  unfold processInstruction, bind, lift, ret, try_catch, insertOne.
  intros H.
  case_result H (parseInit2 (data ix)).
  case_result H (poolAccountFields env (account accs (accountIndexes ix) 4)
                                   (account accs (accountIndexes ix) 7)).
  match type of H with context [match ?o with Some _ => _ | None => _ end] =>
    destruct o as [pa|]; [|discriminate H] end.
  case_result H (serumSideAccounts env (account accs (accountIndexes ix) 16)).
  match type of H with context [match ?o with Some _ => _ | None => _ end] =>
    destruct o as [ms|]; [|discriminate H] end.
  repeat match type of H with
         | (match ?r with Ok _ => _ | Err _ => _ end) = _ =>
             let E := fresh "E" in destruct r eqn:E; [|discriminate H]
         end.
  destruct (storeUp env); [|discriminate H].
  inversion H; subst; clear H. cbn.
  eexists _, pa, ms, _.
  repeat split; try reflexivity; eassumption.
Qed.

(** A run that returns no record leaves the collection as it was. *)
Lemma processInstruction_no_record env user sig accs ix db r db' :
  processInstruction env user sig accs ix db = (r, db') ->
  (forall t, r <> Ok (Some t)) ->
  db' = db.
Proof.
  unfold processInstruction, bind, lift, ret, try_catch, insertOne.
  intros H Hr. cbv beta iota in H.
  destruct (storeUp env).
  all: repeat match type of H with
         | (match ?x with _ => _ end) = _ =>
             destruct x;
             try (inversion H; subst; reflexivity)
         | (match ?x with _ => _ end ?d) = _ =>
             destruct x;
             try (inversion H; subst; reflexivity)
         | (if ?x then _ else _) = _ =>
             destruct x;
             try (inversion H; subst; reflexivity)
         end.
  inversion H; subst. exfalso. eapply Hr. reflexivity.
Qed.

Lemma process_record env sig db t db' :
  processRaydiumLpTransaction env sig db = (Ok (Some t), db') ->
  exists user tx ix,
    newPublicKey env (USER_SOLANA_ADDRESS env) = Ok user /\
    getTransaction env sig = Ok (Some tx) /\
    find (isAmmInstruction env (accountKeys tx)) (instructions tx) = Some ix /\
    processInstruction env user sig (accountKeys tx) ix db
      = (Ok (Some t), db').
Proof.
  unfold processRaydiumLpTransaction, bind, lift, ret, throw.
  intros H.
  destruct (falsy (USER_SOLANA_ADDRESS env)); [discriminate H|].
  destruct (newPublicKey env (USER_SOLANA_ADDRESS env)) as [user|] eqn:Eu;
    [|discriminate H].
  destruct (getTransaction env sig) as [[tx|]|] eqn:Et; try discriminate H.
  rewrite scanInstructions_find in H.
  destruct (find (isAmmInstruction env (accountKeys tx)) (instructions tx))
    as [ix|] eqn:Ef; [|discriminate H].
  now exists user, tx, ix.
Qed.

(** Nothing is persisted unless a record is returned. *)
Lemma process_no_record env sig db r db' :
  processRaydiumLpTransaction env sig db = (r, db') ->
  (forall t, r <> Ok (Some t)) ->
  db' = db.
Proof.
  unfold processRaydiumLpTransaction, bind, lift, ret, throw.
  intros H Hr.
  destruct (falsy (USER_SOLANA_ADDRESS env)); [now inversion H|].
  destruct (newPublicKey env (USER_SOLANA_ADDRESS env)) as [user|];
    [|now inversion H].
  destruct (getTransaction env sig) as [[tx|]|]; try (now inversion H).
  rewrite scanInstructions_find in H.
  destruct (find (isAmmInstruction env (accountKeys tx)) (instructions tx))
    as [ix|]; [|now inversion H].
  eapply processInstruction_no_record; eassumption.
Qed.

(** *** Canonical orientation *)

Lemma flip_involutive (p : Pair.t) : flip (flip p) = p.
Proof. destruct p; reflexivity. Qed.

Lemma strict_eq_true (x : JsString) (s : string) :
  strict_eq x s = true <-> x = Some s.
Proof.
  destruct x as [t|]; cbn [strict_eq].
  - rewrite String.eqb_eq. split; congruence.
  - split; discriminate.
Qed.

(** C6: the flip is applied exactly when the raw base mint is the WSOL
    mint; it swaps the (mint, vault, initial amount) triples pairwise, so
    flipping twice gives the record back; and after the flip the quote mint is
    the raw base mint and the base mint the raw quote mint. *)
Theorem canonicalize_swaps_iff_base_is_wsol (p : Pair.t) :
  (Pair.baseMint p = Some WSOL_MINT -> canonicalize p = flip p) /\
  (Pair.baseMint p <> Some WSOL_MINT -> canonicalize p = p) /\
  flip (flip p) = p /\
  Pair.quoteMint (flip p) = Pair.baseMint p /\
  Pair.baseMint (flip p) = Pair.quoteMint p /\
  Pair.quoteVault (flip p) = Pair.baseVault p /\
  Pair.baseVault (flip p) = Pair.quoteVault p /\
  Pair.initQuote (flip p) = Pair.initBase p /\
  Pair.initBase (flip p) = Pair.initQuote p.
Proof.
  unfold canonicalize.
  split; [|split].
  - intros H. apply strict_eq_true in H. now rewrite H.
  - intros H. destruct (strict_eq (Pair.baseMint p) WSOL_MINT) eqn:E.
    + apply strict_eq_true in E. contradiction.
    + reflexivity.
  - split; [apply flip_involutive|]. repeat split.
Qed.

(** Canonicalizing a canonical pair changes nothing, unless both mints are
    the WSOL mint. *)
Lemma canonicalize_idempotent (p : Pair.t) :
  Pair.quoteMint p <> Some WSOL_MINT ->
  canonicalize (canonicalize p) = canonicalize p.
Proof.
  intros Hq. unfold canonicalize at 2 3.
  destruct (strict_eq (Pair.baseMint p) WSOL_MINT) eqn:E.
  - unfold canonicalize. cbn [flip Pair.baseMint].
    destruct (strict_eq (Pair.quoteMint p) WSOL_MINT) eqn:E'.
    + apply strict_eq_true in E'. contradiction.
    + reflexivity.
  - unfold canonicalize. now rewrite E.
Qed.

(** The pair of a persisted record is the canonicalized raw pair of the
    instruction. *)
Lemma record_pair_is_canonical env sig db t db' :
  processRaydiumLpTransaction env sig db = (Ok (Some t), db') ->
  exists tx ix params,
    getTransaction env sig = Ok (Some tx) /\
    find (isAmmInstruction env (accountKeys tx)) (instructions tx) = Some ix /\
    parseInit2 (data ix) = Ok params /\
    Pair.mk (baseMint (td t)) (quoteMint (td t))
            (baseVault (td t)) (quoteVault (td t))
            (initCoinAmount (td t)) (initPcAmount (td t))
      = canonicalize (pairFields (accountKeys tx) (accountIndexes ix) params).
Proof.
  intros H.
  destruct (process_record _ _ _ _ _ H) as (user & tx & ix & _ & Ht & Hf & Hi).
  destruct (processInstruction_record _ _ _ _ _ _ _ _ Hi)
    as (params & pa & ms & k & Hp & _ & _ & _ & _ & _ & _ &
        Hbm & Hqm & Hbv & Hqv & Hc & Hpc & _).
  exists tx, ix, params. repeat split; try assumption.
  rewrite Hbm, Hqm, Hbv, Hqv, Hc, Hpc.
  now destruct (canonicalize (pairFields (accountKeys tx) (accountIndexes ix)
                                         params)).
Qed.

(** *** The constant product *)







(** The specification's example: 1_000_000_000 base units and
    50_000_000_000 quote units, nine decimals each, wrapped-native already on
    the quote side: no flip, K = 50, V = 50. *)
Lemma example_K_50_V_50 :
  exists t db',
    processRaydiumLpTransaction (Fixture.env Fixture.liveMarket) "sig" []
      = (Ok (Some t), db') /\
    K (td t) = "50"%string /\ V (td t) = 50%float /\
    baseMint (td t) = Some "BaseMint"%string /\
    quoteMint (td t) = Some WSOL_MINT.
Proof.
  eexists. eexists. split; [run_lhs|].
  repeat split; vm_compute; reflexivity.
Qed.

(** *** The market account *)

Lemma serumSideAccounts_unavailable env marketId marketKey :
  newPublicKey env marketId = Ok marketKey ->
  (getAccountInfo env marketKey = Ok None \/
   exists d, getAccountInfo env marketKey = Ok (Some d) /\
             (List.length d < 341)%nat) ->
  serumSideAccounts env marketId = Ok None.
Proof.
  intros Hk [Hn|(d & Hd & Hlen)]; unfold serumSideAccounts;
    rewrite Hk; cbn [bindR].
  - now rewrite Hn.
  - rewrite Hd. cbn [bindR].
    destruct (Nat.ltb_spec (List.length d) 341); [reflexivity|lia].
Qed.

(** The side accounts are read only from an account of at least 341
    bytes. *)
Lemma serumSideAccounts_some env marketId ms :
  serumSideAccounts env marketId = Ok (Some ms) ->
  exists marketKey d,
    newPublicKey env marketId = Ok marketKey /\
    getAccountInfo env marketKey = Ok (Some d) /\
    (341 <= List.length d)%nat /\
    ms_eventQueue ms = base58 env (subarray d 245 277) /\
    ms_bids ms = base58 env (subarray d 277 309) /\
    ms_asks ms = base58 env (subarray d 309 341).
Proof.
  unfold serumSideAccounts. intros H.
  destruct (newPublicKey env marketId) as [key|] eqn:Ek; [|discriminate H].
  cbn [bindR] in H.
  destruct (getAccountInfo env key) as [[d|]|] eqn:Ea; try discriminate H.
  cbn [bindR] in H.
  destruct (Nat.ltb_spec (List.length d) 341); [discriminate H|].
  inversion H; subst; clear H.
  exists key, d. repeat split; assumption.
Qed.

(** C7: when the market account of the genesis instruction is absent or
    shorter than 341 bytes, the pipeline returns no record and persists
    nothing; it returns [null] as soon as the steps before the market fetch
    succeed; and a record that is returned has its side accounts read from a
    market account of at least 341 bytes. *)
Theorem short_market_account_yields_no_record env sig db tx ix marketKey :
  getTransaction env sig = Ok (Some tx) ->
  find (isAmmInstruction env (accountKeys tx)) (instructions tx) = Some ix ->
  newPublicKey env (account (accountKeys tx) (accountIndexes ix) 16)
    = Ok marketKey ->
  (getAccountInfo env marketKey = Ok None \/
   exists d, getAccountInfo env marketKey = Ok (Some d) /\
             (List.length d < 341)%nat) ->
  (forall t, fst (processRaydiumLpTransaction env sig db) <> Ok (Some t)) /\
  snd (processRaydiumLpTransaction env sig db) = db /\
  (forall user params pa,
      falsy (USER_SOLANA_ADDRESS env) = false ->
      newPublicKey env (USER_SOLANA_ADDRESS env) = Ok user ->
      parseInit2 (data ix) = Ok params ->
      poolAccountFields env (account (accountKeys tx) (accountIndexes ix) 4)
                        (account (accountKeys tx) (accountIndexes ix) 7)
        = Ok (Some pa) ->
      processRaydiumLpTransaction env sig db = (Ok None, db)).
Proof.
  intros Ht Hf Hk Hshort.
  pose proof (serumSideAccounts_unavailable _ _ _ Hk Hshort) as Hnone.
  assert (Hno : forall t,
             fst (processRaydiumLpTransaction env sig db) <> Ok (Some t)).
  { intros t Hr.
    destruct (processRaydiumLpTransaction env sig db) as [r db'] eqn:E.
    cbn [fst] in Hr. subst r.
    destruct (process_record _ _ _ _ _ E) as (user & tx' & ix' & _ & Ht' & Hf' & Hi).
    rewrite Ht in Ht'. inversion Ht'; subst tx'.
    rewrite Hf in Hf'. inversion Hf'; subst ix'.
    destruct (processInstruction_record _ _ _ _ _ _ _ _ Hi)
      as (params & pa & ms & k & _ & _ & Hms & _).
    cbv zeta in Hms. rewrite Hnone in Hms. discriminate Hms. }
  split; [exact Hno|]. split.
  - destruct (processRaydiumLpTransaction env sig db) as [r db'] eqn:E.
    cbn [snd]. eapply process_no_record; [exact E|].
    intros t Hr. apply (Hno t). cbn [fst]. exact Hr.
  - intros user params pa Hu Hu' Hp Hpa.
    unfold processRaydiumLpTransaction, bind, lift, ret, throw.
    rewrite Hu, Hu', Ht. rewrite scanInstructions_find, Hf.
    unfold processInstruction, bind, lift, ret.
    rewrite Hp, Hpa, Hnone. reflexivity.
Qed.

Lemma short_market_account_yields_no_record_witness :
  (forall t,
      fst (processRaydiumLpTransaction (Fixture.env Fixture.shortMarket)
                                       "sig" []) <> Ok (Some t)) /\
  snd (processRaydiumLpTransaction (Fixture.env Fixture.shortMarket) "sig" [])
    = [] /\
  (forall user params pa,
      falsy (USER_SOLANA_ADDRESS (Fixture.env Fixture.shortMarket)) = false ->
      newPublicKey (Fixture.env Fixture.shortMarket)
                   (USER_SOLANA_ADDRESS (Fixture.env Fixture.shortMarket))
        = Ok user ->
      parseInit2 (data Fixture.genesis) = Ok params ->
      poolAccountFields
        (Fixture.env Fixture.shortMarket)
        (account (accountKeys Fixture.transaction)
                 (accountIndexes Fixture.genesis) 4)
        (account (accountKeys Fixture.transaction)
                 (accountIndexes Fixture.genesis) 7)
        = Ok (Some pa) ->
      processRaydiumLpTransaction (Fixture.env Fixture.shortMarket) "sig" []
        = (Ok None, [])).
Proof.
  apply (short_market_account_yields_no_record
           (Fixture.env Fixture.shortMarket) "sig" []
           Fixture.transaction Fixture.genesis "MarketId").
  - reflexivity.
  - reflexivity.
  - reflexivity.
  - right. exists (repeat Byte.x07 340). split; [reflexivity|].
    vm_compute. lia.
Defined.

(** On the fixture with a 340-byte market account the pipeline returns
    [null] and the collection stays empty. *)
Lemma example_short_market :
  processRaydiumLpTransaction (Fixture.env Fixture.shortMarket) "sig" []
    = (Ok None, []).
Proof. vm_compute. reflexivity. Qed.

(** *** Defaults of the descriptive fields *)

(** A field absent from the decoded layout takes the default, too. *)
Lemma or_default_absent (d : float) :
  or_default (Number_of_field None) d = d.
Proof. reflexivity. Qed.

Lemma or_default_zero (d : float) :
  or_default (Number_of_field (Some 0%N)) d = d.
Proof. reflexivity. Qed.

(** C9: in every persisted record, a fee numerator, status or state that the
    pool account decodes to the value 0 is replaced by its default (25, 5, 6
    and 1): [Number(x) || d] tests the decoded number for falsiness. *)
Theorem decoded_zero_is_replaced_by_default env sig db t db' :
  processRaydiumLpTransaction env sig db = (Ok (Some t), db') ->
  exists ammKey bytes poolData,
    newPublicKey env (ammId (td t)) = Ok ammKey /\
    getAccountInfo env ammKey = Ok (Some bytes) /\
    decode env bytes = Ok poolData /\
    (Layout.swapFeeNumerator poolData = Some 0%N ->
     swapFeeNumerator (poolState (td t)) = 25%float) /\
    (Layout.ownerTradeFeeNumerator poolData = Some 0%N ->
     ownerTradeFeeNumerator (poolState (td t)) = 5%float) /\
    (Layout.status poolData = Some 0%N ->
     status (poolState (td t)) = 6%float) /\
    (Layout.state poolData = Some 0%N ->
     state (poolState (td t)) = 1%float) /\
    db' = db ++ [td t].
Proof.
  intros H.
  destruct (process_record _ _ _ _ _ H) as (user & tx & ix & _ & _ & _ & Hi).
  destruct (processInstruction_record _ _ _ _ _ _ _ _ Hi)
    as (params & pa & ms & k & _ & Hpa & _ & _ & _ & Hamm & _ &
        _ & _ & _ & _ & _ & _ & _ & _ & _ & Hps & _ & Hdb).
  cbv zeta in Hpa, Hps. rewrite Hamm, Hps.
  unfold poolAccountFields in Hpa.
  destruct (newPublicKey env (account (accountKeys tx) (accountIndexes ix) 4))
    as [ammKey|] eqn:Ekey; [|discriminate Hpa].
  cbn [bindR] in Hpa.
  destruct (getAccountInfo env ammKey) as [[bytes|]|] eqn:Eacc;
    try discriminate Hpa.
  cbn [bindR] in Hpa.
  destruct (decode env bytes) as [pd|] eqn:Edec; [|discriminate Hpa].
  cbn [bindR] in Hpa.
  repeat match type of Hpa with
         | bindR ?r _ = _ => destruct r; [|discriminate Hpa]; cbn [bindR] in Hpa
         end.
  inversion Hpa; subst pa; clear Hpa.
  exists ammKey, bytes, pd. cbn [poolData].
  split; [reflexivity|]. split; [exact Eacc|]. split; [exact Edec|].
  cbn [extractPoolState swapFeeNumerator ownerTradeFeeNumerator status state].
  repeat split; try assumption; intros E; rewrite E; reflexivity.
Qed.

Lemma decoded_zero_is_replaced_by_default_witness :
  exists t db',
    processRaydiumLpTransaction (Fixture.env Fixture.liveMarket) "sig" []
      = (Ok (Some t), db') /\
    exists ammKey bytes poolData,
      newPublicKey (Fixture.env Fixture.liveMarket) (ammId (td t))
        = Ok ammKey /\
      getAccountInfo (Fixture.env Fixture.liveMarket) ammKey
        = Ok (Some bytes) /\
      decode (Fixture.env Fixture.liveMarket) bytes = Ok poolData /\
      (Layout.swapFeeNumerator poolData = Some 0%N ->
       swapFeeNumerator (poolState (td t)) = 25%float) /\
      (Layout.ownerTradeFeeNumerator poolData = Some 0%N ->
       ownerTradeFeeNumerator (poolState (td t)) = 5%float) /\
      (Layout.status poolData = Some 0%N ->
       status (poolState (td t)) = 6%float) /\
      (Layout.state poolData = Some 0%N ->
       state (poolState (td t)) = 1%float) /\
      db' = [] ++ [td t].
Proof.
  eexists. eexists. split.
  - run_lhs.
  - apply (decoded_zero_is_replaced_by_default
             (Fixture.env Fixture.liveMarket) "sig" []).
    run_lhs.
Defined.

(** On the fixture, whose pool account decodes both fee numerators, the
    status and the state to 0, the record holds 25, 5, 6 and 1. *)
Lemma example_zero_fields :
  exists t db',
    processRaydiumLpTransaction (Fixture.env Fixture.liveMarket) "sig" []
      = (Ok (Some t), db') /\
    Layout.swapFeeNumerator Fixture.pool = Some 0%N /\
    swapFeeNumerator (poolState (td t)) = 25%float /\
    ownerTradeFeeNumerator (poolState (td t)) = 5%float /\
    status (poolState (td t)) = 6%float /\
    state (poolState (td t)) = 1%float.
Proof.
  eexists. eexists. split; [run_lhs|].
  repeat split; vm_compute; reflexivity.
Qed.

End PipelineFacts.

(** ** Comparisons of doubles *)
Module FloatFacts.
Import JS.

Lemma SFcompare_antisym (x y : spec_float) :
  SFcompare y x = option_map CompOpp (SFcompare x y).
Proof.
  destruct x as [sx|sx| |sx mx ex], y as [sy|sy| |sy my ey];
    cbn [SFcompare option_map CompOpp]; try reflexivity;
    try (destruct sx; reflexivity); try (destruct sy; reflexivity);
    try (destruct sx, sy; reflexivity).
  f_equal.
  destruct sx, sy; try reflexivity.
  - rewrite (Z.compare_antisym ey ex).
    destruct (ey ?= ex)%Z; cbn [CompOpp]; try reflexivity.
    change (Pcompare my mx Eq) with (Pos.compare my mx).
    change (Pcompare mx my Eq) with (Pos.compare mx my).
    rewrite (Pos.compare_antisym my mx).
    now destruct (my ?= mx)%positive.
  - rewrite (Z.compare_antisym ey ex).
    destruct (ey ?= ex)%Z; cbn [CompOpp]; try reflexivity.
    change (Pcompare my mx Eq) with (Pos.compare my mx).
    change (Pcompare mx my Eq) with (Pos.compare mx my).
    rewrite (Pos.compare_antisym my mx).
    now destruct (my ?= mx)%positive.
Qed.

(** [x < y] excludes [x >= y]. *)
Lemma ltb_not_geb (x y : float) :
  PrimFloat.ltb x y = true -> geb x y = false.
Proof.
  unfold geb. rewrite ltb_spec, leb_spec. unfold SFltb, SFleb.
  rewrite (SFcompare_antisym (Prim2SF x) (Prim2SF y)).
  destruct (SFcompare (Prim2SF x) (Prim2SF y)) as [[| |]|];
    cbn [option_map CompOpp]; congruence.
Qed.

(** [x == y] gives [x >= y]. *)
Lemma eqb_geb (x y : float) :
  PrimFloat.eqb x y = true -> geb x y = true.
Proof.
  unfold geb. rewrite eqb_spec, leb_spec. unfold SFeqb, SFleb.
  rewrite (SFcompare_antisym (Prim2SF x) (Prim2SF y)).
  destruct (SFcompare (Prim2SF x) (Prim2SF y)) as [[| |]|];
    cbn [option_map CompOpp]; congruence.
Qed.

(** [x >= y] is [x > y] or [x == y]. *)
Lemma geb_cases (x y : float) :
  geb x y = true <->
  PrimFloat.ltb y x = true \/ PrimFloat.eqb x y = true.
Proof.
  unfold geb. rewrite ltb_spec, eqb_spec, leb_spec.
  unfold SFltb, SFeqb, SFleb.
  rewrite (SFcompare_antisym (Prim2SF y) (Prim2SF x)).
  destruct (SFcompare (Prim2SF y) (Prim2SF x)) as [[| |]|];
    cbn [option_map CompOpp]; intuition congruence.
Qed.

(** Up to [10 ** 22] the power of ten is a double: [pow10] is its exact
    value, mantissa [m] and exponent [e]. *)
Lemma pow10_exact (n : N) :
  (n <= JS.MAX_EXACT_POW10)%N ->
  exists m e,
    Prim2SF (JS.pow10 n) = S754_finite false m e /\
    (Z.pos m * 2 ^ (e + 52) = 10 ^ Z.of_N n * 2 ^ 52)%Z.
Proof.
  intros H. unfold JS.MAX_EXACT_POW10 in H.
  rewrite <- (N2Nat.id n).
  assert (Hk : (N.to_nat n < 23)%nat) by lia.
  revert Hk. generalize (N.to_nat n) as k. intros k Hk.
  do 23 (destruct k as [|k];
         [do 2 eexists; split; [run_lhs|vm_compute; reflexivity]|]).
  lia.
Qed.

End FloatFacts.

(** ** The watcher: single methods *)
Module SniperFacts.
Import JS Sniper FloatFacts.
Local Open Scope list_scope.

(** A run only appends to the events it starts from. *)
Lemma exec_extends {A} (o : Oracle) (p : Async A) :
  forall s tr, exists tr', events (exec o p s tr) = tr ++ tr'.
Proof.
  induction p as [a|e|k IH|u k IH|X c k IH|X c k IH]; intros s tr;
    cbn [exec]; cbv zeta.
  - exists []. cbn [events snd]. now rewrite app_nil_r.
  - exists []. cbn [events snd]. now rewrite app_nil_r.
  - apply IH.
  - destruct (IH (apply u s) (tr ++ [Wrote u])) as [tr' E].
    exists (Wrote u :: tr'). rewrite E. now rewrite <- app_assoc.
  - destruct (IH (o (tr ++ [Called c]) X c) s
                 (tr ++ [Called c; Settled c (o (tr ++ [Called c]) X c)]))
      as [tr' E].
    eexists. rewrite E. now rewrite <- app_assoc.
  - destruct (IH (o (tr ++ [Called c]) X c) s
                 (tr ++ [Called c; Settled c (o (tr ++ [Called c]) X c)]))
      as [tr' E].
    eexists. rewrite E. now rewrite <- app_assoc.
Qed.

(** The exit path starts with a call to the record store. *)
Lemma exit_path_calls_out isPublicKey (o : Oracle) (s : Sniper) :
  events (exec o (bind (executeSell isPublicKey) (fun _ => unsubscribe)) s [])
    <> [].
Proof.
  unfold executeSell, fetchFromMongo, read.
  cbn [bind exec].
  destruct (db s); cbn [bind exec await write settle app].
  - match goal with
    | |- events (exec o ?p ?s' (?e :: ?tr)) <> [] =>
        destruct (exec_extends o p s' (e :: tr)) as [tr' E]; rewrite E
    end.
    discriminate.
  - match goal with
    | |- events (exec o ?p ?s' (?e :: ?tr)) <> [] =>
        destruct (exec_extends o p s' (e :: tr)) as [tr' E]; rewrite E
    end.
    discriminate.
Qed.

(** C8: the target price is [V * (1 + sellTargetPrice / 100)].  For a
    session whose [quoteDecimals] is at most 22, where [10 ** quoteDecimals]
    is the exact power of ten, and whose [K] is a string of decimal digits,
    as the pipeline stores it: the price of a notification is
    [K / (lamports / 10^quoteDecimals)]; the callback enters the exit path if
    and only if that price is at or above the target (in doubles): strictly
    below, nothing at all happens; at equality the exit path runs. *)
Theorem callback_sells_iff_price_reaches_target
        isPublicKey (o : Oracle) ownerKey cfg lp (s : Sniper) (lamports : float) :
  calculatedSell (constructor ownerKey cfg lp)
    = (cfg_V cfg * (1 + cfg_sellTargetPrice cfg / 100))%float /\
  ((quoteDecimals s <= MAX_EXACT_POW10)%N ->
   isDecimal (K s) = true ->
   priceNow s lamports
     = (Number_of_string (K s) / (lamports / pow10 (quoteDecimals s)))%float /\
   (exists m e,
       Prim2SF (pow10 (quoteDecimals s)) = S754_finite false m e /\
       (Z.pos m * 2 ^ (e + 52) = 10 ^ Z.of_N (quoteDecimals s) * 2 ^ 52)%Z) /\
   (events (exec o (onAccountChange_callback isPublicKey lamports) s []) <> []
    <-> geb (priceNow s lamports) (calculatedSell s) = true) /\
   (geb (priceNow s lamports) (calculatedSell s) = true ->
    exec o (onAccountChange_callback isPublicKey lamports) s []
      = exec o (bind (executeSell isPublicKey) (fun _ => unsubscribe)) s []) /\
   (PrimFloat.ltb (priceNow s lamports) (calculatedSell s) = true ->
    exec o (onAccountChange_callback isPublicKey lamports) s []
      = (Ok tt, s, [])) /\
   (PrimFloat.eqb (priceNow s lamports) (calculatedSell s) = true ->
    events (exec o (onAccountChange_callback isPublicKey lamports) s [])
      <> [])).
Proof.
  assert (Hrun : exec o (onAccountChange_callback isPublicKey lamports) s []
                 = if geb (priceNow s lamports) (calculatedSell s)
                   then exec o (bind (executeSell isPublicKey)
                                     (fun _ => unsubscribe)) s []
                   else (Ok tt, s, [])).
  { unfold onAccountChange_callback, onChange, read. cbn [bind exec].
    now destruct (geb (priceNow s lamports) (calculatedSell s)). }
  split; [reflexivity|]. intros Hdec _.
  split; [reflexivity|].
  split; [exact (pow10_exact (quoteDecimals s) Hdec)|].
  split; [|split; [|split]].
  - rewrite Hrun.
    destruct (geb (priceNow s lamports) (calculatedSell s)).
    + split; [reflexivity|]. intros _. apply exit_path_calls_out.
    + split; [|discriminate]. intros H. now contradiction H.
  - intros H. now rewrite Hrun, H.
  - intros H. apply ltb_not_geb in H. now rewrite Hrun, H.
  - intros H. apply eqb_geb in H. rewrite Hrun, H.
    apply exit_path_calls_out.
Qed.

Lemma callback_sells_iff_price_reaches_target_witness :
  (quoteDecimals Fixture.session <= MAX_EXACT_POW10)%N /\
  isDecimal (K Fixture.session) = true /\
  calculatedSell (constructor "Owner" Fixture.cfg Fixture.record)
    = (cfg_V Fixture.cfg * (1 + cfg_sellTargetPrice Fixture.cfg / 100))%float /\
  let s := Fixture.session in
  let lamports := 50000000000%float in
  let cb := onAccountChange_callback Fixture.isPublicKey lamports in
  let o := Fixture.oracle true [] in
  priceNow s lamports
    = (Number_of_string (K s) / (lamports / pow10 (quoteDecimals s)))%float /\
  (exists m e,
      Prim2SF (pow10 (quoteDecimals s)) = S754_finite false m e /\
      (Z.pos m * 2 ^ (e + 52) = 10 ^ Z.of_N (quoteDecimals s) * 2 ^ 52)%Z) /\
  (events (exec o cb s []) <> []
   <-> geb (priceNow s lamports) (calculatedSell s) = true) /\
  (geb (priceNow s lamports) (calculatedSell s) = true ->
   exec o cb s []
     = exec o (bind (executeSell Fixture.isPublicKey) (fun _ => unsubscribe))
            s []) /\
  (PrimFloat.ltb (priceNow s lamports) (calculatedSell s) = true ->
   exec o cb s [] = (Ok tt, s, [])) /\
  (PrimFloat.eqb (priceNow s lamports) (calculatedSell s) = true ->
   events (exec o cb s []) <> []).
Proof.
  destruct (callback_sells_iff_price_reaches_target
              Fixture.isPublicKey (Fixture.oracle true []) "Owner"
              Fixture.cfg Fixture.record Fixture.session 50000000000%float)
    as [Htarget Hprice].
  split; [apply N.leb_le; reflexivity|].
  split; [reflexivity|].
  split; [exact Htarget|].
  apply Hprice; [apply N.leb_le; reflexivity|reflexivity].
Defined.

(** The specification's example: V = 50 and a target of 20 % give the
    target price 60; a notification whose price is exactly 60 enters the exit
    path and issues one sell; one whose price is just below does nothing. *)
Lemma example_target_60 :
  calculatedSell Fixture.session = 60%float /\
  priceNow Fixture.session 50000000000 = 60%float /\
  count sell_called
        (events (exec (Fixture.oracle true [])
                      (onAccountChange_callback Fixture.isPublicKey 50000000000)
                      Fixture.session [])) = 1%nat /\
  PrimFloat.ltb (priceNow Fixture.session 50000000100) 60 = true /\
  exec (Fixture.oracle true [])
       (onAccountChange_callback Fixture.isPublicKey 50000000100)
       Fixture.session []
    = (Ok tt, Fixture.session, []).
Proof. repeat split; vm_compute; reflexivity. Qed.

(** *** The buy *)

(** The revised copy of the class clears the cached record exactly once,
    whether the trade resolves or fails, and a failure still reaches the
    caller. *)
Lemma executeBuy_revised_always_releases (o : Oracle) (s : Sniper) lp :
  fullLpData s = Some lp ->
  let run := exec o Sniper2.executeBuy s [] in
  fullLpData (final run) = None /\
  count released (events run) = 1%nat /\
  count swap_called (events run) = 1%nat /\
  (forall e, (forall tr a, o tr _ (SwapTokens a) = Err e) ->
             outcome run = Err e).
Proof.
  intros Hlp. unfold Sniper2.executeBuy, read.
  cbn [bind exec]. rewrite Hlp.
  cbn [bind try_finally exec await settle write app]. cbv zeta.
  match goal with
  | |- context [o ?tr _ ?c] => destruct (o tr _ c) as [sig|e0] eqn:E
  end; cbn [settle bind try_finally exec write app outcome final events
            fst snd apply fullLpData count filter released swap_called
            is_swap List.length].
  - repeat split. intros e He. rewrite He in E. discriminate E.
  - repeat split. intros e He. rewrite He in E. now inversion E.
Qed.

(** sniper.js clears the cached record after a trade that resolves. *)
Lemma executeBuy_success_releases (o : Oracle) (s : Sniper) lp :
  fullLpData s = Some lp ->
  (forall tr a, is_ok (o tr _ (SwapTokens a)) = true) ->
  let run := exec o executeBuy s [] in
  outcome run = Ok tt /\
  fullLpData (final run) = None /\
  count released (events run) = 1%nat.
Proof.
  intros Hlp Hok. unfold executeBuy, read.
  cbn [bind exec]. rewrite Hlp.
  cbn [bind exec await settle write app]. cbv zeta.
  match goal with
  | |- context [o ?tr _ (SwapTokens ?a)] =>
      specialize (Hok tr a); destruct (o tr _ (SwapTokens a)) as [sig|e0]
  end; [|discriminate Hok].
  cbn. repeat split.
Qed.

(** C4 fails on sniper.js: when the buy trade is rejected, [executeBuy]
    passes the rejection on with the cached record still in place; the
    assignment that clears it is never reached. *)
Theorem executeBuy_failure_keeps_record (o : Oracle) (s : Sniper) lp e :
  fullLpData s = Some lp ->
  (forall tr a, o tr _ (SwapTokens a) = Err e) ->
  let run := exec o executeBuy s [] in
  outcome run = Err e /\
  fullLpData (final run) = Some lp /\
  count released (events run) = 0%nat /\
  count swap_called (events run) = 1%nat.
Proof.
  intros Hlp Hfail. unfold executeBuy, read.
  cbn [bind exec]. rewrite Hlp.
  cbn [bind exec await settle write app]. cbv zeta.
  rewrite Hfail. cbn. repeat split. exact Hlp.
Qed.

Lemma executeBuy_failure_keeps_record_witness :
  exists lp,
    fullLpData Fixture.session = Some lp /\
    let run := exec (Fixture.oracle false []) executeBuy Fixture.session [] in
    outcome run = Err (Rejected "swap failed") /\
    fullLpData (final run) = Some lp /\
    count released (events run) = 0%nat /\
    count swap_called (events run) = 1%nat.
Proof.
  eexists. split.
  - run_lhs.
  - apply (executeBuy_failure_keeps_record
             (Fixture.oracle false []) Fixture.session _
             (Rejected "swap failed")).
    + run_lhs.
    + intros tr a. reflexivity.
Defined.

(** A call with nothing cached raises before anything is called or
    written, in both copies. *)
Lemma executeBuy_without_record (o : Oracle) (s : Sniper) :
  fullLpData s = None ->
  exec o executeBuy s [] = (Err (ErrorMsg "LP data missing for buy phase"), s, [])
  /\ exec o Sniper2.executeBuy s []
     = (Err (ErrorMsg "LP data missing for buy phase"), s, []).
Proof.
  intros H. unfold executeBuy, Sniper2.executeBuy, read.
  cbn [bind exec]. now rewrite H.
Qed.

(** *** The sell *)

Lemma getTokenBalance_no_account isPublicKey (o : Oracle) (s : Sniper) mint tr :
  newPublicKey isPublicKey (baseMint s) = Ok mint ->
  (forall tr', o tr' _ (GetTokenAccountsByOwner (owner s) mint) = Ok []) ->
  exec o (getTokenBalance isPublicKey) s tr
    = (Ok (Num 0), s,
       tr ++ [Called (GetTokenAccountsByOwner (owner s) mint);
              Settled (GetTokenAccountsByOwner (owner s) mint) (Ok [])]).
Proof.
  intros Hk Hacc. unfold getTokenBalance, read, liftR.
  cbn [bind exec]. rewrite Hk.
  cbn [settle bind exec await]. cbv zeta. rewrite Hacc.
  reflexivity.
Qed.

(** C10: when the owner holds no token account for the base mint,
    [getTokenBalance] returns the number 0, and [executeSell], having
    fetched the record, calls the trade executor once, for a sell of
    amount 0. *)
Theorem sell_without_token_account_has_amount_zero
        isPublicKey (o : Oracle) (s : Sniper) mint lp :
  newPublicKey isPublicKey (baseMint s) = Ok mint ->
  (forall tr, o tr _ (GetTokenAccountsByOwner (owner s) mint) = Ok []) ->
  (forall tr, o tr _ MongoConnect = Ok tt) ->
  (forall tr, o tr _ (FindOne (tokenId s)) = Ok (Some lp)) ->
  outcome (exec o (getTokenBalance isPublicKey) s []) = Ok (Num 0) /\
  sell_amounts (events (exec o (executeSell isPublicKey) s [])) = [Num 0] /\
  count swap_called (events (exec o (executeSell isPublicKey) s [])) = 1%nat.
Proof.
  intros Hk Hacc Hconn Hfind. split.
  - now rewrite (getTokenBalance_no_account _ _ _ _ [] Hk Hacc).
  - unfold executeSell, fetchFromMongo, getTokenBalance, read, liftR.
    cbn [bind exec].
    destruct (db s); cbn [bind exec await settle write app]; cbv zeta;
      rewrite ?Hconn; cbn [bind exec await settle write app]; cbv zeta;
      rewrite Hfind; cbn [bind exec await settle write app apply baseMint
                          owner];
      rewrite Hk; cbn [settle bind exec await]; cbv zeta;
      rewrite Hacc; cbn [settle bind exec await app]; cbv zeta;
      match goal with
      | |- context [o ?tr _ (SwapTokens ?a)] =>
          destruct (o tr _ (SwapTokens a))
      end; split; reflexivity.
Qed.

Lemma sell_without_token_account_has_amount_zero_witness :
  exists lp,
    Fixture.record = Some lp /\
    outcome (exec (Fixture.oracle true [])
                  (getTokenBalance Fixture.isPublicKey) Fixture.session [])
      = Ok (Num 0) /\
    sell_amounts (events (exec (Fixture.oracle true [])
                               (executeSell Fixture.isPublicKey)
                               Fixture.session [])) = [Num 0] /\
    count swap_called (events (exec (Fixture.oracle true [])
                                    (executeSell Fixture.isPublicKey)
                                    Fixture.session [])) = 1%nat.
Proof.
  eexists. split.
  - run_lhs.
  - eapply (sell_without_token_account_has_amount_zero
              Fixture.isPublicKey (Fixture.oracle true []) Fixture.session
              "BaseMint").
    + reflexivity.
    + intros tr. reflexivity.
    + intros tr. reflexivity.
    + intros tr. run_lhs.
Defined.

(** The revised copy of the class behaves the same. *)
Lemma sell_revised_without_token_account
      isPublicKey (o : Oracle) (s : Sniper) mint lp :
  newPublicKey isPublicKey (baseMint s) = Ok mint ->
  (forall tr, o tr _ (GetTokenAccountsByOwner (owner s) mint) = Ok []) ->
  (forall tr, o tr _ MongoConnect = Ok tt) ->
  (forall tr, o tr _ (FindOne (tokenId s)) = Ok (Some lp)) ->
  sell_amounts (events (exec o (Sniper2.executeSell isPublicKey) s []))
    = [Num 0].
Proof.
  intros Hk Hacc Hconn Hfind.
  unfold Sniper2.executeSell, fetchFromMongo, getTokenBalance, read, liftR.
  cbn [bind exec].
  destruct (db s); cbn [bind exec await settle write app]; cbv zeta;
    rewrite ?Hconn; cbn [bind exec await settle write app]; cbv zeta;
    rewrite Hfind; cbn [bind exec await settle write app apply baseMint
                        owner];
    rewrite Hk; cbn [settle bind exec await]; cbv zeta;
    rewrite Hacc; cbn [settle bind exec await app]; cbv zeta;
    match goal with
    | |- context [o ?tr _ (SwapTokens ?a)] =>
        destruct (o tr _ (SwapTokens a))
    end; reflexivity.
Qed.

(** When the store has no record, sniper.js still reads the balance and
    then raises on [lpData.baseMint]: no trade is called. *)
Lemma sell_without_record isPublicKey (o : Oracle) (s : Sniper) mint :
  newPublicKey isPublicKey (baseMint s) = Ok mint ->
  (forall tr, o tr _ (GetTokenAccountsByOwner (owner s) mint) = Ok []) ->
  (forall tr, o tr _ MongoConnect = Ok tt) ->
  (forall tr, o tr _ (FindOne (tokenId s)) = Ok None) ->
  outcome (exec o (executeSell isPublicKey) s []) = Err TypeError /\
  count swap_called (events (exec o (executeSell isPublicKey) s [])) = 0%nat.
Proof.
  intros Hk Hacc Hconn Hfind.
  unfold executeSell, fetchFromMongo, getTokenBalance, read, liftR.
  cbn [bind exec].
  destruct (db s); cbn [bind exec await settle write app]; cbv zeta;
    rewrite ?Hconn; cbn [bind exec await settle write app]; cbv zeta;
    rewrite Hfind; cbn [bind exec await settle write app apply baseMint
                        owner];
    rewrite Hk; cbn [settle bind exec await]; cbv zeta;
    rewrite Hacc; cbn [settle bind exec await app]; cbv zeta;
    split; reflexivity.
Qed.

End SniperFacts.

(** ** The watcher: notifications interleaved with callbacks in flight *)
Module WatcherFacts.
Import JS Sniper FloatFacts.
Local Open Scope list_scope.

Lemma count_app (f : Event -> bool) (a b : list Event) :
  count f (a ++ b) = (count f a + count f b)%nat.
Proof. unfold count. now rewrite filter_app, length_app. Qed.

Lemma count_single (f : Event -> bool) (e : Event) :
  count f [e] = if f e then 1%nat else 0%nat.
Proof. unfold count. cbn [filter]. now destruct (f e). Qed.

Lemma count_pair (f : Event -> bool) (e e' : Event) :
  count f [e; e'] = ((if f e then 1 else 0) + (if f e' then 1 else 0))%nat.
Proof. unfold count. cbn [filter]. now destruct (f e), (f e'). Qed.

Lemma same_target_refl (s : Sniper) : same_target s s.
Proof. now repeat split. Qed.

Lemma same_target_trans (a b c : Sniper) :
  same_target a b -> same_target b c -> same_target a c.
Proof. unfold same_target. intuition congruence. Qed.

Lemma same_target_apply (u : Update) (s : Sniper) : same_target s (apply u s).
Proof. destruct u; now repeat split. Qed.

Lemma triggering_same_target (s s' : Sniper) (lamports : float) :
  same_target s s' -> triggering s' lamports = triggering s lamports.
Proof.
  intros (HK & Hq & Hc). unfold triggering, priceNow.
  now rewrite HK, Hq, Hc.
Qed.

(** *** Lists of bounds *)

Lemma Forall2_nth_error {A B} (R : A -> B -> Prop) (xs : list A) (ys : list B) :
  Forall2 R xs ys ->
  forall i y, nth_error ys i = Some y ->
              exists x, nth_error xs i = Some x /\ R x y.
Proof.
  induction 1 as [|x y xs ys HR HF IH]; intros i z Hz.
  - destruct i; discriminate Hz.
  - destruct i as [|i]; cbn [nth_error] in *.
    + inversion Hz; subst. now exists x.
    + now apply IH.
Qed.

Lemma Forall2_set_nth {A B} (R : A -> B -> Prop) (xs : list A) (ys : list B) :
  Forall2 R xs ys ->
  forall i x y, R x y -> Forall2 R (set_nth i x xs) (set_nth i y ys).
Proof.
  induction 1 as [|x0 y0 xs ys HR HF IH]; intros i x y Hxy.
  - destruct i; constructor.
  - destruct i as [|i]; cbn [set_nth]; constructor; auto.
Qed.

Lemma list_sum_set_nth (bs : list nat) :
  forall i b m, nth_error bs i = Some b ->
                (list_sum (set_nth i m bs) + b = list_sum bs + m)%nat.
Proof.
  unfold list_sum.
  induction bs as [|b0 bs IH]; intros i b m Hb.
  - destruct i; discriminate Hb.
  - destruct i as [|i]; cbn [nth_error set_nth fold_right] in *.
    + inversion Hb; subst. lia.
    + specialize (IH i b m Hb). lia.
Qed.

Lemma Forall_set_nth {A} (P : A -> Prop) (xs : list A) :
  Forall P xs -> forall i x, P x -> Forall P (set_nth i x xs).
Proof.
  induction 1 as [|x0 xs Hx HF IH]; intros i x Hp.
  - destruct i; constructor.
  - destruct i as [|i]; cbn [set_nth]; constructor; auto.
Qed.

(** *** Running a method up to its next await *)

Lemma registry_untouched {X} (c : Ext X) (r : Result X) (l : option N) :
  touches_listener c = false -> registry c r l = l.
Proof. destruct c; cbn; try reflexivity; discriminate. Qed.

Lemma sell_neither_touches {X} (c : Ext X) :
  is_sell c = true -> touches_listener c = false.
Proof. destruct c; cbn; try reflexivity; discriminate. Qed.

(** Advancing only appends to the events. *)
Lemma advance_extends (o : Oracle) (p : Async unit) :
  forall s tr l t s' tr' l',
    advance o p s tr l = (t, s', tr', l') ->
    exists ext, tr' = tr ++ ext.
Proof.
  induction p as [a|e|k IH|u k IH|X c k IH|X c k IH];
    intros s tr l t s' tr' l' Hadv; cbn [advance] in Hadv.
  - inversion Hadv; subst. exists []. now rewrite app_nil_r.
  - inversion Hadv; subst. exists []. now rewrite app_nil_r.
  - eapply IH; exact Hadv.
  - destruct (IH _ _ _ _ _ _ _ Hadv) as (ext & ->).
    eexists. now rewrite <- app_assoc.
  - cbv zeta in Hadv.
    destruct (IH _ _ _ _ _ _ _ _ Hadv) as (ext & ->).
    eexists. now rewrite <- app_assoc.
  - inversion Hadv; subst. now eexists.
Qed.


Lemma advance_bound (o : Oracle) (p : Async unit) :
  forall n s tr l t s' tr' l',
    sells_at_most n p ->
    advance o p s tr l = (t, s', tr', l') ->
    exists m,
      task_sells_at_most m t /\
      (count sell_called tr' + m <= count sell_called tr + n)%nat /\
      same_target s s'.
Proof.
  induction p as [a|e|k IH|u k IH|X c k IH|X c k IH];
    intros n s tr l t s' tr' l' Hb Hadv; cbn [advance] in Hadv.
  - inversion Hadv; subst. exists 0%nat.
    split; [exact I|split; [lia|apply same_target_refl]].
  - inversion Hadv; subst. exists 0%nat.
    split; [exact I|split; [lia|apply same_target_refl]].
  - cbn [sells_at_most] in Hb. eapply IH; [apply Hb|exact Hadv].
  - cbn [sells_at_most] in Hb.
    destruct (IH n _ _ _ _ _ _ _ Hb Hadv) as (m & Ht & Hc & Hs).
    exists m. rewrite count_app, count_single in Hc.
    cbn [sell_called] in Hc.
    split; [exact Ht|split; [lia|]].
    eapply same_target_trans; [apply same_target_apply|exact Hs].
  - cbn [sells_at_most] in Hb. cbv zeta in Hadv.
    destruct (is_sell c) eqn:Es.
    + destruct n as [|n]; [contradiction|].
      destruct (IH _ n _ _ _ _ _ _ _ (Hb _) Hadv) as (m & Ht & Hc & Hs).
      exists m. rewrite count_app, count_pair in Hc.
      cbn [sell_called] in Hc. rewrite Es in Hc.
      split; [exact Ht|split; [lia|exact Hs]].
    + destruct (IH _ n _ _ _ _ _ _ _ (Hb _) Hadv) as (m & Ht & Hc & Hs).
      exists m. rewrite count_app, count_pair in Hc.
      cbn [sell_called] in Hc. rewrite Es in Hc.
      split; [exact Ht|split; [lia|exact Hs]].
  - inversion Hadv; subst; clear Hadv.
    cbn [sells_at_most] in Hb.
    rewrite count_app, count_single. cbn [sell_called task_sells_at_most].
    destruct (is_sell c) eqn:Es.
    + destruct n as [|n]; [contradiction|].
      exists n. split; [exact Hb|split; [lia|apply same_target_refl]].
    + exists n. split; [exact Hb|split; [lia|apply same_target_refl]].
Qed.

(** *** What one invocation of the callback can sell *)

Ltac walk :=
  repeat (cbn [sells_at_most bind await settle write read liftR
               is_sell swapBaseIn];
          match goal with
          | |- True => exact I
          | |- forall _, _ => intro
          | |- context [settle ?r] => destruct r
          | |- context [match ?x with _ => _ end] => destruct x
          end).

Lemma unsubscribe_sells_nothing : sells_at_most (A := unit) 0 unsubscribe.
Proof. unfold unsubscribe, subscribed. walk. Qed.

(** The exit path of sniper.js calls the trade executor at most once. *)
Lemma exit_path_sells_at_most_once isPublicKey :
  sells_at_most 1 (bind (executeSell isPublicKey) (fun _ => unsubscribe)).
Proof.
  unfold executeSell, fetchFromMongo, getTokenBalance, unsubscribe,
    subscribed, newPublicKey.
  walk.
Qed.

(** So does the exit path of the revised copy. *)
Lemma exit_path_revised_sells_at_most_once isPublicKey :
  sells_at_most 1 (bind (Sniper2.executeSell isPublicKey)
                        (fun _ => unsubscribe)).
Proof.
  unfold Sniper2.executeSell, fetchFromMongo, getTokenBalance, unsubscribe,
    subscribed, newPublicKey.
  walk.
Qed.

Section Budget.
Variable o : Oracle.
Variable sell : Async unit.
Hypothesis sell_once : sells_at_most 1 (bind sell (fun _ => unsubscribe)).

Lemma step_within_budget (s0 : Sniper) (B : nat) (sys sys' : Sys) (st : Step) :
  within_budget s0 B sys ->
  step o (onChange sell) sys st = Some sys' ->
  within_budget s0 (B + triggers s0 [st]) sys'.
Proof.
  intros (Hs & bs & Hbs & Hc) Hstep.
  destruct st as [lamports|i]; cbn [step triggers] in *.
  - destruct (listener sys) as [id|]; [|discriminate Hstep].
    destruct (advance o (onChange sell lamports) (this sys) (trace sys)
                      (Some id)) as [[[t s1] tr1] l1] eqn:Ea.
    inversion Hstep; subst sys'; clear Hstep.
    unfold within_budget. cbn [this tasks trace].
    unfold onChange, read in Ea. cbn [bind advance] in Ea.
    fold (triggering (this sys) lamports) in Ea.
    rewrite (triggering_same_target _ _ lamports Hs) in Ea.
    destruct (triggering s0 lamports).
    + destruct (advance_bound o _ 1 _ _ _ _ _ _ _ sell_once Ea) as (m & Ht & Hm & Hst).
      split; [eapply same_target_trans; eassumption|].
      exists (bs ++ [m]). split.
      * apply Forall2_app; [exact Hbs|]. constructor; [exact Ht|constructor].
      * rewrite list_sum_app. change (list_sum [m]) with (m + 0)%nat. lia.
    + cbn [advance] in Ea. inversion Ea; subst; clear Ea.
      split; [exact Hs|].
      exists (bs ++ [0%nat]). split.
      * apply Forall2_app; [exact Hbs|]. constructor; [exact I|constructor].
      * rewrite list_sum_app. change (list_sum [0%nat]) with 0%nat. lia.
  - destruct (nth_error (tasks sys) i) as [[X c k|r]|] eqn:En;
      try discriminate Hstep.
    destruct (advance o (k (o (trace sys) X c)) (this sys)
                      (trace sys ++ [Settled c (o (trace sys) X c)])
                      (registry c (o (trace sys) X c) (listener sys)))
      as [[[t s1] tr1] l1] eqn:Ea.
    inversion Hstep; subst sys'; clear Hstep.
    unfold within_budget. cbn [this tasks trace].
    destruct (Forall2_nth_error _ _ _ Hbs _ _ En) as (b & Hb & Hk).
    cbn [task_sells_at_most] in Hk.
    destruct (advance_bound o _ b _ _ _ _ _ _ _ (Hk _) Ea) as (m & Ht & Hm & Hst).
    rewrite count_app, count_single in Hm. cbn [sell_called] in Hm.
    split; [eapply same_target_trans; eassumption|].
    exists (set_nth i m bs). split.
    + now apply Forall2_set_nth.
    + pose proof (list_sum_set_nth bs i b m Hb). lia.
Qed.

Lemma triggers_cons (s0 : Sniper) (st : Step) (sched : list Step) :
  triggers s0 (st :: sched) = (triggers s0 [st] + triggers s0 sched)%nat.
Proof. destruct st; cbn [triggers]; lia. Qed.

Lemma run_within_budget (s0 : Sniper) (sched : list Step) :
  forall B sys sys',
    within_budget s0 B sys ->
    run o (onChange sell) sys sched = Some sys' ->
    within_budget s0 (B + triggers s0 sched) sys'.
Proof.
  induction sched as [|st sched IH]; intros B sys sys' Hinv Hrun.
  - cbn in *. inversion Hrun; subst. now rewrite Nat.add_0_r.
  - cbn [run] in Hrun.
    destruct (step o (onChange sell) sys st) as [sys1|] eqn:Es;
      [|discriminate Hrun].
    rewrite triggers_cons, Nat.add_assoc.
    eapply IH; [|exact Hrun].
    eapply step_within_budget; eassumption.
Qed.

Lemma watching_within_budget (s : Sniper) (id : N) :
  within_budget s 0 (watching s id).
Proof.
  split; [apply same_target_apply|].
  exists []. split; [constructor|reflexivity].
Qed.

End Budget.

(** *** At most one sell per notification at or above the target *)

(** Under any interleaving, the sells called do not exceed the
    notifications at or above the target. *)
Lemma sells_within_triggers
      isPublicKey (o : Oracle) (s : Sniper) (id : N)
      (sched : list Step) (sys' : Sys) :
  run o (onAccountChange_callback isPublicKey) (watching s id) sched
    = Some sys' ->
  (count sell_called (trace sys') <= triggers s sched)%nat.
Proof.
  intros Hrun.
  destruct (run_within_budget o (executeSell isPublicKey)
                              (exit_path_sells_at_most_once isPublicKey)
                              s sched 0 _ _
                              (watching_within_budget s id) Hrun)
    as (_ & bs & _ & Hc).
  cbn [Nat.add] in Hc. lia.
Qed.

(** The same bound for the revised copy of the class. *)
Lemma sells_revised_bounded_by_triggering_notifications
      isPublicKey (o : Oracle) (s : Sniper) (id : N)
      (sched : list Step) (sys' : Sys) :
  run o (Sniper2.onAccountChange_callback isPublicKey) (watching s id) sched
    = Some sys' ->
  (count sell_called (trace sys') <= triggers s sched)%nat.
Proof.
  intros Hrun.
  destruct (run_within_budget o (Sniper2.executeSell isPublicKey)
              (exit_path_revised_sells_at_most_once isPublicKey)
              s sched 0 _ _ (watching_within_budget s id) Hrun)
    as (_ & bs & _ & Hc).
  cbn [Nat.add] in Hc. lia.
Qed.

(** C1 as stated fails: two notifications at the target price delivered back
    to back, before the first sell has settled, both proceed to the sell; two
    sell trades are called in one session, and neither callback has
    finished. *)
Lemma two_notifications_call_two_sells :
  exists sys',
    run (Fixture.oracle true []) (onAccountChange_callback Fixture.isPublicKey)
        Fixture.watchingSession Fixture.backToBack = Some sys' /\
    triggering Fixture.bought 50000000000 = true /\
    count sell_called (trace sys') = 2%nat /\
    count sell_settled (trace sys') = 0%nat /\
    map finished (tasks sys') = [false; false].
Proof.
  eexists. split; [run_lhs|].
  repeat split; vm_compute; reflexivity.
Qed.

(** *** The listener stays until a sell has resolved *)

Lemma sell_resolved_settled {X} (c : Ext X) (r : Result X) :
  sell_resolved (Settled c r) = is_sell c && is_ok r.
Proof. reflexivity. Qed.

Section Guarded.
Variable o : Oracle.

Lemma advance_guarded (p : Async unit) :
  forall s tr l t s' tr' l',
    guarded p ->
    advance o p s tr l = (t, s', tr', l') ->
    (1 <= count sell_resolved tr')%nat \/
    (l' = l /\ count sell_resolved tr' = count sell_resolved tr /\
     task_guarded t).
Proof.
  induction p as [a|e|k IH|u k IH|X c k IH|X c k IH];
    intros s tr l t s' tr' l' Hg Hadv; cbn [advance guarded] in *.
  - inversion Hadv; subst. right. now repeat split.
  - inversion Hadv; subst. right. now repeat split.
  - eapply IH; [apply Hg|exact Hadv].
  - destruct (IH _ _ _ _ _ _ _ Hg Hadv) as [H|(Hl & Hc & Ht)];
      [now left|right].
    rewrite count_app, count_single in Hc. cbn [sell_resolved] in Hc.
    repeat split; [exact Hl|lia|exact Ht].
  - cbv zeta in Hadv. destruct Hg as (Hto & Hk).
    rewrite (registry_untouched c _ _ Hto) in Hadv.
    destruct (is_sell c && is_ok (o (tr ++ [Called c]) X c)) eqn:Es.
    + left.
      destruct (advance_extends o _ _ _ _ _ _ _ _ Hadv) as (ext & ->).
      rewrite !count_app, count_pair. cbn [sell_resolved].
      rewrite Es. lia.
    + destruct (IH _ _ _ _ _ _ _ _ (Hk _ Es) Hadv) as [H|(Hl & Hc & Ht)];
        [now left|right].
      rewrite count_app, count_pair in Hc. cbn [sell_resolved] in Hc.
      rewrite Es in Hc. repeat split; [exact Hl|lia|exact Ht].
  - inversion Hadv; subst; clear Hadv. right.
    rewrite count_app, count_single. cbn [sell_resolved].
    repeat split; [lia|apply Hg|apply Hg].
Qed.

Variable callback : float -> Async unit.
Hypothesis callback_guarded : forall lamports, guarded (callback lamports).

Lemma step_listening (id : N) (sys sys' : Sys) (st : Step) :
  listening id sys ->
  step o callback sys st = Some sys' ->
  listening id sys'.
Proof.
  intros Hinv Hstep.
  destruct st as [lamports|i]; cbn [step] in Hstep.
  - destruct (listener sys) as [id'|] eqn:El; [|discriminate Hstep].
    destruct (advance o (callback lamports) (this sys) (trace sys) (Some id'))
      as [[[t s1] tr1] l1] eqn:Ea.
    inversion Hstep; subst sys'; clear Hstep.
    unfold listening. cbn [trace listener tasks].
    destruct (advance_extends o _ _ _ _ _ _ _ _ Ea) as (ext & Hext).
    destruct Hinv as [H|(Hl & Hts)].
    + left. rewrite Hext, count_app. lia.
    + destruct (advance_guarded _ _ _ _ _ _ _ _ (callback_guarded lamports) Ea)
        as [H|(Hl1 & _ & Ht)]; [now left|right].
      split; [congruence|].
      apply Forall_app. split; [exact Hts|]. now constructor.
  - destruct (nth_error (tasks sys) i) as [[X c k|r]|] eqn:En;
      try discriminate Hstep.
    destruct (advance o (k (o (trace sys) X c)) (this sys)
                      (trace sys ++ [Settled c (o (trace sys) X c)])
                      (registry c (o (trace sys) X c) (listener sys)))
      as [[[t s1] tr1] l1] eqn:Ea.
    inversion Hstep; subst sys'; clear Hstep.
    unfold listening. cbn [trace listener tasks].
    destruct (advance_extends o _ _ _ _ _ _ _ _ Ea) as (ext & Hext).
    destruct Hinv as [H|(Hl & Hts)].
    + left. rewrite Hext, !count_app. lia.
    + pose proof (proj1 (Forall_forall _ _) Hts _ (nth_error_In _ _ En))
        as (Hto & Hk).
      rewrite (registry_untouched c _ _ Hto) in Ea.
      destruct (is_sell c && is_ok (o (trace sys) X c)) eqn:Es.
      * left. rewrite Hext, !count_app, count_single.
        rewrite sell_resolved_settled, Es. lia.
      * destruct (advance_guarded _ _ _ _ _ _ _ _ (Hk _ Es) Ea)
          as [H|(Hl1 & _ & Ht)]; [now left|right].
        split; [congruence|].
        now apply Forall_set_nth.
Qed.

Lemma run_listening (id : N) (sched : list Step) :
  forall sys sys',
    listening id sys ->
    run o callback sys sched = Some sys' ->
    listening id sys'.
Proof.
  induction sched as [|st sched IH]; intros sys sys' Hinv Hrun.
  - cbn in Hrun. now inversion Hrun; subst.
  - cbn [run] in Hrun.
    destruct (step o callback sys st) as [sys1|] eqn:Es; [|discriminate Hrun].
    eapply IH; [|exact Hrun]. eapply step_listening; eassumption.
Qed.

End Guarded.

Lemma callback_guarded isPublicKey (lamports : float) :
  guarded (onAccountChange_callback isPublicKey lamports).
Proof.
  unfold onAccountChange_callback, onChange, executeSell, fetchFromMongo,
    getTokenBalance, unsubscribe, subscribed, read, await, write, liftR.
  repeat first
    [ progress (cbn [guarded bind settle is_sell touches_listener swapBaseIn
                     is_ok andb])
    | match goal with
      | H : true = false |- _ => discriminate H
      | H : is_ok (Ok _) = false |- _ => discriminate H
      | |- True => exact I
      | |- _ /\ _ => split
      | |- forall _, _ => intro
      | |- _ = _ => reflexivity
      | |- context [settle ?r] => destruct r
      | |- context [match ?x with _ => _ end] => destruct x
      end ].
Qed.

(** In any run, as long as no sell has resolved the listener is still
    registered, so that the next notification is delivered. *)
Lemma listener_stays_until_sell_resolves
      isPublicKey (o : Oracle) (s : Sniper) (id : N)
      (sched : list Step) (sys' : Sys) (lamports : float) :
  run o (onAccountChange_callback isPublicKey) (watching s id) sched
    = Some sys' ->
  count sell_resolved (trace sys') = 0%nat ->
  listener sys' = Some id /\
  step o (onAccountChange_callback isPublicKey) sys' (Notify lamports) <> None.
Proof.
  intros Hrun Hc.
  assert (Hl : listener sys' = Some id).
  { destruct (run_listening o (onAccountChange_callback isPublicKey)
                            (callback_guarded isPublicKey) id sched
                            (watching s id) sys') as [H|(Hl & _)].
    - right. split; [reflexivity|constructor].
    - exact Hrun.
    - lia.
    - exact Hl. }
  split; [exact Hl|].
  cbn [step]. rewrite Hl.
  destruct (advance o (onAccountChange_callback isPublicKey lamports)
                    (this sys') (trace sys') (Some id)) as [[[t s1] tr1] l1].
  discriminate.
Qed.

(** *** The order of the sell and the unsubscription *)

(** Case analysis along a run: on [this.db], on each settlement, on the key
    check, on the token accounts and on the subscription id. *)
Ltac along_run :=
  unfold read, await, write, liftR;
  repeat first
    [ progress (cbn [exec bind settle app apply db vaultSubId baseMint owner
                     tokenId]; cbv zeta)
    | match goal with
      | |- context [settle ?r] => destruct r eqn:?
      | |- context [match ?x with _ => _ end] => destruct x eqn:?
      end ].

Lemma callback_runs_exit_path isPublicKey (o : Oracle) (s : Sniper)
      (lamports : float) :
  triggering s lamports = true ->
  exec o (onAccountChange_callback isPublicKey lamports) s []
    = exec o (bind (executeSell isPublicKey) (fun _ => unsubscribe)) s [].
Proof.
  intros H. unfold onAccountChange_callback, onChange, read.
  cbn [bind exec]. fold (triggering s lamports). now rewrite H.
Qed.

(** C2, as the code has it: a notification that triggers the exit makes the
    callback await the sell first; the listener is removed only after a sell
    that resolved, and then it is, once, when [vaultSubId] is a non-zero id;
    a sell that is rejected propagates its error out of the callback, which
    then makes no call to remove the listener and leaves [vaultSubId] as it
    was; and in any run of the session, as long as no sell has resolved the
    listener is still registered and a further notification is delivered. *)
Theorem callback_unsubscribes_only_after_sell_resolves
        isPublicKey (o : Oracle) (s : Sniper) (lamports : float) :
  triggering s lamports = true ->
  let run1 := exec o (onAccountChange_callback isPublicKey lamports) s [] in
  unsubscribes_after_sell false (events run1) = true /\
  (count sell_resolved (events run1) = 1%nat ->
   subscribed (vaultSubId s) = true ->
   count remove_called (events run1) = 1%nat /\
   (outcome run1 = Ok tt -> vaultSubId (final run1) = None)) /\
  (forall e, In e (sell_rejections (events run1)) ->
             outcome run1 = Err e /\
             vaultSubId (final run1) = vaultSubId s /\
             count remove_called (events run1) = 0%nat) /\
  (forall id sched sys' next,
      run o (onAccountChange_callback isPublicKey) (watching s id) sched
        = Some sys' ->
      count sell_resolved (trace sys') = 0%nat ->
      listener sys' = Some id /\
      step o (onAccountChange_callback isPublicKey) sys' (Notify next)
        <> None).
Proof.
  intros Htrig. cbv zeta.
  split; [|split; [|split]];
    [| | |intros id sched sys' next Hrun Hc;
          exact (listener_stays_until_sell_resolves
                   isPublicKey o s id sched sys' next Hrun Hc)].
  all: rewrite (callback_runs_exit_path _ _ _ _ Htrig).
  all: unfold executeSell, fetchFromMongo, getTokenBalance, unsubscribe,
         subscribed.
  all: along_run.
  all: cbn [events outcome final fst snd unsubscribes_after_sell
            remove_called sell_resolved is_remove is_sell is_ok swapBaseIn
            andb orb count filter List.length sell_rejections rejection
            vaultSubId apply In negb].
  all: repeat split; intros; try reflexivity; try discriminate;
    try contradiction; try assumption;
    try match goal with
        | H : _ \/ False |- _ => destruct H as [->|[]]; reflexivity
        end.
Qed.

Lemma callback_unsubscribes_only_after_sell_resolves_witness :
  triggering (this Fixture.watchingSession) 50000000000 = true /\
  let s := this Fixture.watchingSession in
  let cb := onAccountChange_callback Fixture.isPublicKey in
  let run1 := exec (Fixture.oracle true []) (cb 50000000000%float) s [] in
  unsubscribes_after_sell false (events run1) = true /\
  (count sell_resolved (events run1) = 1%nat ->
   subscribed (vaultSubId s) = true ->
   count remove_called (events run1) = 1%nat /\
   (outcome run1 = Ok tt -> vaultSubId (final run1) = None)) /\
  (forall e, In e (sell_rejections (events run1)) ->
             outcome run1 = Err e /\
             vaultSubId (final run1) = vaultSubId s /\
             count remove_called (events run1) = 0%nat) /\
  (forall id sched sys' next,
      run (Fixture.oracle true []) cb (watching s id) sched = Some sys' ->
      count sell_resolved (trace sys') = 0%nat ->
      listener sys' = Some id /\
      step (Fixture.oracle true []) cb sys' (Notify next) <> None).
Proof.
  split.
  - vm_compute. reflexivity.
  - apply (callback_unsubscribes_only_after_sell_resolves
             Fixture.isPublicKey (Fixture.oracle true [])
             (this Fixture.watchingSession) 50000000000).
    vm_compute. reflexivity.
Defined.

(** C2 as stated fails on both counts.  While the sell is in flight the
    listener is still registered, no call to remove it has been made, and a
    further notification is delivered and starts a second callback.  And when
    the sell is rejected, the callback ends with that error, the listener is
    still registered and [vaultSubId] still holds the id. *)
Lemma subscription_outlives_sell :
  (exists sys sys',
      run (Fixture.oracle true []) (onAccountChange_callback Fixture.isPublicKey)
          Fixture.watchingSession Fixture.sellInFlight = Some sys /\
      count sell_called (trace sys) = 1%nat /\
      count sell_settled (trace sys) = 0%nat /\
      count remove_called (trace sys) = 0%nat /\
      listener sys = Some 7%N /\
      step (Fixture.oracle true []) (onAccountChange_callback Fixture.isPublicKey)
           sys (Notify 50000000000) = Some sys' /\
      List.length (tasks sys') = 2%nat) /\
  (exists sys,
      run (Fixture.oracle false [])
          (onAccountChange_callback Fixture.isPublicKey)
          Fixture.watchingSession (Fixture.sellInFlight ++ [Resume 0])
        = Some sys /\
      tasks sys = [Finished (Err (Rejected "swap failed"))] /\
      sell_rejections (trace sys) = [Rejected "swap failed"] /\
      count remove_called (trace sys) = 0%nat /\
      listener sys = Some 7%N /\
      vaultSubId (this sys) = Some 7%N).
Proof.
  split.
  - eexists. eexists. split; [run_lhs|].
    repeat split; vm_compute; reflexivity.
  - eexists. split; [run_lhs|].
    repeat split; vm_compute; reflexivity.
Qed.

(** Once a callback has sold and unsubscribed, the listener is gone and no
    further notification is delivered. *)
Lemma example_sell_then_unsubscribe :
  exists sys,
    run (Fixture.oracle true []) (onAccountChange_callback Fixture.isPublicKey)
        Fixture.watchingSession Fixture.sellSettled = Some sys /\
    tasks sys = [Finished (Ok tt)] /\
    count sell_called (trace sys) = 1%nat /\
    listener sys = None /\
    vaultSubId (this sys) = None /\
    step (Fixture.oracle true []) (onAccountChange_callback Fixture.isPublicKey)
         sys (Notify 50000000000) = None.
Proof.
  eexists. split; [run_lhs|].
  repeat split; vm_compute; reflexivity.
Qed.

(** [unsubscribe] with no active subscription does nothing. *)
Lemma unsubscribe_idempotent (o : Oracle) (s : Sniper) :
  subscribed (vaultSubId s) = false ->
  exec o unsubscribe s [] = (Ok tt, s, []).
Proof.
  unfold unsubscribe, subscribed, read. cbn [bind exec].
  destruct (vaultSubId s) as [id|]; [|reflexivity].
  intros H. now rewrite H.
Qed.

(** *** Serial delivery: at most one sell per session *)

Lemma forallb_finished_nth (ts : list Task) (i : nat) {X} (c : Ext X) k :
  forallb finished ts = true -> nth_error ts i <> Some (Suspended c k).
Proof.
  intros Hf Hn. apply nth_error_In in Hn.
  rewrite forallb_forall in Hf. apply Hf in Hn. discriminate Hn.
Qed.

Lemma nth_error_last_active (pre : list Task) (t : Task) (i : nat) :
  forallb finished pre = true ->
  (i = List.length pre /\ nth_error (pre ++ [t]) i = Some t) \/
  (exists r, nth_error (pre ++ [t]) i = Some (Finished r)) \/
  nth_error (pre ++ [t]) i = None.
Proof.
  intros Hf.
  destruct (Nat.lt_ge_cases i (List.length pre)) as [Hlt|Hge].
  - right. rewrite nth_error_app1 by exact Hlt.
    destruct (nth_error pre i) as [[X c k|r]|] eqn:En.
    + exfalso. exact (forallb_finished_nth pre i c k Hf En).
    + left. now exists r.
    + now right.
  - rewrite nth_error_app2 by exact Hge.
    destruct (i - List.length pre)%nat as [|j] eqn:Ej; cbn.
    + left. split; [lia|reflexivity].
    + right. right. now destruct j.
Qed.

Lemma set_nth_last {A} (pre : list A) (x y : A) :
  set_nth (List.length pre) y (pre ++ [x]) = pre ++ [y].
Proof. induction pre as [|a pre IH]; cbn; [reflexivity|now rewrite IH]. Qed.

Section Serial.
Variable o : Oracle.
Variable id : N.
Hypothesis collaborators_ok : forall tr X (c : Ext X), allowed c (o tr X c).

Lemma advance_after_sell (p : Async unit) :
  forall s tr l t s' tr' l',
    after_sell p s l ->
    advance o p s tr l = (t, s', tr', l') ->
    count sell_called tr' = count sell_called tr /\
    match t with
    | Finished _ => l' = None
    | Suspended c k =>
        forall r, allowed c r -> after_sell (k r) s' (registry c r l')
    end.
Proof.
  induction p as [a|e|k IH|u k IH|X c k IH|X c k IH];
    intros s tr l t s' tr' l' Hp Hadv; cbn [advance after_sell] in *.
  - inversion Hadv; subst. now split.
  - inversion Hadv; subst. now split.
  - eapply IH; eassumption.
  - destruct (IH _ _ _ _ _ _ _ Hp Hadv) as (Hc & Ht).
    rewrite count_app, count_single in Hc. cbn [sell_called] in Hc.
    split; [lia|exact Ht].
  - cbv zeta in Hadv. destruct Hp as (Hs & Hk).
    destruct (IH _ _ _ _ _ _ _ _ (Hk _ (collaborators_ok _ X c)) Hadv)
      as (Hc & Ht).
    rewrite count_app, count_pair in Hc. cbn [sell_called] in Hc.
    rewrite Hs in Hc. split; [lia|exact Ht].
  - inversion Hadv; subst; clear Hadv. destruct Hp as (Hs & Hk).
    rewrite count_app, count_single. cbn [sell_called]. rewrite Hs.
    split; [lia|exact Hk].
Qed.

Lemma advance_before_sell (p : Async unit) :
  forall s tr l t s' tr' l',
    before_sell id p s ->
    advance o p s tr l = (t, s', tr', l') ->
    l' = l /\
    match t with
    | Finished _ =>
        count sell_called tr' = count sell_called tr /\
        vaultSubId s' = Some id
    | Suspended c k =>
        if is_sell c
        then count sell_called tr' = S (count sell_called tr) /\
             forall r, allowed c r -> after_sell (k r) s' (Some id)
        else count sell_called tr' = count sell_called tr /\
             touches_listener c = false /\
             forall r, before_sell id (k r) s'
    end.
Proof.
  induction p as [a|e|k IH|u k IH|X c k IH|X c k IH];
    intros s tr l t s' tr' l' Hp Hadv; cbn [advance before_sell] in *.
  - inversion Hadv; subst. now repeat split.
  - inversion Hadv; subst. now repeat split.
  - eapply IH; eassumption.
  - destruct (IH _ _ _ _ _ _ _ Hp Hadv) as (Hl & Ht).
    split; [exact Hl|].
    destruct t as [Y c k'|r];
      [destruct (is_sell c)|];
      rewrite count_app, count_single in Ht; cbn [sell_called] in Ht;
      rewrite Nat.add_0_r in Ht; exact Ht.
  - contradiction.
  - inversion Hadv; subst; clear Hadv. split; [reflexivity|].
    rewrite count_app, count_single. cbn [sell_called].
    destruct (is_sell c); [split; [lia|exact Hp]|].
    destruct Hp as (Ht & Hk). rewrite Nat.add_0_r. now repeat split.
Qed.

Lemma phase_sells_at_most_once (sys : Sys) :
  phase id sys -> (count sell_called (trace sys) <= 1)%nat.
Proof. destruct 1; lia. Qed.

Variable callback : float -> Async unit.
Hypothesis callback_before_sell :
  forall s lamports, vaultSubId s = Some id ->
                     before_sell id (callback lamports) s.

(** What the phase becomes once the active invocation has advanced. *)
Lemma phase_after_advance_before (pre : list Task) (tr : list Event)
      (t : Task) (s' : Sniper) (tr' : list Event) (l' : option N) :
  forallb finished pre = true ->
  count sell_called tr = 0%nat ->
  l' = Some id /\
  match t with
  | Finished _ =>
      count sell_called tr' = count sell_called tr /\
      vaultSubId s' = Some id
  | Suspended c k =>
      if is_sell c
      then count sell_called tr' = S (count sell_called tr) /\
           forall r, allowed c r -> after_sell (k r) s' (Some id)
      else count sell_called tr' = count sell_called tr /\
           touches_listener c = false /\
           forall r, before_sell id (k r) s'
  end ->
  phase id
        {| this := s'; tasks := pre ++ [t]; trace := tr'; listener := l' |}.
Proof.
  intros Hpre Hc (Hl & Ht). subst l'.
  destruct t as [X c k|r].
  - destruct (is_sell c) eqn:Es.
    + destruct Ht as (Hc' & Hk).
      eapply (Selling id _ pre c k); cbn [this tasks trace listener];
        [reflexivity|exact Hpre|lia|].
      intros r Hr.
      rewrite (registry_untouched c r _ (sell_neither_touches c Es)).
      now apply Hk.
    + destruct Ht as (Hc' & Ht' & Hk).
      eapply (Fetching id _ pre c k); cbn [this tasks trace listener];
        try reflexivity; try assumption. lia.
  - destruct Ht as (Hc' & Hv).
    apply Armed; cbn [this tasks trace listener];
      [|lia|reflexivity|exact Hv].
    rewrite forallb_app, Hpre. reflexivity.
Qed.

Lemma step_phase (sys sys' : Sys) (st : Step) :
  phase id sys ->
  match st with
  | Notify _ => forallb finished (tasks sys) = true
  | Resume _ => True
  end ->
  step o callback sys st = Some sys' ->
  phase id sys'.
Proof.
  intros Hph Hser Hstep.
  destruct st as [lamports|i]; cbn [step] in Hstep.
  - (* a notification: the session is idle *)
    destruct Hph as [Hf Hc Hl Hv|Hf Hc Hl|pre X c k Ht Hf|pre X c k Ht Hf].
    + rewrite Hl in Hstep.
      destruct (advance o (callback lamports) (this sys) (trace sys) (Some id))
        as [[[t s1] tr1] l1] eqn:Ea.
      inversion Hstep; subst sys'; clear Hstep.
      pose proof (advance_before_sell _ _ _ _ _ _ _ _
                    (callback_before_sell _ lamports Hv) Ea) as Hb.
      apply (phase_after_advance_before (tasks sys) (trace sys));
        [exact Hf|exact Hc|exact Hb].
    + rewrite Hl in Hstep. discriminate Hstep.
    + rewrite Ht, forallb_app in Hser. cbn in Hser.
      rewrite andb_false_r in Hser. discriminate Hser.
    + rewrite Ht, forallb_app in Hser. cbn in Hser.
      rewrite andb_false_r in Hser. discriminate Hser.
  - (* a settlement: of the one invocation in flight *)
    destruct Hph as [Hf Hc Hl Hv|Hf Hc Hl
                     |pre X c k Ht Hf Hc Hl Hs Hto Hk
                     |pre X c k Ht Hf Hc Hk].
    + destruct (nth_error (tasks sys) i) as [[Y c' k'|r]|] eqn:En;
        try discriminate Hstep.
      exfalso. exact (forallb_finished_nth _ i c' k' Hf En).
    + destruct (nth_error (tasks sys) i) as [[Y c' k'|r]|] eqn:En;
        try discriminate Hstep.
      exfalso. exact (forallb_finished_nth _ i c' k' Hf En).
    + rewrite Ht in Hstep.
      destruct (nth_error_last_active pre (Suspended c k) i Hf)
        as [(-> & E)|[(r & E)|E]]; rewrite E in Hstep;
        try discriminate Hstep.
      destruct (advance o (k (o (trace sys) X c)) (this sys)
                        (trace sys ++ [Settled c (o (trace sys) X c)])
                        (registry c (o (trace sys) X c) (listener sys)))
        as [[[t s1] tr1] l1] eqn:Ea.
      inversion Hstep; subst sys'; clear Hstep.
      rewrite set_nth_last.
      rewrite (registry_untouched c _ _ Hto), Hl in Ea.
      pose proof (advance_before_sell _ _ _ _ _ _ _ _ (Hk _) Ea) as Hb.
      apply (phase_after_advance_before
               pre (trace sys ++ [Settled c (o (trace sys) X c)]));
        [exact Hf| |exact Hb].
      rewrite count_app, count_single. cbn [sell_called]. lia.
    + rewrite Ht in Hstep.
      destruct (nth_error_last_active pre (Suspended c k) i Hf)
        as [(-> & E)|[(r & E)|E]]; rewrite E in Hstep;
        try discriminate Hstep.
      destruct (advance o (k (o (trace sys) X c)) (this sys)
                        (trace sys ++ [Settled c (o (trace sys) X c)])
                        (registry c (o (trace sys) X c) (listener sys)))
        as [[[t s1] tr1] l1] eqn:Ea.
      inversion Hstep; subst sys'; clear Hstep.
      rewrite set_nth_last.
      destruct (advance_after_sell _ _ _ _ _ _ _ _
                  (Hk _ (collaborators_ok _ X c)) Ea) as (Hc' & Hfin).
      rewrite count_app, count_single in Hc'. cbn [sell_called] in Hc'.
      destruct t as [Z c2 k2|r].
      * eapply (Selling id _ pre c2 k2); cbn [this tasks trace listener];
          [reflexivity|exact Hf|lia|exact Hfin].
      * apply Closed; cbn [this tasks trace listener];
          [rewrite forallb_app, Hf; reflexivity|lia|exact Hfin].
Qed.

Lemma run_phase (sched : list Step) :
  forall sys sys',
    phase id sys ->
    serial o callback sys sched = true ->
    run o callback sys sched = Some sys' ->
    phase id sys'.
Proof.
  induction sched as [|st sched IH]; intros sys sys' Hph Hser Hrun.
  - cbn in Hrun. now inversion Hrun; subst.
  - cbn [run serial] in *.
    destruct (step o callback sys st) as [sys1|] eqn:Es; [|discriminate Hrun].
    apply andb_prop in Hser. destruct Hser as (Hst & Hrest).
    eapply IH; [|exact Hrest|exact Hrun].
    eapply step_phase; [exact Hph| |exact Es].
    destruct st; [exact Hst|exact I].
Qed.

End Serial.

Ltac walk_phase Hv Hz :=
  unfold read, await, write, liftR;
  repeat first
    [ progress (cbn [before_sell after_sell bind settle apply vaultSubId db
                     tokenId owner baseMint is_sell is_swap is_remove
                     touches_listener swapBaseIn registry orb negb];
                cbv zeta)
    | rewrite Hv
    | rewrite Hz
    | rewrite N.eqb_refl
    | match goal with
      | H : allowed _ (Err _) |- _ =>
          exfalso; specialize (H eq_refl); discriminate H
      | |- _ /\ _ => split
      | |- forall _, _ => intro
      | |- _ = _ => reflexivity
      | |- context [settle ?r] => destruct r
      | |- context [match ?x with _ => _ end] => destruct x
      end ].

(** With a non-zero subscription id in [vaultSubId], the callback of
    sniper.js either sells nothing and leaves the subscription alone, or
    sells once and then removes the listener. *)
Lemma callback_before_sell isPublicKey (id : N) (s : Sniper)
      (lamports : float) :
  id <> 0%N ->
  vaultSubId s = Some id ->
  before_sell id (onAccountChange_callback isPublicKey lamports) s.
Proof.
  intros Hid Hv. apply N.eqb_neq in Hid.
  unfold onAccountChange_callback, onChange, executeSell, fetchFromMongo,
    getTokenBalance, unsubscribe, subscribed.
  walk_phase Hv Hid.
Qed.

Lemma callback_revised_before_sell isPublicKey (id : N) (s : Sniper)
      (lamports : float) :
  id <> 0%N ->
  vaultSubId s = Some id ->
  before_sell id (Sniper2.onAccountChange_callback isPublicKey lamports) s.
Proof.
  intros Hid Hv. apply N.eqb_neq in Hid.
  unfold Sniper2.onAccountChange_callback, onChange, Sniper2.executeSell,
    fetchFromMongo, getTokenBalance, unsubscribe, subscribed.
  walk_phase Hv Hid.
Qed.

Lemma watching_armed (id : N) (s : Sniper) : phase id (watching s id).
Proof. apply Armed; reflexivity. Qed.

(** Under serial delivery, with a non-zero subscription id and
    collaborators that do not fail the trade or the removal of the listener,
    a session calls at most one sell. *)
Lemma serial_session_sells_at_most_once
      isPublicKey (o : Oracle) (s : Sniper) (id : N)
      (sched : list Step) (sys' : Sys) :
  id <> 0%N ->
  (forall tr X (c : Ext X), allowed c (o tr X c)) ->
  serial o (onAccountChange_callback isPublicKey) (watching s id) sched = true ->
  run o (onAccountChange_callback isPublicKey) (watching s id) sched
    = Some sys' ->
  (count sell_called (trace sys') <= 1)%nat.
Proof.
  intros Hid Hok Hser Hrun.
  apply (phase_sells_at_most_once id).
  eapply (run_phase o id Hok (onAccountChange_callback isPublicKey));
    [|apply watching_armed|exact Hser|exact Hrun].
  intros s0 lamports Hv. now apply callback_before_sell.
Qed.

(** C1, as the code has it: the callback has no "already triggered" guard.
    Each notification at or above the target calls at most one sell, so that
    under any interleaving of notifications and settlements a session has
    called no more sells than it was delivered such notifications.  At most
    one sell per session holds under serial delivery (each callback finishes
    before the next notification), when the subscription id is non-zero and
    neither the trade nor the removal of the listener fails: the callback
    that sold has by then removed the listener. *)
Theorem sells_bounded_by_triggering_notifications
        isPublicKey (o : Oracle) (s : Sniper) (id : N)
        (sched : list Step) (sys' : Sys) :
  run o (onAccountChange_callback isPublicKey) (watching s id) sched
    = Some sys' ->
  (count sell_called (trace sys') <= triggers s sched)%nat /\
  (id <> 0%N ->
   (forall tr X (c : Ext X), allowed c (o tr X c)) ->
   serial o (onAccountChange_callback isPublicKey) (watching s id) sched
     = true ->
   (count sell_called (trace sys') <= 1)%nat).
Proof.
  intros Hrun. split.
  - exact (sells_within_triggers isPublicKey o s id sched sys' Hrun).
  - intros Hid Hok Hser.
    exact (serial_session_sells_at_most_once
             isPublicKey o s id sched sys' Hid Hok Hser Hrun).
Qed.

Lemma sells_bounded_by_triggering_notifications_witness :
  exists sys',
    run (Fixture.oracle true []) (onAccountChange_callback Fixture.isPublicKey)
        (watching Fixture.bought 7) Fixture.sellSettled = Some sys' /\
    (count sell_called (trace sys')
       <= triggers Fixture.bought Fixture.sellSettled)%nat /\
    (7%N <> 0%N ->
     (forall tr X (c : Ext X), allowed c (Fixture.oracle true [] tr X c)) ->
     serial (Fixture.oracle true [])
            (onAccountChange_callback Fixture.isPublicKey)
            (watching Fixture.bought 7) Fixture.sellSettled = true ->
     (count sell_called (trace sys') <= 1)%nat).
Proof.
  eexists. split.
  - run_lhs.
  - apply (sells_bounded_by_triggering_notifications
             Fixture.isPublicKey (Fixture.oracle true []) Fixture.bought 7
             Fixture.sellSettled).
    run_lhs.
Defined.

(** The fixture's collaborators never fail a trade or a removal, and the
    schedule that settles one sell before anything else is serial; the
    back-to-back schedule is not. *)
Lemma example_serial_schedules :
  (forall tr X (c : Ext X), allowed c (Fixture.oracle true [] tr X c)) /\
  serial (Fixture.oracle true [])
         (onAccountChange_callback Fixture.isPublicKey)
         Fixture.watchingSession Fixture.sellSettled = true /\
  serial (Fixture.oracle true [])
         (onAccountChange_callback Fixture.isPublicKey)
         Fixture.watchingSession Fixture.backToBack = false.
Proof.
  split; [|split].
  - intros tr X c. destruct c; intros _; reflexivity.
  - vm_compute. reflexivity.
  - vm_compute. reflexivity.
Qed.

End WatcherFacts.

(** ** The decoder and the pipeline: edges and invariants *)
Module RecordFacts.
Import JS LpService JSFacts PipelineFacts.
Local Open Scope string_scope.
Local Open Scope list_scope.

(** *** The genesis payload *)

(** X1: [parseInit2] needs 26 bytes.  On a shorter buffer it raises a
    [RangeError]; on any buffer of at least 26 bytes it returns. *)
Theorem parseInit2_needs_26_bytes (buf : Buffer) :
  ((List.length buf < 26)%nat -> parseInit2 buf = Err RangeError) /\
  ((26 <= List.length buf)%nat -> exists p, parseInit2 buf = Ok p) /\
  is_ok (parseInit2 buf) = (26 <=? List.length buf)%nat.
Proof.
  assert (Hshort : (List.length buf < 26)%nat ->
                   parseInit2 buf = Err RangeError).
  { intros H. unfold parseInit2.
    destruct (Nat.lt_ge_cases (List.length buf) 18) as [Hs|Hl].
    - rewrite (readBigUInt64LE_short 10) by lia. reflexivity.
    - rewrite (readBigUInt64LE_spec 10) by lia. cbn [bindR].
      rewrite (readBigUInt64LE_short 18) by lia. reflexivity. }
  assert (Hlong : (26 <= List.length buf)%nat ->
                  exists p, parseInit2 buf = Ok p).
  { intros H. unfold parseInit2.
    rewrite (readBigUInt64LE_spec 10) by lia.
    rewrite (readBigUInt64LE_spec 18) by lia.
    cbn [bindR]. eexists. reflexivity. }
  split; [exact Hshort|]. split; [exact Hlong|].
  destruct (Nat.leb_spec 26 (List.length buf)) as [H|H].
  - destruct (Hlong H) as [p Hp]. now rewrite Hp.
  - now rewrite (Hshort H).
Qed.

(** X2: [parseInit2] reads bytes 10 to 25 and nothing else: two buffers
    that agree on these sixteen bytes decode to the same amounts, whatever
    their first ten bytes and whatever follows byte 25. *)
Theorem parseInit2_reads_only_bytes_10_to_25
        (pre pre' mid post post' : Buffer) :
  List.length pre = 10%nat ->
  List.length pre' = 10%nat ->
  List.length mid = 16%nat ->
  parseInit2 (pre ++ mid ++ post) = parseInit2 (pre' ++ mid ++ post') /\
  is_ok (parseInit2 (pre ++ mid ++ post)) = true.
Proof.
  intros Hp Hp' Hm.
  do 10 (destruct pre as [|? pre]; [discriminate Hp|]).
  destruct pre; [|discriminate Hp].
  do 10 (destruct pre' as [|? pre']; [discriminate Hp'|]).
  destruct pre'; [|discriminate Hp'].
  do 16 (destruct mid as [|? mid]; [discriminate Hm|]).
  destruct mid; [|discriminate Hm].
  unfold parseInit2, readBigUInt64LE, at_, byte_or0, at_.
  cbn [app nth_error option_map Nat.add bindR is_ok].
  split; reflexivity.
Qed.

Lemma parseInit2_reads_only_bytes_10_to_25_witness :
  parseInit2 (repeat Byte.x00 10
              ++ (Spec.le_bytes 8 1 ++ Spec.le_bytes 8 2) ++ [])
    = parseInit2 (repeat Byte.xff 10
                  ++ (Spec.le_bytes 8 1 ++ Spec.le_bytes 8 2)
                  ++ [Byte.x01; Byte.x02]) /\
  is_ok (parseInit2 (repeat Byte.x00 10
                     ++ (Spec.le_bytes 8 1 ++ Spec.le_bytes 8 2) ++ []))
    = true.
Proof.
  apply (parseInit2_reads_only_bytes_10_to_25
           (repeat Byte.x00 10) (repeat Byte.xff 10)
           (Spec.le_bytes 8 1 ++ Spec.le_bytes 8 2) [] [Byte.x01; Byte.x02]);
    reflexivity.
Defined.

(** *** What is persisted *)

(** X3: a call persists exactly the record it returns.  When it returns a
    record, the collection has grown by that record alone, appended last, and
    the returned [tokenId] is the id under which the collection holds it;
    when it returns null or raises, the collection is as it was. *)
Theorem returned_record_is_the_one_persisted env sig db r db' :
  processRaydiumLpTransaction env sig db = (r, db') ->
  match r with
  | Ok (Some t) =>
      db' = db ++ [td t] /\
      tokenId t = N.of_nat (List.length db) /\
      nth_error db' (N.to_nat (tokenId t)) = Some (td t)
  | _ => db' = db
  end.
Proof.
  intros H.
  destruct r as [[t|]|e].
  - destruct (process_record _ _ _ _ _ H) as (user & tx & ix & _ & _ & _ & Hi).
    destruct (processInstruction_record _ _ _ _ _ _ _ _ Hi)
      as (params & pa & ms & k & Hrest).
    cbv zeta in Hrest.
    repeat match type of Hrest with
           | _ /\ _ => let X := fresh in destruct Hrest as [X Hrest]
           end.
    match goal with
    | Hid : tokenId t = _ |- _ =>
        split; [exact Hrest|split; [exact Hid|]]; rewrite Hid, Hrest
    end.
    rewrite Nat2N.id, nth_error_app2 by lia.
    now rewrite Nat.sub_diag.
  - eapply process_no_record; [exact H|]. intros t Ht. discriminate Ht.
  - eapply process_no_record; [exact H|]. intros t Ht. discriminate Ht.
Qed.

Lemma returned_record_is_the_one_persisted_witness :
  exists r db',
    processRaydiumLpTransaction (Fixture.env Fixture.liveMarket) "sig" []
      = (r, db') /\
    match r with
    | Ok (Some t) =>
        db' = [] ++ [td t] /\
        tokenId t = N.of_nat (List.length (@nil LpRecord)) /\
        nth_error db' (N.to_nat (tokenId t)) = Some (td t)
    | _ => db' = []
    end.
Proof.
  eexists _, _. split.
  - run_lhs.
  - apply (returned_record_is_the_one_persisted
             (Fixture.env Fixture.liveMarket) "sig" []).
    run_lhs.
Defined.

(** *** The loop over the instructions *)

(** X4: the loop skips the instructions of other programs and is decided by
    the first instruction of the AMM program: without one the result is null;
    with one, the result is that of this instruction, and the instructions
    after it are never looked at. *)
Theorem first_amm_instruction_decides
        env user sig accs (pre : list Instruction) (ix : Instruction)
        (post : list Instruction) :
  Forall (fun i => isAmmInstruction env accs i = false) pre ->
  scanInstructions env user sig accs pre = ret None /\
  (isAmmInstruction env accs ix = true ->
   scanInstructions env user sig accs (pre ++ ix :: post)
     = processInstruction env user sig accs ix).
Proof.
  intros Hpre. induction Hpre as [|i pre Hi Hpre IH].
  - split; [reflexivity|]. intros Hix. cbn [app scanInstructions].
    now rewrite Hix.
  - destruct IH as [IH1 IH2]. split.
    + cbn [scanInstructions]. now rewrite Hi.
    + intros Hix. cbn [app scanInstructions]. rewrite Hi. now apply IH2.
Qed.

Lemma first_amm_instruction_decides_witness :
  scanInstructions (Fixture.env Fixture.liveMarket) "User" "sig"
                   Fixture.accounts
                   [ {| programIdIndex := 3; accountIndexes := [];
                        data := [] |} ]
    = ret None /\
  (isAmmInstruction (Fixture.env Fixture.liveMarket) Fixture.accounts
                    Fixture.genesis = true ->
   scanInstructions (Fixture.env Fixture.liveMarket) "User" "sig"
                    Fixture.accounts
                    ([ {| programIdIndex := 3; accountIndexes := [];
                          data := [] |} ] ++ Fixture.genesis :: [])
     = processInstruction (Fixture.env Fixture.liveMarket) "User" "sig"
                          Fixture.accounts Fixture.genesis).
Proof.
  apply (first_amm_instruction_decides
           (Fixture.env Fixture.liveMarket) "User" "sig" Fixture.accounts
           [ {| programIdIndex := 3; accountIndexes := []; data := [] |} ]
           Fixture.genesis []).
  constructor; [reflexivity|constructor].
Defined.

(** When the first instruction of the AMM program has a short payload the
    call raises, although the instruction after it is a genesis instruction
    that would decode. *)
Lemma example_first_amm_instruction_raises :
  processRaydiumLpTransaction
    (Fixture2.ledger Fixture2.twoAmmInstructions (Some [Byte.x01])
                     Fixture.liveMarket) "sig" []
    = (Err RangeError, []).
Proof. vm_compute. reflexivity. Qed.

(** X5: when the pool account of the genesis instruction does not exist,
    the call returns null and persists nothing. *)
Theorem absent_pool_account_yields_no_record
        env sig db tx ix user params ammKey :
  falsy (USER_SOLANA_ADDRESS env) = false ->
  newPublicKey env (USER_SOLANA_ADDRESS env) = Ok user ->
  getTransaction env sig = Ok (Some tx) ->
  find (isAmmInstruction env (accountKeys tx)) (instructions tx) = Some ix ->
  parseInit2 (data ix) = Ok params ->
  newPublicKey env (account (accountKeys tx) (accountIndexes ix) 4)
    = Ok ammKey ->
  getAccountInfo env ammKey = Ok None ->
  processRaydiumLpTransaction env sig db = (Ok None, db).
Proof.
  intros Hu Hu' Ht Hf Hp Hk Ha.
  unfold processRaydiumLpTransaction, bind, lift, ret, throw.
  rewrite Hu, Hu', Ht. rewrite scanInstructions_find, Hf.
  unfold processInstruction, bind, lift, ret.
  rewrite Hp. unfold poolAccountFields. rewrite Hk. cbn [bindR].
  rewrite Ha. reflexivity.
Qed.

Lemma absent_pool_account_yields_no_record_witness :
  processRaydiumLpTransaction
    (Fixture2.ledger Fixture.transaction None Fixture.liveMarket) "sig" []
    = (Ok None, []).
Proof.
  eapply (absent_pool_account_yields_no_record
            (Fixture2.ledger Fixture.transaction None Fixture.liveMarket)
            "sig" [] Fixture.transaction Fixture.genesis "User" _ "AmmId").
  - reflexivity.
  - reflexivity.
  - reflexivity.
  - reflexivity.
  - run_lhs.
  - reflexivity.
  - reflexivity.
Defined.

(** *** The fields of a returned record *)

Lemma newPublicKey_ok env v s :
  newPublicKey env v = Ok s -> v = Some s /\ isPublicKey env s = true.
Proof.
  unfold newPublicKey. destruct v as [x|]; [|discriminate].
  destruct (isPublicKey env x) eqn:E; [|discriminate].
  intros H. inversion H; subst. now split.
Qed.

(** What a returned record tells about the steps that built it. *)
Lemma processInstruction_fields env user sig accs ix db t db' :
  processInstruction env user sig accs ix db = (Ok (Some t), db') ->
  exists params pa baseKey quoteKey marketKey marketProgramKey,
    let idx := accountIndexes ix in
    let p := canonicalize (pairFields accs idx params) in
    let clock := strict_eq (account accs idx 5) SYSVAR_CLOCK in
    parseInit2 (data ix) = Ok params /\
    poolAccountFields env (account accs idx 4) (account accs idx 7)
      = Ok (Some pa) /\
    newPublicKey env (Pair.baseMint p) = Ok baseKey /\
    newPublicKey env (Pair.quoteMint p) = Ok quoteKey /\
    newPublicKey env (account accs idx 16) = Ok marketKey /\
    newPublicKey env (account accs idx 15) = Ok marketProgramKey /\
    findProgramAddressSync env [marketKey] marketProgramKey
      = Ok (vaultOwner (td t)) /\
    getAssociatedTokenAddress env user baseKey
      = Ok (userBaseTokenAccount (td t)) /\
    getAssociatedTokenAddress env user quoteKey
      = Ok (userQuoteTokenAccount (td t)) /\
    ammId (td t) = account accs idx 4 /\
    lpMint (td t) = account accs idx 7 /\
    ammAuthority (td t)
      = (if clock then account accs idx 6 else account accs idx 5) /\
    ammOpenOrders (td t)
      = (if clock then account accs idx 7 else account accs idx 6) /\
    baseMint (td t) = Pair.baseMint p /\
    quoteMint (td t) = Pair.quoteMint p /\
    initPcAmount (td t) = Pair.initQuote p /\
    targetOrders (td t) = account accs idx 13 /\
    marketProgramId (td t) = account accs idx 15 /\
    marketId (td t) = account accs idx 16 /\
    marketBaseVault (td t) = account accs idx 18 /\
    marketQuoteVault (td t) = account accs idx 19 /\
    marketAuthority (td t)
      = resolveMarketAuthority env (account accs idx 20)
                               (account accs idx 16) (account accs idx 15)
                               (vaultOwner (td t)) /\
    isWSOLSwap (td t) = strict_eq (Pair.quoteMint p) WSOL_MINT /\
    wrappedSOLAmount (td t)
      = (if strict_eq (Pair.quoteMint p) WSOL_MINT
         then Some (Pair.initQuote p) else None) /\
    withdrawQueue (td t) = pa_withdrawQueue pa /\
    lpVault (td t) = pa_lpVault pa /\
    userSolAddress (td t) = user.
Proof.
  unfold processInstruction, bind, lift, ret, try_catch, insertOne.
  intros H.
  case_result H (parseInit2 (data ix)).
  case_result H (poolAccountFields env (account accs (accountIndexes ix) 4)
                                   (account accs (accountIndexes ix) 7)).
  match type of H with context [match ?o with Some _ => _ | None => _ end] =>
    destruct o as [pa|]; [|discriminate H] end.
  case_result H (serumSideAccounts env (account accs (accountIndexes ix) 16)).
  match type of H with context [match ?o with Some _ => _ | None => _ end] =>
    destruct o as [ms|]; [|discriminate H] end.
  repeat match type of H with
         | (match ?r with Ok _ => _ | Err _ => _ end) = _ =>
             let E := fresh "E" in destruct r eqn:E; [|discriminate H]
         end.
  destruct (storeUp env); [|discriminate H].
  inversion H; subst; clear H. cbn.
  eexists _, pa, _, _, _, _.
  repeat split; try reflexivity; eassumption.
Qed.

Lemma poolAccountFields_keys env ammId lpMint pa :
  poolAccountFields env ammId lpMint = Ok (Some pa) ->
  (exists s, ammId = Some s /\ isPublicKey env s = true) /\
  (exists s, lpMint = Some s /\ isPublicKey env s = true) /\
  isPublicKey env (pa_withdrawQueue pa) = true /\
  isPublicKey env (pa_lpVault pa) = true.
Proof.
  unfold poolAccountFields. intros H.
  destruct (newPublicKey env ammId) as [ammKey|] eqn:Ea; [|discriminate H].
  cbn [bindR] in H.
  destruct (getAccountInfo env ammKey) as [[bytes|]|]; try discriminate H.
  cbn [bindR] in H.
  destruct (decode env bytes) as [pd|]; [|discriminate H].
  cbn [bindR] in H.
  destruct (newPublicKey env lpMint) as [lpKey|] eqn:El; [|discriminate H].
  cbn [bindR] in H.
  destruct (getTokenSupply env lpKey); [|discriminate H].
  cbn [bindR] in H.
  destruct (newPublicKey env (Layout.withdrawQueue pd)) as [wq|] eqn:Ew;
    [|discriminate H].
  cbn [bindR] in H.
  destruct (newPublicKey env (Layout.lpVault pd)) as [lv|] eqn:Ev;
    [|discriminate H].
  cbn [bindR] in H. inversion H; subst; clear H.
  cbn [pa_withdrawQueue pa_lpVault].
  apply newPublicKey_ok in Ea, El, Ew, Ev.
  split; [exists ammKey; exact Ea|].
  split; [exists lpKey; exact El|].
  split; [apply Ew|apply Ev].
Qed.

(** X6: the accounts of a returned record follow the variant of the genesis
    instruction.  The pool id is slot 4 and the LP mint slot 7 in both
    variants.  When slot 5 holds the clock sysvar, the authority is slot 6
    and the open-orders account is slot 7, the slot of the LP mint;
    otherwise the authority is slot 5 and the open-orders account slot 6.
    Target orders, market program, market and the market vaults are slots
    13, 15, 16, 18 and 19. *)
Theorem record_accounts_follow_the_variant env sig db t db' :
  processRaydiumLpTransaction env sig db = (Ok (Some t), db') ->
  exists tx ix,
    getTransaction env sig = Ok (Some tx) /\
    find (isAmmInstruction env (accountKeys tx)) (instructions tx) = Some ix /\
    let slot := account (accountKeys tx) (accountIndexes ix) in
    ammId (td t) = slot 4%nat /\
    lpMint (td t) = slot 7%nat /\
    (slot 5%nat = Some SYSVAR_CLOCK ->
     ammAuthority (td t) = slot 6%nat /\
     ammOpenOrders (td t) = slot 7%nat /\
     ammOpenOrders (td t) = lpMint (td t)) /\
    (slot 5%nat <> Some SYSVAR_CLOCK ->
     ammAuthority (td t) = slot 5%nat /\
     ammOpenOrders (td t) = slot 6%nat) /\
    targetOrders (td t) = slot 13%nat /\
    marketProgramId (td t) = slot 15%nat /\
    marketId (td t) = slot 16%nat /\
    marketBaseVault (td t) = slot 18%nat /\
    marketQuoteVault (td t) = slot 19%nat.
Proof.
  intros H.
  destruct (process_record _ _ _ _ _ H) as (user & tx & ix & _ & Ht & Hf & Hi).
  destruct (processInstruction_fields _ _ _ _ _ _ _ _ Hi)
    as (params & pa & bk & qk & mk & mpk & _ & _ & _ & _ & _ & _ & _ & _ & _ &
        Hamm & Hlp & Hauth & Hoo & _ & _ & _ & Hto & Hmp & Hmi & Hmb & Hmq &
        _).
  exists tx, ix. split; [exact Ht|]. split; [exact Hf|]. cbv zeta.
  split; [exact Hamm|]. split; [exact Hlp|].
  split; [|split].
  - intros Hc. apply strict_eq_true in Hc. rewrite Hc in Hauth, Hoo.
    split; [exact Hauth|]. split; [exact Hoo|]. now rewrite Hoo, Hlp.
  - intros Hc.
    destruct (strict_eq (account (accountKeys tx) (accountIndexes ix) 5)
                        SYSVAR_CLOCK) eqn:E.
    + apply strict_eq_true in E. contradiction.
    + now split.
  - repeat split; assumption.
Qed.

Lemma record_accounts_follow_the_variant_witness :
  exists t db' tx ix,
    processRaydiumLpTransaction
      (Fixture2.ledger Fixture2.clockTransaction (Some [Byte.x01])
                       Fixture.liveMarket) "sig" []
      = (Ok (Some t), db') /\
    getTransaction
      (Fixture2.ledger Fixture2.clockTransaction (Some [Byte.x01])
                       Fixture.liveMarket) "sig" = Ok (Some tx) /\
    find (isAmmInstruction
            (Fixture2.ledger Fixture2.clockTransaction (Some [Byte.x01])
                             Fixture.liveMarket) (accountKeys tx))
         (instructions tx) = Some ix /\
    let slot := account (accountKeys tx) (accountIndexes ix) in
    ammId (td t) = slot 4%nat /\
    lpMint (td t) = slot 7%nat /\
    (slot 5%nat = Some SYSVAR_CLOCK ->
     ammAuthority (td t) = slot 6%nat /\
     ammOpenOrders (td t) = slot 7%nat /\
     ammOpenOrders (td t) = lpMint (td t)) /\
    (slot 5%nat <> Some SYSVAR_CLOCK ->
     ammAuthority (td t) = slot 5%nat /\
     ammOpenOrders (td t) = slot 6%nat) /\
    targetOrders (td t) = slot 13%nat /\
    marketProgramId (td t) = slot 15%nat /\
    marketId (td t) = slot 16%nat /\
    marketBaseVault (td t) = slot 18%nat /\
    marketQuoteVault (td t) = slot 19%nat.
Proof.
  eexists _, _.
  assert (Hrun : processRaydiumLpTransaction
                   (Fixture2.ledger Fixture2.clockTransaction
                                    (Some [Byte.x01]) Fixture.liveMarket)
                   "sig" [] = (Ok (Some _), _)) by run_lhs.
  destruct (record_accounts_follow_the_variant _ _ _ _ _ Hrun)
    as (tx & ix & Hrest).
  exists tx, ix. split; [exact Hrun|exact Hrest].
Defined.

(** On the ledger whose genesis instruction is of the clock variant, the
    record's authority is the account after the sysvar and its open-orders
    account is the LP mint. *)
Lemma example_clock_variant :
  exists t db',
    processRaydiumLpTransaction
      (Fixture2.ledger Fixture2.clockTransaction (Some [Byte.x01])
                       Fixture.liveMarket) "sig" []
      = (Ok (Some t), db') /\
    ammAuthority (td t) = Some "Authority" /\
    ammOpenOrders (td t) = Some "LpMint" /\
    lpMint (td t) = Some "LpMint".
Proof.
  eexists _, _. split; [run_lhs|]. repeat split.
Qed.

(** X7: in a returned record, [isWSOLSwap] holds exactly when the quote
    mint is the wrapped-SOL mint; [wrappedSOLAmount] is the initial quote
    amount then and undefined otherwise; and the base mint is the wrapped-SOL
    mint only if the quote mint is it too. *)
Theorem record_wraps_sol_iff_quote_is_wsol env sig db t db' :
  processRaydiumLpTransaction env sig db = (Ok (Some t), db') ->
  (isWSOLSwap (td t) = true <-> quoteMint (td t) = Some WSOL_MINT) /\
  wrappedSOLAmount (td t)
    = (if isWSOLSwap (td t) then Some (initPcAmount (td t)) else None) /\
  (baseMint (td t) = Some WSOL_MINT -> quoteMint (td t) = Some WSOL_MINT).
Proof.
  intros H.
  destruct (process_record _ _ _ _ _ H) as (user & tx & ix & _ & Ht & Hf & Hi).
  destruct (processInstruction_fields _ _ _ _ _ _ _ _ Hi)
    as (params & pa & bk & qk & mk & mpk & _ & _ & _ & _ & _ & _ & _ & _ & _ &
        _ & _ & _ & _ & Hb & Hq & Hpc & _ & _ & _ & _ & _ & _ & Hw & Hws & _).
  cbv zeta in *.
  split; [|split].
  - rewrite Hw, Hq. apply strict_eq_true.
  - now rewrite Hws, Hw, Hpc.
  - rewrite Hb, Hq. unfold canonicalize.
    destruct (strict_eq (Pair.baseMint
                           (pairFields (accountKeys tx) (accountIndexes ix)
                                       params)) WSOL_MINT) eqn:E.
    + intros _. apply strict_eq_true in E. exact E.
    + intros Hc. apply strict_eq_true in Hc. rewrite Hc in E. discriminate E.
Qed.

Lemma record_wraps_sol_iff_quote_is_wsol_witness :
  exists t db',
    processRaydiumLpTransaction (Fixture.env Fixture.liveMarket) "sig" []
      = (Ok (Some t), db') /\
    (isWSOLSwap (td t) = true <-> quoteMint (td t) = Some WSOL_MINT) /\
    wrappedSOLAmount (td t)
      = (if isWSOLSwap (td t) then Some (initPcAmount (td t)) else None) /\
    (baseMint (td t) = Some WSOL_MINT -> quoteMint (td t) = Some WSOL_MINT).
Proof.
  eexists _, _. split.
  - run_lhs.
  - eapply (record_wraps_sol_iff_quote_is_wsol
              (Fixture.env Fixture.liveMarket) "sig" []).
    run_lhs.
Defined.

(** X8: the addresses the pipeline passes through [new PublicKey] are valid
    in every returned record: pool id, LP mint, both mints, market and market
    program are defined and valid keys, and so are the withdraw queue, the LP
    vault and the user's address. *)
Theorem record_addresses_are_valid_keys env sig db t db' :
  processRaydiumLpTransaction env sig db = (Ok (Some t), db') ->
  Forall (fun v => exists s, v = Some s /\ isPublicKey env s = true)
         [ ammId (td t); lpMint (td t); baseMint (td t); quoteMint (td t);
           marketId (td t); marketProgramId (td t) ] /\
  Forall (fun s => isPublicKey env s = true)
         [ withdrawQueue (td t); lpVault (td t); userSolAddress (td t) ].
Proof.
  intros H.
  destruct (process_record _ _ _ _ _ H) as (user & tx & ix & Hu & Ht & Hf & Hi).
  destruct (processInstruction_fields _ _ _ _ _ _ _ _ Hi)
    as (params & pa & bk & qk & mk & mpk & _ & Hpa & Hbk & Hqk & Hmk & Hmpk &
        _ & _ & _ & Hamm & Hlp & _ & _ & Hb & Hq & _ & _ & Hmp & Hmi & _ & _ &
        _ & _ & _ & Hwq & Hlv & Hus).
  cbv zeta in *.
  destruct (poolAccountFields_keys _ _ _ _ Hpa) as (Ka & Kl & Kw & Kv).
  apply newPublicKey_ok in Hbk, Hqk, Hmk, Hmpk, Hu.
  split.
  - repeat constructor.
    + now rewrite Hamm.
    + now rewrite Hlp.
    + rewrite Hb. eexists. exact Hbk.
    + rewrite Hq. eexists. exact Hqk.
    + rewrite Hmi. eexists. exact Hmk.
    + rewrite Hmp. eexists. exact Hmpk.
  - repeat constructor.
    + now rewrite Hwq.
    + now rewrite Hlv.
    + rewrite Hus. apply Hu.
Qed.

Lemma record_addresses_are_valid_keys_witness :
  exists t db',
    processRaydiumLpTransaction (Fixture.env Fixture.liveMarket) "sig" []
      = (Ok (Some t), db') /\
    Forall (fun v => exists s,
                v = Some s /\
                isPublicKey (Fixture.env Fixture.liveMarket) s = true)
           [ ammId (td t); lpMint (td t); baseMint (td t); quoteMint (td t);
             marketId (td t); marketProgramId (td t) ] /\
    Forall (fun s => isPublicKey (Fixture.env Fixture.liveMarket) s = true)
           [ withdrawQueue (td t); lpVault (td t); userSolAddress (td t) ].
Proof.
  eexists _, _. split.
  - run_lhs.
  - eapply (record_addresses_are_valid_keys
              (Fixture.env Fixture.liveMarket) "sig" []).
    run_lhs.
Defined.

(** X9: the market authority of a returned record is never undefined.  It
    is the account of slot 20 when that is a non-empty string other than
    "undefined"; otherwise it is the program address derived from the market
    and the market program, which is the record's [vaultOwner]: the fallback
    of the [catch] block is never needed. *)
Theorem record_market_authority_is_defined env sig db t db' :
  processRaydiumLpTransaction env sig db = (Ok (Some t), db') ->
  exists tx ix,
    getTransaction env sig = Ok (Some tx) /\
    find (isAmmInstruction env (accountKeys tx)) (instructions tx) = Some ix /\
    let given := account (accountKeys tx) (accountIndexes ix) 20 in
    marketAuthority (td t)
      = (if falsy given || strict_eq given "undefined"
         then Some (vaultOwner (td t)) else given) /\
    marketAuthority (td t) <> None.
Proof.
  intros H.
  destruct (process_record _ _ _ _ _ H) as (user & tx & ix & _ & Ht & Hf & Hi).
  destruct (processInstruction_fields _ _ _ _ _ _ _ _ Hi)
    as (params & pa & bk & qk & mk & mpk & _ & _ & _ & _ & Hmk & Hmpk & Hvo &
        _ & _ & _ & _ & _ & _ & _ & _ & _ & _ & _ & _ & _ & _ & Hma & _).
  cbv zeta in *.
  exists tx, ix. split; [exact Ht|]. split; [exact Hf|].
  assert (E : marketAuthority (td t)
              = (if falsy (account (accountKeys tx) (accountIndexes ix) 20)
                    || strict_eq (account (accountKeys tx)
                                          (accountIndexes ix) 20) "undefined"
                 then Some (vaultOwner (td t))
                 else account (accountKeys tx) (accountIndexes ix) 20)).
  { rewrite Hma. unfold resolveMarketAuthority.
    rewrite Hmk, Hmpk. cbn [bindR]. now rewrite Hvo. }
  split; [exact E|]. rewrite E.
  destruct (account (accountKeys tx) (accountIndexes ix) 20) as [s|];
    cbn [falsy orb]; [|discriminate].
  destruct (String.eqb s "" || strict_eq (Some s) "undefined"); discriminate.
Qed.

Lemma record_market_authority_is_defined_witness :
  exists t db' tx ix,
    processRaydiumLpTransaction (Fixture.env Fixture.liveMarket) "sig" []
      = (Ok (Some t), db') /\
    getTransaction (Fixture.env Fixture.liveMarket) "sig" = Ok (Some tx) /\
    find (isAmmInstruction (Fixture.env Fixture.liveMarket) (accountKeys tx))
         (instructions tx) = Some ix /\
    let given := account (accountKeys tx) (accountIndexes ix) 20 in
    marketAuthority (td t)
      = (if falsy given || strict_eq given "undefined"
         then Some (vaultOwner (td t)) else given) /\
    marketAuthority (td t) <> None.
Proof.
  eexists _, _.
  assert (Hrun : processRaydiumLpTransaction
                   (Fixture.env Fixture.liveMarket) "sig" []
                 = (Ok (Some _), _)) by run_lhs.
  destruct (record_market_authority_is_defined _ _ _ _ _ Hrun)
    as (tx & ix & Hrest).
  exists tx, ix. split; [exact Hrun|exact Hrest].
Defined.

(** X28: the user's token accounts of a returned record are the associated
    token addresses of the user for the record's own base and quote mints,
    that is, for the mints after the flip: each is the program address
    derived from the user's address, the token program and the mint under the
    associated-token program. *)
Theorem record_user_accounts_follow_the_mints env sig db t db' :
  processRaydiumLpTransaction env sig db = (Ok (Some t), db') ->
  exists user base quote,
    USER_SOLANA_ADDRESS env = Some user /\
    userSolAddress (td t) = user /\
    baseMint (td t) = Some base /\
    quoteMint (td t) = Some quote /\
    findProgramAddressSync env [user; TOKEN_PROGRAM_ID; base]
                           ASSOCIATED_TOKEN_PROGRAM_ID
      = Ok (userBaseTokenAccount (td t)) /\
    findProgramAddressSync env [user; TOKEN_PROGRAM_ID; quote]
                           ASSOCIATED_TOKEN_PROGRAM_ID
      = Ok (userQuoteTokenAccount (td t)).
Proof.
  intros H.
  destruct (process_record _ _ _ _ _ H) as (user & tx & ix & Hu & Ht & Hf & Hi).
  destruct (processInstruction_fields _ _ _ _ _ _ _ _ Hi)
    as (params & pa & bk & qk & mk & mpk & _ & _ & Hbk & Hqk & _ & _ & _ &
        Hub & Huq & _ & _ & _ & _ & Hb & Hq & _ & _ & _ & _ & _ & _ & _ & _ &
        _ & _ & _ & Hus).
  cbv zeta in *.
  apply newPublicKey_ok in Hbk, Hqk, Hu.
  exists user, bk, qk.
  split; [apply Hu|]. split; [exact Hus|].
  split; [rewrite Hb; apply Hbk|]. split; [rewrite Hq; apply Hqk|].
  split; [exact Hub|exact Huq].
Qed.

Lemma record_user_accounts_follow_the_mints_witness :
  exists t db' user base quote,
    processRaydiumLpTransaction (Fixture.env Fixture.liveMarket) "sig" []
      = (Ok (Some t), db') /\
    USER_SOLANA_ADDRESS (Fixture.env Fixture.liveMarket) = Some user /\
    userSolAddress (td t) = user /\
    baseMint (td t) = Some base /\
    quoteMint (td t) = Some quote /\
    findProgramAddressSync (Fixture.env Fixture.liveMarket)
                           [user; TOKEN_PROGRAM_ID; base]
                           ASSOCIATED_TOKEN_PROGRAM_ID
      = Ok (userBaseTokenAccount (td t)) /\
    findProgramAddressSync (Fixture.env Fixture.liveMarket)
                           [user; TOKEN_PROGRAM_ID; quote]
                           ASSOCIATED_TOKEN_PROGRAM_ID
      = Ok (userQuoteTokenAccount (td t)).
Proof.
  eexists _, _.
  assert (Hrun : processRaydiumLpTransaction
                   (Fixture.env Fixture.liveMarket) "sig" []
                 = (Ok (Some _), _)) by run_lhs.
  destruct (record_user_accounts_follow_the_mints _ _ _ _ _ Hrun)
    as (user & base & quote & Hrest).
  exists user, base, quote. split; [exact Hrun|exact Hrest].
Defined.

(** *** The descriptive fields *)

(** X10: the values the [catch] block assigns are the values the [try]
    block yields on a decoded account that has none of the descriptive
    fields; and a string-typed field that is present keeps its decoded value,
    zero included. *)
Theorem catch_defaults_agree_with_try_block
        env (wq lv : JsString) (ld nn ot : option N)
        (initBase initQuote : string) :
  extractPoolState env
    {| Layout.withdrawQueue := wq;
       Layout.lpVault := lv;
       Layout.lpDecimals := ld;
       Layout.nonce := nn;
       Layout.poolOpenTime := None;
       Layout.openTime := ot;
       Layout.swapFeeNumerator := None;
       Layout.swapFeeDenominator := None;
       Layout.ownerTradeFeeNumerator := None;
       Layout.ownerTradeFeeDenominator := None;
       Layout.ownerWithdrawFeeNumerator := None;
       Layout.ownerWithdrawFeeDenominator := None;
       Layout.status := None;
       Layout.state := None;
       Layout.resetFlag := None;
       Layout.minSize := None;
       Layout.volMaxCutRatio := None;
       Layout.pnlNumerator := None;
       Layout.pnlDenominator := None;
       Layout.depth := None;
       Layout.coinDeposited := None;
       Layout.pcDeposited := None;
       Layout.systemDecimalsValue := None |} initBase initQuote
    = defaultPoolState env initBase initQuote /\
  (forall pd n,
      Layout.minSize pd = Some n ->
      minSize (extractPoolState env pd initBase initQuote) = toString n) /\
  (forall pd n,
      Layout.pnlDenominator pd = Some n ->
      pnlDenominator (extractPoolState env pd initBase initQuote)
        = toString n) /\
  (forall pd n,
      Layout.coinDeposited pd = Some n ->
      coinDeposited (extractPoolState env pd initBase initQuote)
        = toString n) /\
  (forall pd n,
      Layout.pcDeposited pd = Some n ->
      pcDeposited (extractPoolState env pd initBase initQuote) = toString n).
Proof.
  split.
  - unfold extractPoolState, defaultPoolState. cbn [Layout.swapFeeNumerator
      Layout.swapFeeDenominator Layout.ownerTradeFeeNumerator
      Layout.ownerTradeFeeDenominator Layout.ownerWithdrawFeeNumerator
      Layout.ownerWithdrawFeeDenominator Layout.status Layout.state
      Layout.resetFlag Layout.minSize Layout.volMaxCutRatio
      Layout.pnlNumerator Layout.pnlDenominator Layout.depth
      Layout.coinDeposited Layout.pcDeposited Layout.systemDecimalsValue
      Layout.poolOpenTime Number_of_field str_or].
    reflexivity.
  - repeat split; intros pd n H; cbn; now rewrite H.
Qed.

End RecordFacts.

(** ** The watcher: what its methods do when called again *)
Module SessionFacts.
Import JS Sniper.
Local Open Scope string_scope.
Local Open Scope list_scope.

(** Case analysis along a run that starts from any events. *)
Ltac along :=
  unfold read, await, invoke, write, liftR;
  repeat first
    [ progress (cbn [exec bind try_finally settle]; cbv zeta)
    | progress cbn [apply db vaultSubId baseMint owner tokenId fullLpData]
    | match goal with
      | H : ?l = _ |- context [?l] => rewrite H
      | |- context [settle ?r] => destruct r eqn:?
      end
    | progress cbn [outcome final events fst snd]
    | match goal with
      | |- context [match ?x with _ => _ end] =>
          lazymatch x with
          | context [exec _ _ _ _] => fail
          | _ => destruct x eqn:?
          end
      end ].

(** The count of a classifier over events that end in known ones. *)
Ltac tally :=
  rewrite ?WatcherFacts.count_app; unfold count;
  cbn [filter List.length remove_called is_remove swap_called is_swap
       connect_called is_connect balance_queried is_balance_query
       sell_called is_sell swapBaseIn released Nat.add].

(** *** The buy *)

(** X11: the buy is made once.  In the revised copy a second [executeBuy]
    is refused with "LP data missing for buy phase" and calls nothing,
    whatever the first one did; in sniper.js it is refused after a first buy
    that returned. *)
Theorem second_buy_is_refused (o : Oracle) (s : Sniper) :
  (let run := exec o Sniper2.executeBuy s [] in
   exec o Sniper2.executeBuy (final run) (events run)
     = (Err (ErrorMsg "LP data missing for buy phase"),
        final run, events run) /\
   (count swap_called (events run) <= 1)%nat) /\
  (let run := exec o executeBuy s [] in
   outcome run = Ok tt ->
   exec o executeBuy (final run) (events run)
     = (Err (ErrorMsg "LP data missing for buy phase"),
        final run, events run)).
Proof.
  unfold Sniper2.executeBuy, executeBuy. split.
  - along; (split; [reflexivity|tally; lia]).
  - along; intros H; first [discriminate H | reflexivity].
Qed.

(** X12: the revised [executeBuy], called with a cached record, clears the
    record exactly once and requests exactly one trade, whether the trade
    resolves or is rejected; a rejection still reaches the caller. *)
Theorem revised_buy_releases_the_record_on_every_path
        (o : Oracle) (s : Sniper) (lp : LpRecord) :
  fullLpData s = Some lp ->
  let run := exec o Sniper2.executeBuy s [] in
  fullLpData (final run) = None /\
  count released (events run) = 1%nat /\
  count swap_called (events run) = 1%nat /\
  (forall e, (forall tr a, o tr _ (SwapTokens a) = Err e) ->
             outcome run = Err e).
Proof.
  intros Hlp. unfold Sniper2.executeBuy, read, await, write.
  cbn [bind exec]. rewrite Hlp.
  cbn [bind try_finally exec settle app]. cbv zeta.
  match goal with
  | |- context [o ?tr _ ?c] => destruct (o tr _ c) as [sig|e0] eqn:E
  end; cbn [settle bind try_finally exec app outcome final events
            fst snd apply fullLpData count filter released swap_called
            is_swap List.length].
  - repeat split. intros e He. rewrite He in E. discriminate E.
  - repeat split. intros e He. rewrite He in E. now inversion E.
Qed.

Lemma revised_buy_releases_the_record_on_every_path_witness :
  exists lp,
    fullLpData Fixture.session = Some lp /\
    let run := exec (Fixture.oracle false []) Sniper2.executeBuy
                    Fixture.session [] in
    fullLpData (final run) = None /\
    count released (events run) = 1%nat /\
    count swap_called (events run) = 1%nat /\
    (forall e, (forall tr a,
                   Fixture.oracle false [] tr _ (SwapTokens a) = Err e) ->
               outcome run = Err e).
Proof.
  eexists. split.
  - run_lhs.
  - eapply (revised_buy_releases_the_record_on_every_path
              (Fixture.oracle false []) Fixture.session).
    run_lhs.
Defined.

(** *** The subscription *)

(** X13: [unsubscribe] called twice removes the listener at most once, and
    after two calls that returned no subscription is left; with no
    subscription, or with the subscription id 0, which the test
    [if (this.vaultSubId)] takes for none, it calls nothing and changes
    nothing. *)
Theorem unsubscribe_twice_removes_once (o : Oracle) (s : Sniper) :
  let run := exec o (bind unsubscribe (fun _ => unsubscribe)) s [] in
  (count remove_called (events run) <= 1)%nat /\
  (outcome run = Ok tt -> subscribed (vaultSubId (final run)) = false) /\
  (vaultSubId s = Some 0%N -> run = (Ok tt, s, [])) /\
  (vaultSubId s = None -> run = (Ok tt, s, [])).
Proof.
  unfold unsubscribe, subscribed.
  along.
  all: cbn [subscribed negb N.eqb].
  all: repeat split; intros; try reflexivity; try discriminate;
    try (tally; lia).
  all: try match goal with
           | H : Some _ = Some 0%N |- _ => inversion H; subst
           end.
  all: try match goal with
           | H : negb (0 =? 0)%N = true |- _ => discriminate H
           end.
  all: try (rewrite N.eqb_refl in *; discriminate).
  all: try assumption.
Qed.

(** *** The record store *)

(** A notification at or above the target, delivered while no handle is
    in place, leaves the callback suspended at its call of connect. *)
Lemma notify_without_handle
      isPublicKey (o : Oracle) (s0 : Sniper) (tr : list Event)
      (l : option N) (lamports : float) :
  db s0 = None ->
  triggering s0 lamports = true ->
  (exists k,
      advance o (onAccountChange_callback isPublicKey lamports) s0 tr l
        = (Suspended MongoConnect k, s0, tr ++ [Called MongoConnect], l)) /\
  (exists k,
      advance o (Sniper2.onAccountChange_callback isPublicKey lamports)
              s0 tr l
        = (Suspended MongoConnect k, s0, tr ++ [Called MongoConnect], l)).
Proof.
  intros Hdb Ht. unfold triggering in Ht.
  unfold onAccountChange_callback, Sniper2.onAccountChange_callback,
    onChange, executeSell, Sniper2.executeSell, fetchFromMongo, read, await,
    write.
  cbn [advance bind]. rewrite Ht. cbn [advance bind]. rewrite Hdb.
  cbn [advance bind].
  split; eexists; reflexivity.
Qed.

(** X14: the test [if (!this.db)] spares a connect only once a handle is
    in place.  Of two fetches made one after the other only the first can
    connect; with a handle in place neither does; after a fetch that returned
    the handle is in place.  A connect that is still in flight is not
    covered: when two notifications at or above the target are delivered back
    to back to a session without a handle, both invocations of the callback,
    in either copy, call connect, and both are suspended there with the
    handle still unset. *)
Theorem store_connects_while_no_handle_is_in_place
        isPublicKey (o : Oracle) (s : Sniper) :
  (let run := exec o (bind fetchFromMongo (fun _ => fetchFromMongo)) s [] in
   (count connect_called (events run) <= 1)%nat /\
   (db s = Some tt -> count connect_called (events run) = 0%nat) /\
   (is_ok (outcome run) = true -> db (final run) = Some tt)) /\
  (forall (id : N) (first second : float),
      db s = None ->
      triggering s first = true ->
      triggering s second = true ->
      (exists sys',
          run o (onAccountChange_callback isPublicKey) (watching s id)
              [Notify first; Notify second] = Some sys' /\
          count connect_called (trace sys') = 2%nat /\
          map finished (tasks sys') = [false; false] /\
          db (this sys') = None) /\
      (exists sys',
          run o (Sniper2.onAccountChange_callback isPublicKey) (watching s id)
              [Notify first; Notify second] = Some sys' /\
          count connect_called (trace sys') = 2%nat /\
          map finished (tasks sys') = [false; false] /\
          db (this sys') = None)).
Proof.
  split.
  - unfold fetchFromMongo.
    along.
    all: repeat split; intros; try reflexivity; try discriminate;
      try (tally; lia).
    all: try match goal with
             | u : unit |- _ => destruct u; reflexivity
             end.
  - intros id first second Hdb H1 H2.
    set (s0 := apply (SetVaultSubId (Some id)) s).
    assert (Hdb0 : db s0 = None) by exact Hdb.
    assert (H10 : triggering s0 first = true) by exact H1.
    assert (H20 : triggering s0 second = true) by exact H2.
    destruct (notify_without_handle isPublicKey o s0 [] (Some id) first
                                    Hdb0 H10) as [[k1 E1] [k1' E1']].
    destruct (notify_without_handle isPublicKey o s0
                                    ([] ++ [Called MongoConnect]) (Some id)
                                    second Hdb0 H20)
      as [[k2 E2] [k2' E2']].
    split; eexists; (split; [|split; [|split]]).
    1: { unfold run, step, watching. cbn [listener this tasks trace].
         fold s0. rewrite E1. cbn [listener this tasks trace].
         rewrite E2. reflexivity. }
    4: { unfold run, step, watching. cbn [listener this tasks trace].
         fold s0. rewrite E1'. cbn [listener this tasks trace].
         rewrite E2'. reflexivity. }
    all: cbn [trace tasks this app map finished]; try reflexivity;
      try exact Hdb0.
Qed.

Lemma store_connects_while_no_handle_is_in_place_witness :
  db Fixture.bought = None /\
  triggering Fixture.bought 50000000000 = true /\
  exists sys',
    run (Fixture.oracle true []) (onAccountChange_callback Fixture.isPublicKey)
        (watching Fixture.bought 7)
        [Notify 50000000000; Notify 50000000000] = Some sys' /\
    count connect_called (trace sys') = 2%nat /\
    map finished (tasks sys') = [false; false] /\
    db (this sys') = None.
Proof.
  split; [reflexivity|]. split; [vm_compute; reflexivity|].
  apply (proj2 (store_connects_while_no_handle_is_in_place
                  Fixture.isPublicKey (Fixture.oracle true [])
                  Fixture.bought)
               7%N 50000000000%float 50000000000%float).
  - reflexivity.
  - vm_compute. reflexivity.
  - vm_compute. reflexivity.
Defined.

(** *** The sell *)

(** X15: when the store has no record for the token, the revised
    [executeSell] raises before it asks the ledger for the balance and
    without requesting a trade, with "Failed to fetch LP data from MongoDB"
    once the store is connected; sniper.js, in the same situation, has
    queried the ledger by the time it raises. *)
Theorem revised_sell_without_record_reads_no_balance
        isPublicKey (o : Oracle) (s : Sniper) :
  (forall tr, o tr _ (FindOne (tokenId s)) = Ok None) ->
  let run := exec o (Sniper2.executeSell isPublicKey) s [] in
  is_ok (outcome run) = false /\
  count balance_queried (events run) = 0%nat /\
  count swap_called (events run) = 0%nat /\
  ((forall tr, o tr _ MongoConnect = Ok tt) ->
   outcome run = Err (ErrorMsg "Failed to fetch LP data from MongoDB")) /\
  (forall mint,
      (forall tr, o tr _ MongoConnect = Ok tt) ->
      newPublicKey isPublicKey (baseMint s) = Ok mint ->
      let run' := exec o (executeSell isPublicKey) s [] in
      is_ok (outcome run') = false /\
      (1 <= count balance_queried (events run'))%nat).
Proof.
  intros Hfind. cbv zeta.
  split; [|split; [|split; [|split]]].
  4: intros Hconn.
  5: intros mint Hconn Hk.
  all: unfold Sniper2.executeSell, executeSell, fetchFromMongo,
         getTokenBalance.
  all: along.
  all: try match goal with
           | E : ?f ?t _ ?c = _, H : forall tr, ?f tr _ ?c = _ |- _ =>
               rewrite H in E; discriminate E
           end.
  all: try reflexivity.
  all: try (tally; lia).
  all: split; [reflexivity|tally; lia].
Qed.

Lemma revised_sell_without_record_reads_no_balance_witness :
  let run := exec Fixture2.emptyStore
                  (Sniper2.executeSell Fixture.isPublicKey)
                  Fixture.bought [] in
  is_ok (outcome run) = false /\
  count balance_queried (events run) = 0%nat /\
  count swap_called (events run) = 0%nat /\
  ((forall tr, Fixture2.emptyStore tr _ MongoConnect = Ok tt) ->
   outcome run = Err (ErrorMsg "Failed to fetch LP data from MongoDB")) /\
  (forall mint,
      (forall tr, Fixture2.emptyStore tr _ MongoConnect = Ok tt) ->
      newPublicKey Fixture.isPublicKey (baseMint Fixture.bought) = Ok mint ->
      let run' := exec Fixture2.emptyStore (executeSell Fixture.isPublicKey)
                       Fixture.bought [] in
      is_ok (outcome run') = false /\
      (1 <= count balance_queried (events run'))%nat).
Proof.
  apply (revised_sell_without_record_reads_no_balance
           Fixture.isPublicKey Fixture2.emptyStore Fixture.bought).
  intros tr. reflexivity.
Defined.

(** X26: when the owner holds several token accounts of the base mint,
    [executeSell] sells the balance of the first one only: in both copies the
    one trade requested has that balance string as its amount, and the ledger
    is asked twice, for the accounts and for the first account's balance. *)
Theorem sell_amount_is_the_balance_of_the_first_account
        isPublicKey (o : Oracle) (s : Sniper) (mint : string)
        (lp : LpRecord) (pubkey : string) (others : list string)
        (bal : string) :
  newPublicKey isPublicKey (baseMint s) = Ok mint ->
  (forall tr, o tr _ MongoConnect = Ok tt) ->
  (forall tr, o tr _ (FindOne (tokenId s)) = Ok (Some lp)) ->
  (forall tr, o tr _ (GetTokenAccountsByOwner (owner s) mint)
              = Ok (pubkey :: others)) ->
  (forall tr, o tr _ (GetTokenAccountBalance pubkey) = Ok bal) ->
  sell_amounts (events (exec o (executeSell isPublicKey) s [])) = [Str bal] /\
  sell_amounts (events (exec o (Sniper2.executeSell isPublicKey) s []))
    = [Str bal] /\
  count balance_queried (events (exec o (executeSell isPublicKey) s []))
    = 2%nat.
Proof.
  intros Hk Hconn Hfind Hacc Hbal.
  unfold executeSell, Sniper2.executeSell, fetchFromMongo, getTokenBalance,
    read, await, write, liftR.
  cbn [bind exec].
  destruct (db s); cbn [bind exec settle app]; cbv zeta;
    rewrite ?Hconn; cbn [bind exec settle app]; cbv zeta;
    rewrite Hfind; cbn [bind exec settle app apply baseMint owner];
    rewrite Hk; cbn [settle bind exec]; cbv zeta;
    rewrite Hacc; cbn [settle bind exec app]; cbv zeta;
    rewrite Hbal; cbn [settle bind exec app apply owner]; cbv zeta;
    repeat match goal with
           | |- context [o ?tr _ (SwapTokens ?a)] =>
               destruct (o tr _ (SwapTokens a))
           end; repeat split; reflexivity.
Qed.

Lemma sell_amount_is_the_balance_of_the_first_account_witness :
  exists lp,
    Fixture.record = Some lp /\
    sell_amounts (events (exec (Fixture.oracle true ["First"; "Second"])
                               (executeSell Fixture.isPublicKey)
                               Fixture.session [])) = [Str "1000"] /\
    sell_amounts (events (exec (Fixture.oracle true ["First"; "Second"])
                               (Sniper2.executeSell Fixture.isPublicKey)
                               Fixture.session [])) = [Str "1000"] /\
    count balance_queried
          (events (exec (Fixture.oracle true ["First"; "Second"])
                        (executeSell Fixture.isPublicKey)
                        Fixture.session [])) = 2%nat.
Proof.
  eexists. split.
  - run_lhs.
  - eapply (sell_amount_is_the_balance_of_the_first_account
              Fixture.isPublicKey (Fixture.oracle true ["First"; "Second"])
              Fixture.session "BaseMint" _ "First" ["Second"] "1000").
    + reflexivity.
    + intros tr. reflexivity.
    + intros tr. run_lhs.
    + intros tr. reflexivity.
    + intros tr. reflexivity.
Defined.

(** *** The revised callback *)

(** X16: the revised copy of the callback keeps the bounds of sniper.js:
    under any interleaving a session has called no more sells than it was
    delivered notifications at or above the target, and under serial
    delivery, with a non-zero subscription id and collaborators that fail
    neither the trade nor the removal of the listener, at most one. *)
Theorem revised_callback_keeps_the_sell_bounds
        isPublicKey (o : Oracle) (s : Sniper) (id : N)
        (sched : list Step) (sys' : Sys) :
  run o (Sniper2.onAccountChange_callback isPublicKey) (watching s id) sched
    = Some sys' ->
  (count sell_called (trace sys') <= triggers s sched)%nat /\
  (id <> 0%N ->
   (forall tr X (c : Ext X), allowed c (o tr X c)) ->
   serial o (Sniper2.onAccountChange_callback isPublicKey) (watching s id)
          sched = true ->
   (count sell_called (trace sys') <= 1)%nat).
Proof.
  intros Hrun. split.
  - exact (WatcherFacts.sells_revised_bounded_by_triggering_notifications
             isPublicKey o s id sched sys' Hrun).
  - intros Hid Hok Hser.
    apply (WatcherFacts.phase_sells_at_most_once id).
    eapply (WatcherFacts.run_phase
              o id Hok (Sniper2.onAccountChange_callback isPublicKey));
      [|apply WatcherFacts.watching_armed|exact Hser|exact Hrun].
    intros s0 lamports Hv.
    now apply WatcherFacts.callback_revised_before_sell.
Qed.

Lemma revised_callback_keeps_the_sell_bounds_witness :
  exists sys',
    run (Fixture.oracle true [])
        (Sniper2.onAccountChange_callback Fixture.isPublicKey)
        (watching Fixture.bought 7) Fixture.sellSettled = Some sys' /\
    (count sell_called (trace sys')
       <= triggers Fixture.bought Fixture.sellSettled)%nat /\
    (7%N <> 0%N ->
     (forall tr X (c : Ext X), allowed c (Fixture.oracle true [] tr X c)) ->
     serial (Fixture.oracle true [])
            (Sniper2.onAccountChange_callback Fixture.isPublicKey)
            (watching Fixture.bought 7) Fixture.sellSettled = true ->
     (count sell_called (trace sys') <= 1)%nat).
Proof.
  eexists. split.
  - run_lhs.
  - apply (revised_callback_keeps_the_sell_bounds
             Fixture.isPublicKey (Fixture.oracle true []) Fixture.bought 7
             Fixture.sellSettled).
    run_lhs.
Defined.

(** *** The subscription id 0 *)

Lemma callback_keeps_subscription_zero
      isPublicKey (o : Oracle) (s : Sniper) (tr : list Event)
      (lamports : float) :
  vaultSubId s = Some 0%N ->
  (vaultSubId (final (exec o (onAccountChange_callback isPublicKey lamports)
                           s tr)) = Some 0%N /\
   count remove_called
         (events (exec o (onAccountChange_callback isPublicKey lamports)
                       s tr)) = count remove_called tr) /\
  (vaultSubId (final (exec o (Sniper2.onAccountChange_callback
                                isPublicKey lamports) s tr)) = Some 0%N /\
   count remove_called
         (events (exec o (Sniper2.onAccountChange_callback
                            isPublicKey lamports) s tr))
     = count remove_called tr).
Proof.
  intros Hv.
  unfold onAccountChange_callback, Sniper2.onAccountChange_callback,
    onChange, executeSell, Sniper2.executeSell, fetchFromMongo,
    getTokenBalance, unsubscribe, subscribed.
  split.
  all: along.
  all: cbn [N.eqb negb] in *.
  all: try discriminate.
  all: (split; [assumption || reflexivity | tally; lia]).
Qed.

(** X27: a subscription whose id is 0 is never removed.  The test
    [if (this.vaultSubId)] takes the id 0 for no subscription, so however
    many notifications are delivered one after the other, and whatever the
    collaborators answer, neither copy of the callback calls
    [removeAccountChangeListener], and [vaultSubId] stays 0. *)
Theorem subscription_zero_is_never_removed
        isPublicKey (o : Oracle) (notifications : list float) :
  forall (s : Sniper) (tr : list Event),
    vaultSubId s = Some 0%N ->
    (let after := deliver o (onAccountChange_callback isPublicKey) s tr
                          notifications in
     vaultSubId (fst after) = Some 0%N /\
     count remove_called (snd after) = count remove_called tr) /\
    (let after := deliver o (Sniper2.onAccountChange_callback isPublicKey)
                          s tr notifications in
     vaultSubId (fst after) = Some 0%N /\
     count remove_called (snd after) = count remove_called tr).
Proof.
  induction notifications as [|lamports rest IH]; intros s tr Hv.
  - cbn. repeat split; assumption.
  - destruct (callback_keeps_subscription_zero isPublicKey o s tr lamports Hv)
      as [[Hv1 Hc1] [Hv2 Hc2]].
    cbn [deliver]. cbv zeta. split.
    + destruct (IH _ (events (exec o (onAccountChange_callback
                                         isPublicKey lamports) s tr)) Hv1)
        as [[Ha Hb] _].
      split; [exact Ha|]. now rewrite Hb.
    + destruct (IH _ (events (exec o (Sniper2.onAccountChange_callback
                                         isPublicKey lamports) s tr)) Hv2)
        as [_ [Ha Hb]].
      split; [exact Ha|]. now rewrite Hb.
Qed.

Lemma subscription_zero_is_never_removed_witness :
  let s := apply (SetVaultSubId (Some 0%N)) Fixture.bought in
  vaultSubId s = Some 0%N /\
  (let after := deliver (Fixture.oracle true ["Account"])
                        (onAccountChange_callback Fixture.isPublicKey) s []
                        [50000000000%float; 50000000000%float] in
   vaultSubId (fst after) = Some 0%N /\
   count remove_called (snd after) = count remove_called []) /\
  (let after := deliver (Fixture.oracle true ["Account"])
                        (Sniper2.onAccountChange_callback
                           Fixture.isPublicKey) s []
                        [50000000000%float; 50000000000%float] in
   vaultSubId (fst after) = Some 0%N /\
   count remove_called (snd after) = count remove_called []).
Proof.
  intros s. split; [reflexivity|].
  apply (subscription_zero_is_never_removed
           Fixture.isPublicKey (Fixture.oracle true ["Account"])
           [50000000000%float; 50000000000%float] s []).
  reflexivity.
Defined.

(** With the subscription id 0, two notifications at the target price that
    are delivered one after the other both sell, although every collaborator
    succeeds. *)
Lemma example_subscription_zero_sells_twice :
  count sell_called
        (snd (deliver (Fixture.oracle true ["Account"])
                      (onAccountChange_callback Fixture.isPublicKey)
                      (apply (SetVaultSubId (Some 0%N)) Fixture.bought) []
                      [50000000000%float; 50000000000%float]))
    = 2%nat.
Proof. vm_compute. reflexivity. Qed.

End SessionFacts.

(** ** The trade executor *)
Module SwapFacts.
Import JS SwapCreator.
Local Open Scope string_scope.
Local Open Scope list_scope.

Lemma count_calls_app (f : Event -> bool) (a b : list Event) :
  count f (a ++ b) = (count f a + count f b)%nat.
Proof. unfold count. now rewrite filter_app, length_app. Qed.

Lemma count_calls_single (f : Event -> bool) (e : Event) :
  count f [e] = if f e then 1%nat else 0%nat.
Proof. unfold count. cbn [filter]. now destruct (f e). Qed.

(** A bound read off a method bounds the calls a run of it adds. *)
Lemma at_most_exec {A} P (o : Oracle) (p : Prog A) :
  forall n loaded tr,
    at_most P n loaded p ->
    (count (called P) (events (exec o p loaded tr))
     <= count (called P) tr + n)%nat.
Proof.
  induction p as [a|e|k IH|k IH|X c k IH|X c k IH|X c k IH];
    intros n loaded tr H; cbn [exec at_most] in *; cbv zeta.
  - cbn [events snd]. lia.
  - cbn [events snd]. lia.
  - now apply IH.
  - now apply IH.
  - destruct (P X c) eqn:Ec.
    + destruct n as [|m]; [contradiction|].
      eapply Nat.le_trans; [apply (IH _ m), H|].
      rewrite count_calls_app.
      change [Called c; Settled c (o (tr ++ [Called c]) X c)]
        with ([Called c] ++ [Settled c (o (tr ++ [Called c]) X c)]).
      rewrite count_calls_app, !count_calls_single. cbn [called]. rewrite Ec. lia.
    + eapply Nat.le_trans; [apply (IH _ n), H|].
      rewrite count_calls_app.
      change [Called c; Settled c (o (tr ++ [Called c]) X c)]
        with ([Called c] ++ [Settled c (o (tr ++ [Called c]) X c)]).
      rewrite count_calls_app, !count_calls_single. cbn [called]. rewrite Ec. lia.
  - destruct (P X c) eqn:Ec.
    + destruct n as [|m]; [contradiction|].
      eapply Nat.le_trans; [apply (IH _ m), H|].
      rewrite count_calls_app.
      change [Called c; Settled c (o (tr ++ [Called c]) X c)]
        with ([Called c] ++ [Settled c (o (tr ++ [Called c]) X c)]).
      rewrite count_calls_app, !count_calls_single. cbn [called]. rewrite Ec. lia.
    + eapply Nat.le_trans; [apply (IH _ n), H|].
      rewrite count_calls_app.
      change [Called c; Settled c (o (tr ++ [Called c]) X c)]
        with ([Called c] ++ [Settled c (o (tr ++ [Called c]) X c)]).
      rewrite count_calls_app, !count_calls_single. cbn [called]. rewrite Ec. lia.
  - destruct (P X c) eqn:Ec.
    + destruct n as [|m]; [contradiction|].
      eapply Nat.le_trans; [apply (IH m), H|].
      rewrite count_calls_app, count_calls_single. cbn [called]. rewrite Ec. lia.
    + eapply Nat.le_trans; [apply (IH n), H|].
      rewrite count_calls_app, count_calls_single. cbn [called]. rewrite Ec. lia.
Qed.

(** A method none of whose paths returns ends in an exception. *)
Lemma fails_exec {A} (o : Oracle) (p : Prog A) :
  forall loaded tr,
    fails p -> is_ok (outcome (exec o p loaded tr)) = false.
Proof.
  induction p as [a|e|k IH|k IH|X c k IH|X c k IH|X c k IH];
    intros loaded tr H; cbn [exec fails] in *; cbv zeta.
  - contradiction.
  - reflexivity.
  - apply IH, H.
  - apply IH, H.
  - apply IH, H.
  - apply IH, H.
  - apply IH, H.
Qed.

(** Once set, [this.raydium] stays set. *)
Lemma exec_stays_loaded {A} (o : Oracle) (p : Prog A) :
  forall tr, sdkLoaded (exec o p true tr) = true.
Proof.
  induction p as [a|e|k IH|k IH|X c k IH|X c k IH|X c k IH];
    intros tr; cbn [exec]; cbv zeta; try reflexivity; apply IH.
Qed.

Lemma no_calls_of {A} P (o : Oracle) (p : Prog A) (loaded : bool) :
  at_most P 0 loaded p ->
  count (called P) (events (exec o p loaded [])) = 0%nat.
Proof.
  intros H. pose proof (at_most_exec P o p 0 loaded [] H) as Hle.
  change (count (called P) []) with 0%nat in Hle. lia.
Qed.

(** *** Walking through a method *)

Ltac open_swap :=
  unfold swapTokens, SwapCreator0.swapTokens, trySwap, initializeRaydium,
    createPoolKeysFromTokenData, SwapCreator0.createPoolKeysFromTokenData,
    verifyAuthority, createTokenAccountInstructions,
    debugTokenAccountState, await, invoke, liftR.

(** Every branch of a bound read off a method. *)
Ltac walk_swap :=
  repeat first
    [ progress (cbn [at_most fails bind try_catch start settle
                     is_directSwap is_send is_load
                     tokenData amountSpecified swapBaseIn owner]; cbv zeta)
    | match goal with
      | H : ?l = _ |- context [?l] => rewrite H
      | |- True => exact I
      | |- _ /\ _ => split
      | |- forall _, _ => intro
      | |- _ = _ => reflexivity
      | |- context [settle ?r] => destruct r
      | |- context [match ?x with _ => _ end] => destruct x
      end ].

(** Every branch of a run that is assumed to return. *)
Ltac walk_exec :=
  repeat first
    [ progress (cbn [exec bind try_catch start settle outcome events sdkLoaded
                     fst snd bindR add app
                     tokenData amountSpecified swapBaseIn owner]; cbv zeta)
    | match goal with
      | |- Err _ = Ok _ -> _ => let H := fresh in intro H; discriminate H
      | |- context [isPublicKey ?e ?s] => destruct (isPublicKey e s) eqn:?
      | |- context [toNumber ?a] => destruct (toNumber a) eqn:?
      | |- context [add _ ?l] => is_var l; destruct l
      | |- context [fst ?a] => is_var a; destruct a
      | |- context [match ?x with _ => _ end] =>
          lazymatch x with
          | context [exec] => fail
          | context [@settle] => fail
          | context [@bindR] => fail
          | _ => destruct x eqn:?
          end
      | |- context [settle ?r] => destruct r
      end ].

(** An event is among the events of a run that has been walked through. *)
Ltac find_event := cbn [In]; repeat first [left; reflexivity | right].

(** Every branch of a run of the watcher. *)
Ltac walk_sniper :=
  repeat first
    [ progress (cbn [Sniper.exec Sniper.bind Sniper.try_finally Sniper.settle
                     Sniper.events requests request snd app
                     Sniper.tokenData Sniper.amountSpecified
                     Sniper.swapBaseIn Sniper.swapOwner];
                cbv zeta)
    | match goal with
      | |- Forall _ [] => constructor
      | |- Forall _ (_ :: _) => constructor
      | |- _ = _ => reflexivity
      | |- context [Sniper.settle ?r] => destruct r
      | |- context [match ?x with _ => _ end] => destruct x
      end ].

(** *** A request without [tokenData] *)

Lemma swapTokens_undefined env (so : Oracle) r loaded tr :
  tokenData r = None ->
  exec so (swapTokens env r) loaded tr
    = (Err (ErrorMsg "tokenData is undefined(swapcreator)"), loaded, tr).
Proof. intros H. unfold swapTokens. now rewrite H. Qed.

(** sniper.js passes the record under the key [lpData]: what the executor
    destructures as [tokenData] is undefined. *)
Lemma sniper_requests_lack_tokenData isPublicKey (o : Sniper.Oracle) s :
  Forall (fun r => tokenData r = None)
         (requests (Sniper.events (Sniper.exec o Sniper.executeBuy s []))) /\
  Forall (fun r => tokenData r = None)
         (requests (Sniper.events
                      (Sniper.exec o (Sniper.executeSell isPublicKey) s []))).
Proof.
  unfold Sniper.executeBuy, Sniper.executeSell, Sniper.fetchFromMongo,
    Sniper.getTokenBalance, Sniper.read, Sniper.await, Sniper.write,
    Sniper.liftR.
  split; walk_sniper.
Qed.

Lemma sniper_buy_requests (o : Sniper.Oracle) s lp :
  Sniper.fullLpData s = Some lp ->
  requests (Sniper.events (Sniper.exec o Sniper.executeBuy s [])) <> [].
Proof.
  intros H.
  unfold Sniper.executeBuy, Sniper.read, Sniper.await, Sniper.write.
  cbn [Sniper.exec Sniper.bind]. rewrite H.
  cbn [Sniper.exec Sniper.bind app]. cbv zeta.
  match goal with
  | |- context [Sniper.settle ?r] => destruct r
  end; cbn; discriminate.
Qed.

(** X17: every trade that sniper.js requests, a buy or a sell, is rejected
    by the later copy of the executor with "tokenData is undefined", before
    the executor calls anything or loads the SDK; and a buy with a cached
    record does request a trade. *)
Theorem sniper_trades_are_rejected_by_the_later_executor
        isPublicKey (o : Sniper.Oracle) (s : Sniper.Sniper)
        env (so : Oracle) (loaded : bool) (tr : list Event) :
  Forall (fun r =>
            exec so (swapTokens env r) loaded tr
              = (Err (ErrorMsg "tokenData is undefined(swapcreator)"),
                 loaded, tr))
         (requests (Sniper.events (Sniper.exec o Sniper.executeBuy s []))
          ++ requests (Sniper.events
                         (Sniper.exec o (Sniper.executeSell isPublicKey)
                                      s []))) /\
  (forall lp, Sniper.fullLpData s = Some lp ->
     requests (Sniper.events (Sniper.exec o Sniper.executeBuy s [])) <> []).
Proof.
  split.
  - destruct (sniper_requests_lack_tokenData isPublicKey o s) as [Hb Hs].
    apply Forall_app. split.
    + eapply Forall_impl; [|exact Hb].
      intros r Hr. now apply swapTokens_undefined.
    + eapply Forall_impl; [|exact Hs].
      intros r Hr. now apply swapTokens_undefined.
  - intros lp. apply sniper_buy_requests.
Qed.

Lemma undefined_tokenData_fails_earlier env r loaded :
  tokenData r = None ->
  at_most (@is_directSwap) 0 loaded (SwapCreator0.swapTokens env r) /\
  at_most (@is_send) 0 loaded (SwapCreator0.swapTokens env r) /\
  fails (SwapCreator0.swapTokens env r).
Proof.
  intros H. destruct r as [td a sbi own]. cbn in H. subst td.
  open_swap. cbn [tokenData amountSpecified swapBaseIn owner].
  walk_swap.
Qed.

(** X18: with the earlier copy of the executor, a trade that sniper.js
    requests ends in an exception too, and neither [directSwap] nor
    [sendAndConfirmTransaction] is called. *)
Theorem sniper_trades_fail_in_the_earlier_executor
        isPublicKey (o : Sniper.Oracle) (s : Sniper.Sniper)
        env (so : Oracle) (loaded : bool) :
  Forall (fun r =>
            let run := exec so (SwapCreator0.swapTokens env r) loaded [] in
            is_ok (outcome run) = false /\
            count directSwap_called (events run) = 0%nat /\
            count send_called (events run) = 0%nat)
         (requests (Sniper.events (Sniper.exec o Sniper.executeBuy s []))
          ++ requests (Sniper.events
                         (Sniper.exec o (Sniper.executeSell isPublicKey)
                                      s []))).
Proof.
  assert (Hone : forall r, tokenData r = None ->
            let run := exec so (SwapCreator0.swapTokens env r) loaded [] in
            is_ok (outcome run) = false /\
            count directSwap_called (events run) = 0%nat /\
            count send_called (events run) = 0%nat).
  { intros r Hr.
    destruct (undefined_tokenData_fails_earlier env r loaded Hr)
      as (Hd & Hs & Hf).
    cbv zeta. split; [now apply fails_exec|]. split.
    - exact (no_calls_of (@is_directSwap) so _ loaded Hd).
    - exact (no_calls_of (@is_send) so _ loaded Hs). }
  destruct (sniper_requests_lack_tokenData isPublicKey o s) as [Hb Hs].
  apply Forall_app. split.
  - eapply Forall_impl; [|exact Hb]. exact Hone.
  - eapply Forall_impl; [|exact Hs]. exact Hone.
Qed.

(** *** A number as the amount of a buy that wraps SOL *)

Lemma wrap_number_fails env own w x :
  exists e, createWrapSOLInstructions env own w (Number x) = Err e.
Proof.
  unfold createWrapSOLInstructions.
  destruct (newPublicKey env (Some w)); cbn; eauto.
Qed.

Lemma number_buy_never_swaps env td x own loaded :
  LpService.isWSOLSwap td = true ->
  let req := {| tokenData := Some td; amountSpecified := ANumber x;
                swapBaseIn := false; owner := own |} in
  (at_most (@is_directSwap) 0 loaded (swapTokens env req) /\
   at_most (@is_send) 0 loaded (swapTokens env req) /\
   fails (swapTokens env req)) /\
  (at_most (@is_directSwap) 0 loaded (SwapCreator0.swapTokens env req) /\
   at_most (@is_send) 0 loaded (SwapCreator0.swapTokens env req) /\
   fails (SwapCreator0.swapTokens env req)).
Proof.
  intros Hw.
  destruct (wrap_number_fails env own (LpService.userBaseTokenAccount td) x)
    as [e He].
  cbv zeta. open_swap.
  cbn [tokenData amountSpecified swapBaseIn owner toAmount].
  walk_swap.
Qed.

Lemma number_buy_fails env (o : Oracle) req td x loaded :
  tokenData req = Some td ->
  swapBaseIn req = false ->
  LpService.isWSOLSwap td = true ->
  amountSpecified req = ANumber x ->
  (let run := exec o (swapTokens env req) loaded [] in
   is_ok (outcome run) = false /\
   count directSwap_called (events run) = 0%nat /\
   count send_called (events run) = 0%nat) /\
  (let run := exec o (SwapCreator0.swapTokens env req) loaded [] in
   is_ok (outcome run) = false /\
   count directSwap_called (events run) = 0%nat /\
   count send_called (events run) = 0%nat).
Proof.
  intros Ht Hb Hw Ha. destruct req as [t a sbi own]. cbn in Ht, Hb, Ha.
  subst t sbi a.
  destruct (number_buy_never_swaps env td x own loaded Hw)
    as [(Hd & Hs & Hf) (Hd0 & Hs0 & Hf0)].
  cbv zeta. split.
  - split; [now apply fails_exec|]. split.
    + exact (no_calls_of (@is_directSwap) o _ loaded Hd).
    + exact (no_calls_of (@is_send) o _ loaded Hs).
  - split; [now apply fails_exec|]. split.
    + exact (no_calls_of (@is_directSwap) o _ loaded Hd0).
    + exact (no_calls_of (@is_send) o _ loaded Hs0).
Qed.

(** X19: a buy ([swapBaseIn] false) on a record whose quote mint is wrapped
    SOL, with the amount given as a JavaScript number, cannot succeed in
    either copy of the executor: the wrap instructions call
    [amount.toNumber()], which a number does not have, so the run ends in an
    exception and neither [directSwap] nor [sendAndConfirmTransaction] is
    called, whatever the collaborators answer. *)
Theorem number_amount_cannot_buy_with_wrapped_sol
        env (o : Oracle) (req : Request) (td : LpRecord) (x : float)
        (loaded : bool) :
  tokenData req = Some td ->
  swapBaseIn req = false ->
  LpService.isWSOLSwap td = true ->
  amountSpecified req = ANumber x ->
  (let run := exec o (swapTokens env req) loaded [] in
   is_ok (outcome run) = false /\
   count directSwap_called (events run) = 0%nat /\
   count send_called (events run) = 0%nat) /\
  (let run := exec o (SwapCreator0.swapTokens env req) loaded [] in
   is_ok (outcome run) = false /\
   count directSwap_called (events run) = 0%nat /\
   count send_called (events run) = 0%nat).
Proof.
  intros Ht Hb Hw Ha. destruct req as [t a sbi own]. cbn in Ht, Hb, Ha.
  subst t sbi a.
  destruct (number_buy_never_swaps env td x own loaded Hw)
    as [(Hd & Hs & Hf) (Hd0 & Hs0 & Hf0)].
  cbv zeta. split.
  - split; [now apply fails_exec|]. split.
    + exact (no_calls_of (@is_directSwap) o _ loaded Hd).
    + exact (no_calls_of (@is_send) o _ loaded Hs).
  - split; [now apply fails_exec|]. split.
    + exact (no_calls_of (@is_directSwap) o _ loaded Hd0).
    + exact (no_calls_of (@is_send) o _ loaded Hs0).
Qed.

Lemma number_amount_cannot_buy_with_wrapped_sol_witness :
  exists td,
    tokenData Fixture2.buy = Some td /\
    LpService.isWSOLSwap td = true /\
    (let run := exec Fixture2.exchange
                     (swapTokens Fixture2.swapEnv Fixture2.buy) false [] in
     is_ok (outcome run) = false /\
     count directSwap_called (events run) = 0%nat /\
     count send_called (events run) = 0%nat) /\
    (let run := exec Fixture2.exchange
                     (SwapCreator0.swapTokens Fixture2.swapEnv Fixture2.buy)
                     false [] in
     is_ok (outcome run) = false /\
     count directSwap_called (events run) = 0%nat /\
     count send_called (events run) = 0%nat).
Proof.
  eexists. split; [run_lhs|]. split; [vm_compute; reflexivity|].
  eapply (number_amount_cannot_buy_with_wrapped_sol
            Fixture2.swapEnv Fixture2.exchange Fixture2.buy _
            500000000%float false).
  - run_lhs.
  - reflexivity.
  - vm_compute. reflexivity.
  - reflexivity.
Defined.

(** The failure is the [TypeError] of [amount.toNumber()]. *)
Lemma example_number_buy :
  outcome (exec Fixture2.exchange
                (swapTokens Fixture2.swapEnv Fixture2.buy) false [])
    = Err TypeError.
Proof. vm_compute. reflexivity. Qed.

Lemma revised_buy_request (o : Sniper.Oracle) (s : Sniper.Sniper) lp :
  Sniper.fullLpData s = Some lp ->
  requests (Sniper.events (Sniper.exec o Sniper2.executeBuy s []))
    = [ {| tokenData := Some lp;
           amountSpecified :=
             ANumber (Sniper.toLamports (Sniper.buyAmount s)
                                        (Sniper.quoteDecimals s));
           swapBaseIn := false;
           owner := Sniper.owner s |} ].
Proof.
  intros H.
  unfold Sniper2.executeBuy, Sniper.read, Sniper.await, Sniper.write.
  cbn [Sniper.exec Sniper.bind]. rewrite H.
  cbn [Sniper.exec Sniper.bind Sniper.try_finally app]. cbv zeta.
  match goal with
  | |- context [Sniper.settle ?r] => destruct r
  end; reflexivity.
Qed.

(** X20: the revised watcher's buy on a pool quoted in wrapped SOL never
    reaches the exchange.  [executeBuy] requests one trade, with the amount
    [toLamports(buyAmount, quoteDecimals)], a number; either copy of the
    executor ends that trade in an exception without calling [directSwap] or
    [sendAndConfirmTransaction]. *)
Theorem revised_buy_on_wrapped_sol_pool_never_reaches_the_exchange
        (o : Sniper.Oracle) (s : Sniper.Sniper) (lp : LpRecord)
        env (so : Oracle) (loaded : bool) :
  Sniper.fullLpData s = Some lp ->
  LpService.isWSOLSwap lp = true ->
  exists r,
    requests (Sniper.events (Sniper.exec o Sniper2.executeBuy s [])) = [r] /\
    tokenData r = Some lp /\
    (let run := exec so (swapTokens env r) loaded [] in
     is_ok (outcome run) = false /\
     count directSwap_called (events run) = 0%nat /\
     count send_called (events run) = 0%nat) /\
    (let run := exec so (SwapCreator0.swapTokens env r) loaded [] in
     is_ok (outcome run) = false /\
     count directSwap_called (events run) = 0%nat /\
     count send_called (events run) = 0%nat).
Proof.
  intros Hlp Hw. eexists. split; [exact (revised_buy_request o s lp Hlp)|].
  split; [reflexivity|].
  eapply number_buy_fails; try reflexivity. exact Hw.
Qed.

Lemma revised_buy_on_wrapped_sol_pool_never_reaches_the_exchange_witness :
  exists lp,
    Sniper.fullLpData Fixture.session = Some lp /\
    LpService.isWSOLSwap lp = true /\
    exists r,
      requests (Sniper.events
                  (Sniper.exec (Fixture.oracle true []) Sniper2.executeBuy
                               Fixture.session [])) = [r] /\
      tokenData r = Some lp /\
      (let run := exec Fixture2.exchange (swapTokens Fixture2.swapEnv r)
                       false [] in
       is_ok (outcome run) = false /\
       count directSwap_called (events run) = 0%nat /\
       count send_called (events run) = 0%nat) /\
      (let run := exec Fixture2.exchange
                       (SwapCreator0.swapTokens Fixture2.swapEnv r)
                       false [] in
       is_ok (outcome run) = false /\
       count directSwap_called (events run) = 0%nat /\
       count send_called (events run) = 0%nat).
Proof.
  eexists. split; [run_lhs|]. split; [vm_compute; reflexivity|].
  apply (revised_buy_on_wrapped_sol_pool_never_reaches_the_exchange
           (Fixture.oracle true []) Fixture.session _
           Fixture2.swapEnv Fixture2.exchange false).
  - run_lhs.
  - vm_compute. reflexivity.
Defined.

(** *** The output token account *)

(** X21: [createTokenAccountInstructions] never raises and changes nothing:
    it returns no instruction, or, when the look-up of the output token
    account resolved to null, the one instruction that creates that account
    for the owner and the output mint (the quote side on a sell, the base
    side on a buy).  A failed look-up or an invalid key gives no
    instruction. *)
Theorem createTokenAccountInstructions_never_raises
        env (o : Oracle) (own : string) (td : LpRecord) (sbi loaded : bool)
        (tr : list Event) :
  let run := exec o (createTokenAccountInstructions env own td sbi) loaded tr in
  let account := if sbi then LpService.userQuoteTokenAccount td
                 else LpService.userBaseTokenAccount td in
  let mint := if sbi then LpService.quoteMint td else LpService.baseMint td in
  sdkLoaded run = loaded /\
  count directSwap_called (events run) = count directSwap_called tr /\
  (outcome run = Ok [] \/
   exists m,
     mint = Some m /\
     outcome run = Ok [CreateAssociatedTokenAccount own account own m] /\
     o (tr ++ [Called (GetAccountInfo account)]) _ (GetAccountInfo account)
       = Ok None).
Proof.
  unfold createTokenAccountInstructions, newPublicKey, await, liftR.
  destruct sbi.
  all: repeat first
    [ progress (cbn [exec bind try_catch settle outcome events sdkLoaded
                     fst snd]; cbv zeta)
    | match goal with
      | |- context [isPublicKey ?e ?s] => destruct (isPublicKey e s) eqn:?
      | |- context [LpService.quoteMint ?t] =>
          destruct (LpService.quoteMint t) as [m|] eqn:?
      | |- context [LpService.baseMint ?t] =>
          destruct (LpService.baseMint t) as [m|] eqn:?
      | |- context [settle ?r] => destruct r as [[u|]|e] eqn:?
      end ].
  all: (split; [reflexivity|]).
  all: (split;
        [rewrite ?count_calls_app; unfold count;
         cbn [filter directSwap_called is_directSwap List.length]; lia|]).
  all: first [ left; reflexivity
             | right; eexists; repeat split; (reflexivity || eassumption) ].
Qed.

(** *** The pool keys *)

Lemma keyOrDefault_of_key env v k :
  isPublicKey env "" = false ->
  newPublicKey env v = Ok k ->
  keyOrDefault env v = Ok k /\ LpService.falsy v = false.
Proof.
  intros He H. unfold keyOrDefault.
  destruct v as [s|]; [|discriminate H].
  cbn [LpService.falsy]. cbn [newPublicKey] in H.
  destruct (String.eqb s "") eqn:Es.
  - apply String.eqb_eq in Es. subst s. rewrite He in H. discriminate H.
  - split; [|reflexivity]. cbn [newPublicKey]. exact H.
Qed.

Lemma poolKeysWith_of_keys env td keys :
  isPublicKey env "" = false ->
  poolKeysWith (newPublicKey env) td = Ok keys ->
  poolKeysWith (keyOrDefault env) td = Ok keys /\
  LpService.falsy (LpService.ammId td) = false /\
  LpService.falsy (LpService.baseMint td) = false /\
  LpService.falsy (LpService.quoteMint td) = false.
Proof.
  intros He H. unfold poolKeysWith in *.
  repeat match type of H with
         | bindR (newPublicKey env ?v) _ = _ =>
             let E := fresh "E" in
             destruct (newPublicKey env v) eqn:E; [|discriminate H];
             apply (keyOrDefault_of_key _ _ _ He) in E;
             cbn [bindR] in H
         end.
  repeat match goal with
         | E : keyOrDefault env _ = _ /\ _ |- _ =>
             let E1 := fresh "K" in
             let E2 := fresh "F" in
             destruct E as [E1 E2]; rewrite ?E1
         end.
  cbn [bindR]. repeat split; assumption.
Qed.

(** X22: the later copy's [createPoolKeysFromTokenData] extends the earlier
    one.  Where the empty string is no public key, on a record whose
    [userBaseTokenAccount] is not empty, whenever the earlier copy returns
    pool keys the later copy returns the same keys after the same calls. *)
Theorem later_copy_accepts_what_earlier_accepted
        env (o : Oracle) (td : LpRecord) (loaded : bool) (tr : list Event)
        (keys : PoolKeys.t) :
  isPublicKey env "" = false ->
  LpService.userBaseTokenAccount td <> "" ->
  outcome (exec o (SwapCreator0.createPoolKeysFromTokenData env (Some td))
                loaded tr) = Ok keys ->
  exec o (createPoolKeysFromTokenData env (Some td)) loaded tr
    = exec o (SwapCreator0.createPoolKeysFromTokenData env (Some td))
           loaded tr.
Proof.
  intros He Hu H.
  unfold SwapCreator0.createPoolKeysFromTokenData,
    createPoolKeysFromTokenData, verifyAuthority, liftR in *.
  destruct (poolKeysWith (newPublicKey env) td) as [ks|e] eqn:Ek;
    [|discriminate H].
  destruct (poolKeysWith_of_keys _ _ _ He Ek) as (Hk & Ha & Hb & Hq).
  unfold requiredFields. cbn [checkRequired]. rewrite Ha, Hb, Hq, Hk.
  cbn [LpService.falsy].
  destruct (String.eqb (LpService.userBaseTokenAccount td) "") eqn:Es.
  - apply String.eqb_eq in Es. contradiction.
  - reflexivity.
Qed.

Lemma later_copy_accepts_what_earlier_accepted_witness :
  exists td keys,
    Fixture.record = Some td /\
    outcome (exec Fixture2.exchange
                  (SwapCreator0.createPoolKeysFromTokenData
                     Fixture2.swapEnv (Some td)) false []) = Ok keys /\
    exec Fixture2.exchange
         (createPoolKeysFromTokenData Fixture2.swapEnv (Some td)) false []
      = exec Fixture2.exchange
             (SwapCreator0.createPoolKeysFromTokenData
                Fixture2.swapEnv (Some td)) false [].
Proof.
  eexists _, _. split; [run_lhs|]. split; [run_lhs|].
  eapply (later_copy_accepts_what_earlier_accepted
            Fixture2.swapEnv Fixture2.exchange _ false []).
  - reflexivity.
  - vm_compute. discriminate.
  - run_lhs.
Defined.

(** X23: the later copy's [createPoolKeysFromTokenData] names the first
    missing one of the required fields [ammId], [baseMint], [quoteMint],
    [userBaseTokenAccount], in that order, whatever the other fields hold;
    when it raises it has called nothing; and what it returns or raises does
    not depend on the authority derivation, whose failure is only logged. *)
Theorem missing_required_field_is_named_before_any_call
        env (o : Oracle) (td : LpRecord) (loaded : bool) (tr : list Event) :
  let run := exec o (createPoolKeysFromTokenData env (Some td)) loaded tr in
  let stop field :=
    run = (Err (ErrorMsg (String.append "Missing required field: " field)),
           loaded, tr) in
  (LpService.falsy (LpService.ammId td) = true -> stop "ammId") /\
  (LpService.falsy (LpService.ammId td) = false ->
   LpService.falsy (LpService.baseMint td) = true -> stop "baseMint") /\
  (LpService.falsy (LpService.ammId td) = false ->
   LpService.falsy (LpService.baseMint td) = false ->
   LpService.falsy (LpService.quoteMint td) = true -> stop "quoteMint") /\
  (LpService.falsy (LpService.ammId td) = false ->
   LpService.falsy (LpService.baseMint td) = false ->
   LpService.falsy (LpService.quoteMint td) = false ->
   LpService.userBaseTokenAccount td = "" -> stop "userBaseTokenAccount") /\
  (is_ok (outcome run) = false -> events run = tr) /\
  (forall o', outcome (exec o' (createPoolKeysFromTokenData env (Some td))
                            loaded tr) = outcome run).
Proof.
  unfold createPoolKeysFromTokenData, verifyAuthority, liftR, requiredFields.
  cbn [checkRequired].
  cbv zeta.
  destruct (LpService.falsy (LpService.ammId td)) eqn:Ea;
    [cbn; repeat split; intros; try reflexivity; discriminate|].
  destruct (LpService.falsy (LpService.baseMint td)) eqn:Eb;
    [cbn; repeat split; intros; try reflexivity; discriminate|].
  destruct (LpService.falsy (LpService.quoteMint td)) eqn:Eq;
    [cbn; repeat split; intros; try reflexivity; discriminate|].
  cbn [LpService.falsy].
  destruct (String.eqb (LpService.userBaseTokenAccount td) "") eqn:Eu.
  - cbn. repeat split; intros; try reflexivity; discriminate.
  - apply String.eqb_neq in Eu.
    destruct (poolKeysWith (keyOrDefault env) td) as [keys|e];
      cbn; repeat split; intros; try reflexivity; try discriminate;
      contradiction.
Qed.

(** *** A swap that resolves *)

(** X24: when [swapTokens] of the later copy resolves, the SDK is loaded,
    the look-up of the output token account had resolved to null,
    [directSwap] was called once and returned at least one instruction, and
    exactly one transaction was sent, signed by the owner first.  Its
    instructions are, in order: the two compute-budget instructions; the
    instruction creating the output token account (the quote side on a sell,
    the base side on a buy); on a buy of a pool quoted in wrapped SOL, the
    transfer of the amount to the user's base token account and its sync; the
    instructions of [directSwap]; and, on a sell of such a pool, the closing
    of the user's quote token account to the owner.  A swap whose output
    token account exists already, or whose look-up fails, does not resolve:
    [transaction.add] refuses the empty list of instructions. *)
Theorem swap_that_resolves_sent_one_transaction
        env (o : Oracle) (req : Request) (loaded : bool) (sig : string) :
  let run := exec o (swapTokens env req) loaded [] in
  outcome run = Ok sig ->
  exists td mint lamports swapIxs signers,
    let account :=
      if swapBaseIn req then LpService.userQuoteTokenAccount td
      else LpService.userBaseTokenAccount td in
    tokenData req = Some td /\
    (if swapBaseIn req then LpService.quoteMint td else LpService.baseMint td)
      = Some mint /\
    sdkLoaded run = true /\
    In (Settled (GetAccountInfo account) (Ok None)) (events run) /\
    count directSwap_called (events run) = 1%nat /\
    sent (events run) =
      [ (priorityFee env
         ++ [ CreateAssociatedTokenAccount (owner req) account (owner req)
                                           mint ]
         ++ (if negb (swapBaseIn req) && LpService.isWSOLSwap td
             then [ Transfer (owner req) (LpService.userBaseTokenAccount td)
                             lamports;
                    SyncNative (LpService.userBaseTokenAccount td) ]
             else [])
         ++ swapIxs
         ++ (if swapBaseIn req && LpService.isWSOLSwap td
             then [ CloseAccount (LpService.userQuoteTokenAccount td)
                                 (owner req) (owner req) ]
             else []),
         owner req :: signers) ] /\
    swapIxs <> [].
Proof.
  destruct req as [[td|] a sbi own];
    [|cbn; intros H; discriminate H].
  open_swap.
  unfold createWrapSOLInstructions, newPublicKey, priorityFee.
  cbn [tokenData amountSpecified swapBaseIn owner].
  destruct sbi; destruct (LpService.isWSOLSwap td) eqn:Hw.
  all: walk_exec.
  all: intros _;
       match goal with
       | |- context [Settled (DirectSwap _) (Ok (?ixs, _))] =>
           eexists _, _, _, ixs, _
       end; cbv zeta.
  all: cbn [tokenData swapBaseIn owner].
  all: (split; [reflexivity|]).
  all: rewrite ?Hw.
  all: cbn [negb andb].
  all: (split; [eassumption|]).
  all: (split; [reflexivity|]).
  all: (split; [find_event|]).
  all: (split; [reflexivity|]).
  all: (split;
        [match goal with
         | |- context [SendAndConfirmTransaction ?tx _] =>
             let T := fresh "T" in
             set (T := tx); cbn [sent app]; subst T;
             rewrite ?app_nil_r; reflexivity
         end|]).
  all: discriminate.
  Unshelve. all: exact 0%float.
Qed.

Lemma swap_that_resolves_sent_one_transaction_witness :
  let run := exec Fixture2.exchange
                  (swapTokens Fixture2.swapEnv Fixture2.sell) false [] in
  outcome run = Ok "signature" /\
  exists td mint lamports swapIxs signers,
    let account :=
      if swapBaseIn Fixture2.sell then LpService.userQuoteTokenAccount td
      else LpService.userBaseTokenAccount td in
    tokenData Fixture2.sell = Some td /\
    (if swapBaseIn Fixture2.sell then LpService.quoteMint td
     else LpService.baseMint td) = Some mint /\
    sdkLoaded run = true /\
    In (Settled (GetAccountInfo account) (Ok None)) (events run) /\
    count directSwap_called (events run) = 1%nat /\
    sent (events run) =
      [ (priorityFee Fixture2.swapEnv
         ++ [ CreateAssociatedTokenAccount (owner Fixture2.sell) account
                                           (owner Fixture2.sell) mint ]
         ++ (if negb (swapBaseIn Fixture2.sell) && LpService.isWSOLSwap td
             then [ Transfer (owner Fixture2.sell)
                             (LpService.userBaseTokenAccount td) lamports;
                    SyncNative (LpService.userBaseTokenAccount td) ]
             else [])
         ++ swapIxs
         ++ (if swapBaseIn Fixture2.sell && LpService.isWSOLSwap td
             then [ CloseAccount (LpService.userQuoteTokenAccount td)
                                 (owner Fixture2.sell) (owner Fixture2.sell) ]
             else []),
         owner Fixture2.sell :: signers) ] /\
    swapIxs <> [].
Proof.
  intros run. split.
  - vm_compute. reflexivity.
  - apply (swap_that_resolves_sent_one_transaction
             Fixture2.swapEnv Fixture2.exchange Fixture2.sell false
             "signature").
    vm_compute. reflexivity.
Defined.

(** The transaction of the fixture's sell: the fee pair with the default
    multiplier 1.5, the creation of the quote token account, the swap, and
    the closing of the quote token account. *)
Lemma example_sell_transaction :
  exists quoteAccount,
    option_map LpService.userQuoteTokenAccount Fixture.record
      = Some quoteAccount /\
    sent (events (exec Fixture2.exchange
                       (swapTokens Fixture2.swapEnv Fixture2.sell) false []))
      = [ ([ SetComputeUnitLimit 300000;
             SetComputeUnitPrice 75000;
             CreateAssociatedTokenAccount "Owner" quoteAccount "Owner"
                                          LpService.WSOL_MINT;
             SdkInstruction 0;
             CloseAccount quoteAccount "Owner" "Owner" ],
           ["Owner"]) ].
Proof. eexists. split; [run_lhs|vm_compute; reflexivity]. Qed.

(** The same sell when the quote token account exists already: no creation
    instruction is returned, [transaction.add] refuses the empty list, and
    the swap is rejected before [directSwap] is called. *)
Lemma example_sell_to_existing_account :
  let run := exec Fixture2.exchangeWithAccounts
                  (swapTokens Fixture2.swapEnv Fixture2.sell) false [] in
  outcome run = Err (ErrorMsg "No instructions") /\
  count directSwap_called (events run) = 0%nat /\
  sent (events run) = [].
Proof. vm_compute. repeat split. Qed.

(** *** Failures *)

(** X29: [debugTokenAccountState] never raises, not even on an undefined
    [tokenData], for which it calls nothing; it leaves [this.raydium] as it
    is and calls neither [directSwap] nor [sendAndConfirmTransaction]. *)
Theorem debugTokenAccountState_never_raises
        env (o : Oracle) (td : option LpRecord) (own : string)
        (loaded : bool) (tr : list Event) :
  let run := exec o (debugTokenAccountState env td own) loaded tr in
  outcome run = Ok tt /\
  sdkLoaded run = loaded /\
  count directSwap_called (events run) = count directSwap_called tr /\
  count send_called (events run) = count send_called tr /\
  (td = None -> events run = tr).
Proof.
  unfold debugTokenAccountState, newPublicKey, await, liftR.
  destruct td as [td|].
  all: repeat first
    [ progress (cbn [exec bind try_catch settle]; cbv zeta)
    | match goal with
      | |- context [isPublicKey ?e ?s] => destruct (isPublicKey e s) eqn:?
      | |- context [LpService.baseVault ?t] =>
          destruct (LpService.baseVault t) eqn:?
      | |- context [settle ?r] => destruct r eqn:?
      end ].
  all: cbn [outcome sdkLoaded events fst snd].
  all: (split; [reflexivity|]).
  all: (split; [reflexivity|]).
  all: (split;
        [rewrite ?count_calls_app; unfold count;
         cbn [filter directSwap_called is_directSwap List.length]; lia|]).
  all: (split;
        [rewrite ?count_calls_app; unfold count;
         cbn [filter send_called is_send List.length]; lia|]).
  all: intros H; first [discriminate H|reflexivity].
Qed.

(** X30: when the SDK has no state for the pool, [swapTokens] of the later
    copy ends in an exception without calling [directSwap] or
    [sendAndConfirmTransaction]; and when the run got as far as asking for
    the pool state, the exception is "Pool state not found". *)
Theorem swap_without_pool_state_sends_nothing
        env (o : Oracle) (req : Request) (loaded : bool) :
  (forall tr poolId, o tr _ (GetPool poolId) = Ok None) ->
  let run := exec o (swapTokens env req) loaded [] in
  is_ok (outcome run) = false /\
  count directSwap_called (events run) = 0%nat /\
  count send_called (events run) = 0%nat /\
  (count getPool_called (events run) = 1%nat ->
   outcome run = Err (ErrorMsg "Pool state not found")).
Proof.
  intros Hpool.
  destruct req as [[td|] a sbi own]; cbv zeta;
    [|cbn; repeat split; intros H; discriminate H].
  open_swap.
  cbn [tokenData amountSpecified swapBaseIn owner].
  repeat first
    [ progress (cbn [exec bind try_catch start settle]; cbv zeta)
    | rewrite Hpool
    | match goal with
      | |- context [settle ?r] => destruct r
      | |- context [match ?x with _ => _ end] =>
          lazymatch x with
          | context [exec _ _ _ _] => fail
          | _ => destruct x
          end
      end ].
  all: cbn [outcome events fst snd is_ok].
  all: (split; [reflexivity|]).
  all: unfold count;
    cbn [app filter directSwap_called is_directSwap send_called is_send
         getPool_called is_getPool List.length].
  all: (split; [reflexivity|]).
  all: (split; [reflexivity|]).
  all: intros H; first [discriminate H|reflexivity].
Qed.

Lemma swap_without_pool_state_sends_nothing_witness :
  let run := exec Fixture2.noPoolState
                  (swapTokens Fixture2.swapEnv Fixture2.sell) false [] in
  is_ok (outcome run) = false /\
  count directSwap_called (events run) = 0%nat /\
  count send_called (events run) = 0%nat /\
  (count getPool_called (events run) = 1%nat ->
   outcome run = Err (ErrorMsg "Pool state not found")).
Proof.
  apply (swap_without_pool_state_sends_nothing
           Fixture2.swapEnv Fixture2.noPoolState Fixture2.sell false).
  intros tr poolId. reflexivity.
Defined.

(** On the fixture the run does reach the request for the pool state. *)
Lemma example_pool_state_not_found :
  outcome (exec Fixture2.noPoolState
                (swapTokens Fixture2.swapEnv Fixture2.sell) false [])
    = Err (ErrorMsg "Pool state not found").
Proof. vm_compute. reflexivity. Qed.

(** *** Loading the SDK *)

Lemma loaded_never_reloads env r :
  at_most (@is_load) 0 true (swapTokens env r).
Proof.
  destruct r as [td a sbi own].
  open_swap. cbn [tokenData amountSpecified swapBaseIn owner].
  walk_swap.
Qed.

Lemma loads_at_most_once env r :
  at_most (@is_load) 1 false (swapTokens env r).
Proof.
  destruct r as [td a sbi own].
  open_swap. cbn [tokenData amountSpecified swapBaseIn owner].
  walk_swap.
Qed.

(** X25: a run of [swapTokens] loads the SDK at most once, and not at all
    when [this.raydium] is already set; once set it stays set, whether the
    swap resolves or fails. *)
Theorem sdk_is_loaded_at_most_once
        env (o : Oracle) (req : Request) (loaded : bool) (tr : list Event) :
  let run := exec o (swapTokens env req) loaded tr in
  (count load_called (events run)
   <= count load_called tr + (if loaded then 0 else 1))%nat /\
  (loaded = true -> sdkLoaded run = true).
Proof.
  cbv zeta. split.
  - destruct loaded.
    + exact (at_most_exec (@is_load) o _ 0 true tr (loaded_never_reloads env req)).
    + exact (at_most_exec (@is_load) o _ 1 false tr (loads_at_most_once env req)).
  - intros ->. apply exec_stays_loaded.
Qed.

End SwapFacts.
